(** * mcp-server-agenda: a shallow embedding of [server.py]

    The server keeps an in-memory note store, exposes it as resources and
    as a prompt, and offers four tools: [add-note] mutates the store, the
    three Agenda tools build an [agenda://x-callback-url/...] URL and hand
    it to the macOS [open] command.

    Conventions of the embedding.
    - A Python [str] is a Rocq [string] holding its UTF-8 bytes, which is
      the form [urllib.parse.quote] works on.
    - A JSON value reaching a handler is a [pyval]: [None], a [bool], an
      [int] or a [str].  Floats, arrays and nested objects are outside the
      model.
    - The argument bag of a request ([dict | None], a JSON object) is an
      [option (gmap string pyval)]; only membership, subscript and [get]
      are used on it, so its order is irrelevant.
    - The module-level [notes] dict is an association list in insertion
      order, because [handle_get_prompt] iterates over it.
    - A raised exception is the [Raise] constructor of [res]; handlers run
      in a small monad threading the note store and the trace of external
      effects (URLs opened, notifications sent). *)

From Stdlib Require Import ZArith Ascii String List Lia DecimalString.
From stdpp Require Import base option list strings gmap.

Local Open Scope Z_scope.

(** ** Python values *)

Inductive pyval : Type :=
  | PNone
  | PBool (b : bool)
  | PInt (z : Z)
  | PStr (s : string).

#[global] Instance pyval_eq_dec : EqDecision pyval.
Proof. solve_decision. Defined.

(** Python exceptions that the server raises or lets through.  [KeyError]
    carries the missing key; [OtherException] stands for whatever else the
    process-spawning layer may raise (for instance [FileNotFoundError]) and
    carries the text [str(e)]. *)
Inductive exn : Type :=
  | ValueError (msg : string)
  | KeyError (key : pyval)
  | TypeError (msg : string)
  | RuntimeError (msg : string)
  | OtherException (msg : string).

Inductive res (A : Type) : Type :=
  | Return (a : A)
  | Raise (e : exn).
Arguments Return {A} a.
Arguments Raise {A} e.

#[global] Instance res_ret : MRet res := fun A a => Return a.

#[global] Instance res_bind : MBind res := fun A B k r =>
  match r with
  | Return a => k a
  | Raise e => Raise e
  end.

(** ** Strings *)

Definition nl : string := String (ascii_of_nat 10) EmptyString.

Definition Z_of_ascii (c : ascii) : Z := Z.of_N (N_of_ascii c).

Definition in_range (lo hi : ascii) (c : ascii) : bool :=
  (Z_of_ascii lo <=? Z_of_ascii c) && (Z_of_ascii c <=? Z_of_ascii hi).

Definition is_upper (c : ascii) : bool := in_range "A" "Z" c.
Definition is_lower (c : ascii) : bool := in_range "a" "z" c.
Definition is_digit (c : ascii) : bool := in_range "0" "9" c.

Fixpoint str_mem (c : ascii) (s : string) : bool :=
  match s with
  | EmptyString => false
  | String d r => if Ascii.eqb c d then true else str_mem c r
  end.

Fixpoint str_map (f : ascii -> ascii) (s : string) : string :=
  match s with
  | EmptyString => EmptyString
  | String c r => String (f c) (str_map f r)
  end.

Fixpoint str_forall (p : ascii -> bool) (s : string) : bool :=
  match s with
  | EmptyString => true
  | String c r => p c && str_forall p r
  end.

(** ['sep'.join(parts)] *)
Fixpoint join (sep : string) (parts : list string) : string :=
  match parts with
  | [] => EmptyString
  | [p] => p
  | p :: rest => p +:+ sep +:+ join sep rest
  end.

(** [s.lstrip(chars)]: drop every leading character that is in [chars]. *)
Fixpoint lstrip (chars : string) (s : string) : string :=
  match s with
  | EmptyString => EmptyString
  | String c r => if str_mem c chars then lstrip chars r else s
  end.

(** [str.lower()] on the ASCII letters.  Python also lowers cased letters
    outside ASCII; bytes above 127 are left alone here. *)
Definition lower_char (c : ascii) : ascii :=
  if is_upper c then ascii_of_N (N_of_ascii c + 32) else c.

Definition lower (s : string) : string := str_map lower_char s.

Definition hex_upper (n : Z) : ascii :=
  if n <? 10 then ascii_of_N (Z.to_N (48 + n)) else ascii_of_N (Z.to_N (55 + n)).

Definition hex_lower (n : Z) : ascii :=
  if n <? 10 then ascii_of_N (Z.to_N (48 + n)) else ascii_of_N (Z.to_N (87 + n)).

(** [str(z)] for an [int]. *)
Definition str_of_int (z : Z) : string := NilZero.string_of_int (Z.to_int z).

(** [repr(s)] for a [str]: single quotes unless the text has a single
    quote and no double quote; backslash, the chosen quote, tab, newline,
    carriage return and the other ASCII control characters are escaped.
    Bytes above 127 are kept, as Python keeps printable non-ASCII text. *)
Definition dquote : ascii := ascii_of_nat 34.

Definition repr_quote (s : string) : ascii :=
  if str_mem "'" s && negb (str_mem dquote s) then dquote else "'"%char.

Definition repr_char (q : ascii) (c : ascii) : string :=
  let n := Z_of_ascii c in
  if Ascii.eqb c "\" then "\\"
  else if Ascii.eqb c q then String "\" (String c EmptyString)
  else if n =? 9 then "\t"
  else if n =? 10 then "\n"
  else if n =? 13 then "\r"
  else if (n <? 32) || (n =? 127) then
    String "\" (String "x" (String (hex_lower (n / 16)) (String (hex_lower (n mod 16)) EmptyString)))
  else String c EmptyString.

Fixpoint repr_body (q : ascii) (s : string) : string :=
  match s with
  | EmptyString => EmptyString
  | String c r => repr_char q c +:+ repr_body q r
  end.

Definition repr_str (s : string) : string :=
  let q := repr_quote s in
  String q (repr_body q s +:+ String q EmptyString).

(** [str(v)], which is also what an f-string field renders. *)
Definition py_str (v : pyval) : string :=
  match v with
  | PNone => "None"
  | PBool true => "True"
  | PBool false => "False"
  | PInt z => str_of_int z
  | PStr s => s
  end.

(** [repr(v)] *)
Definition py_repr (v : pyval) : string :=
  match v with
  | PStr s => repr_str s
  | _ => py_str v
  end.

(** [str(list_of_str)] *)
Definition str_of_list (l : list string) : string :=
  "[" +:+ join ", " (map repr_str l) +:+ "]".

(** Truth value of a Python object, as tested by [not x]. *)
Definition truthy (v : pyval) : bool :=
  match v with
  | PNone => false
  | PBool b => b
  | PInt z => negb (z =? 0)
  | PStr s => negb (String.eqb s "")
  end.

(** [a == b] between Python values; [True == 1] and [False == 0]. *)
Definition as_int (v : pyval) : option Z :=
  match v with
  | PBool b => Some (if b then 1 else 0)
  | PInt z => Some z
  | _ => None
  end.

Definition py_eq (a b : pyval) : bool :=
  match a, b with
  | PNone, PNone => true
  | PStr s, PStr t => String.eqb s t
  | _, _ =>
      match as_int a, as_int b with
      | Some x, Some y => x =? y
      | _, _ => false
      end
  end.

(** [str(e)] of an exception. *)
Definition exn_str (e : exn) : string :=
  match e with
  | ValueError m | TypeError m | RuntimeError m | OtherException m => m
  | KeyError k => py_repr k
  end.

(** ** [urllib.parse.quote]

    With the default [safe='/'], every byte of the UTF-8 text other than an
    ASCII letter, a digit, one of [_.-~] or [/] becomes [%XX] in upper-case
    hexadecimal.  A value that is not a [str] makes [quote] raise
    [TypeError].  Of a [safe] text only the ASCII characters count
    ([safe.encode('ascii', 'ignore')]): a byte above 127 is always
    escaped. *)

Definition always_safe (c : ascii) : bool :=
  is_upper c || is_lower c || is_digit c || str_mem c "_.-~".

Definition is_ascii (c : ascii) : bool := Z_of_ascii c <? 128.

Definition quote_byte (safe : string) (c : ascii) : string :=
  if always_safe c || (is_ascii c && str_mem c safe) then String c EmptyString
  else
    let n := Z_of_ascii c in
    String "%" (String (hex_upper (n / 16)) (String (hex_upper (n mod 16)) EmptyString)).

Fixpoint quote_from_bytes (safe : string) (bs : string) : string :=
  match bs with
  | EmptyString => EmptyString
  | String c r => quote_byte safe c +:+ quote_from_bytes safe r
  end.

Definition quote (v : pyval) : res string :=
  match v with
  | PStr s => Return (quote_from_bytes "/" s)
  | _ => Raise (TypeError "quote_from_bytes() expected bytes")
  end.

(** ** The note store

    [notes: dict[str, str] = {}].  A Python dict keeps insertion order;
    assigning to a key that is already there replaces the value in place
    and keeps the key's position (and the key object first stored). *)

Definition store : Type := list (pyval * pyval).

Definition notes_init : store := [].

Fixpoint dict_get (k : pyval) (d : store) : option pyval :=
  match d with
  | [] => None
  | (k0, v0) :: r => if py_eq k0 k then Some v0 else dict_get k r
  end.

Fixpoint dict_set (k v : pyval) (d : store) : store :=
  match d with
  | [] => [(k, v)]
  | (k0, v0) :: r =>
      if py_eq k0 k then (k0, v) :: r else (k0, v0) :: dict_set k v r
  end.

(** [notes[name]] *)
Definition store_subscript (d : store) (k : pyval) : res pyval :=
  match dict_get k d with
  | Some v => Return v
  | None => Raise (KeyError k)
  end.

(** ** Argument bags *)

Abbreviation args := (gmap string pyval).

(** [not arguments] for [arguments: dict | None] *)
Definition not_arguments (arguments : option args) : bool :=
  match arguments with
  | None => true
  | Some d => bool_decide (d = ∅)
  end.

(** ["key" in arguments] *)
Definition has_key (d : args) (key : string) : bool :=
  bool_decide (is_Some (d !! key)).

(** [arguments["key"]] *)
Definition subscript (d : args) (key : string) : res pyval :=
  match d !! key with
  | Some v => Return v
  | None => Raise (KeyError (PStr key))
  end.

(** [arguments.get("key", dflt)]; [arguments.get("key")] has [dflt = None] *)
Definition get_default (d : args) (key : string) (dflt : pyval) : pyval :=
  default dflt (d !! key).

(** ** The operating system

    [subprocess.run(['open', url], check=True, capture_output=True,
    text=True)] either spawns the command and collects its exit status and
    output, or fails to spawn it.  What happens is the platform's choice;
    so is the table [signal.Signals], used to describe a command killed by
    a signal. *)

Record CompletedProcess : Type := {
  returncode : Z;
  stdout : string;
  stderr : string;
}.

Inductive spawn_outcome : Type :=
  | Exited (p : CompletedProcess)
  | SpawnFailed (e : exn).

Record platform : Type := {
  run_open : string -> spawn_outcome;
  signal_repr : Z -> option string;
}.

(** [str(e)] for [e = CalledProcessError(returncode, cmd, output, stderr)].
    The text names the command and the exit status; the captured output
    and error streams are attributes of [e] and not part of [str(e)]. *)
Definition CalledProcessError_str (P : platform) (cmd : list string) (rc : Z) : string :=
  if rc <? 0 then
    match signal_repr P (- rc) with
    | Some r => "Command '" +:+ str_of_list cmd +:+ "' died with " +:+ r +:+ "."
    | None =>
        "Command '" +:+ str_of_list cmd +:+ "' died with unknown signal "
          +:+ str_of_int (- rc) +:+ "."
    end
  else
    "Command '" +:+ str_of_list cmd +:+ "' returned non-zero exit status "
      +:+ str_of_int rc +:+ ".".

(** ** [XCallbackURLHandler.call_url] *)

Definition call_url (P : platform) (url : string) : res string :=
  match run_open P url with
  | Exited result =>
      if returncode result =? 0 then Return (stdout result)
      else
        Raise (RuntimeError ("Failed to execute x-callback-url: "
                 +:+ CalledProcessError_str P ["open"; url] (returncode result)))
  | SpawnFailed e => Raise e
  end.

(** ** The handler monad: note store and trace of external effects *)

Inductive event : Type :=
  | RunOpen (url : string)
  | ResourceListChanged.

Definition M (A : Type) : Type := store -> res A * store * list event.

#[global] Instance M_ret : MRet M := fun A a notes => (Return a, notes, []).

#[global] Instance M_bind : MBind M := fun A B k m notes =>
  match m notes with
  | (Return a, notes', tr) =>
      match k a notes' with
      | (r, notes'', tr') => (r, notes'', tr ++ tr')
      end
  | (Raise e, notes', tr) => (Raise e, notes', tr)
  end.

Definition raise {A} (e : exn) : M A := fun notes => (Raise e, notes, []).

Definition lift {A} (r : res A) : M A := fun notes => (r, notes, []).

Definition emit (ev : event) : M unit := fun notes => (Return tt, notes, [ev]).

Definition notes_setitem (k v : pyval) : M unit :=
  fun notes => (Return tt, dict_set k v notes, []).

(** The call inside [try: XCallbackURLHandler.call_url(url) ...]: it is
    made, and its outcome is handed to the rest of the [try] block, whose
    exceptions the [except Exception as e] clause turns into a text. *)
Definition try_call_url (P : platform) (url : string) : M (res string) :=
  fun notes => (Return (call_url P url), notes, [RunOpen url]).

(** ** Protocol values *)

Record TextContent : Type := {
  tc_type : string;
  tc_text : string;
}.

Definition text_block (t : string) : TextContent :=
  {| tc_type := "text"; tc_text := t |}.

Record PromptMessage : Type := {
  role : string;
  content : TextContent;
}.

Record GetPromptResult : Type := {
  description : string;
  messages : list PromptMessage;
}.

(** The parts of a [pydantic.AnyUrl] that [handle_read_resource] reads.
    [path] is [None] when the URI has no path. *)
Record AnyUrl : Type := {
  scheme : string;
  host : option string;
  path : option string;
}.

(** ** [handle_read_resource] *)

Definition handle_read_resource (notes : store) (uri : AnyUrl) : res pyval :=
  if negb (String.eqb (scheme uri) "note") then
    Raise (ValueError ("Unsupported URI scheme: " +:+ scheme uri))
  else
    match path uri with
    | Some name =>
        let name := lstrip "/" name in
        store_subscript notes (PStr name)
    | None => Raise (ValueError ("Note not found: " +:+ py_str PNone))
    end.

(** ** [handle_get_prompt] *)

Definition note_line (kv : pyval * pyval) : string :=
  "- " +:+ py_str kv.1 +:+ ": " +:+ py_str kv.2.

Definition handle_get_prompt (notes : store) (name : string)
    (arguments : option args) : res GetPromptResult :=
  if negb (String.eqb name "summarize-notes") then
    Raise (ValueError ("Unknown prompt: " +:+ name))
  else
    let style :=
      get_default (if not_arguments arguments then ∅ else default ∅ arguments)
        "style" (PStr "brief") in
    let detail_prompt :=
      if py_eq style (PStr "detailed") then " Give extensive details." else "" in
    Return
      {| description := "Summarize the current notes";
         messages :=
           [ {| role := "user";
                content :=
                  text_block
                    ("Here are the current notes to summarize:" +:+ detail_prompt
                       +:+ nl +:+ nl +:+ join nl (map note_line notes)) |} ] |}.

(** ** Building the callback URLs

    [params] is the local list the handler appends to, passed along. *)

(** [if "key" in arguments: params.append(f"name={quote(arguments['key'])}")] *)
Definition append_quoted (arguments : args) (key name : string)
    (params : list string) : res (list string) :=
  if has_key arguments key then
    v ← subscript arguments key;
    q ← quote v;
    mret (params ++ [name +:+ "=" +:+ q])
  else mret params.

(** [if "key" in arguments:
       params.append(f"name={str(arguments['key']).lower()}")] *)
Definition append_lowered (arguments : args) (key name : string)
    (params : list string) : res (list string) :=
  if has_key arguments key then
    v ← subscript arguments key;
    mret (params ++ [name +:+ "=" +:+ lower (py_str v)])
  else mret params.

(** [if "key" in arguments: params.append(f"name={arguments['key']}")] *)
Definition append_verbatim (arguments : args) (key name : string)
    (params : list string) : res (list string) :=
  if has_key arguments key then
    v ← subscript arguments key;
    mret (params ++ [name +:+ "=" +:+ py_str v])
  else mret params.

Definition make_url (base_url : string) (params : list string) : string :=
  base_url +:+ "?" +:+ join "&" params.

Definition create_note_params (arguments : args) : res (list string) :=
  let params := [] in
  title ← subscript arguments "title";
  qtitle ← quote title;
  let params := params ++ ["title=" +:+ qtitle] in
  text ← subscript arguments "text";
  qtext ← quote text;
  let params := params ++ ["text=" +:+ qtext] in
  params ← append_quoted arguments "project_title" "project-title" params;
  params ← append_lowered arguments "on_the_agenda" "on-the-agenda" params;
  params ← append_quoted arguments "date" "date" params;
  params ← append_quoted arguments "start_date" "start-date" params;
  params ← append_quoted arguments "end_date" "end-date" params;
  params ← append_quoted arguments "template_name" "template-name" params;
  params ← append_quoted arguments "template_input" "template-input" params;
  params ← append_lowered arguments "collapsed" "collapsed" params;
  params ← append_lowered arguments "completed" "completed" params;
  params ← append_lowered arguments "pinned" "pinned" params;
  params ← append_lowered arguments "footnote" "footnote" params;
  params ← append_lowered arguments "select" "select" params;
  mret params.

Definition create_note_url (arguments : args) : res string :=
  params ← create_note_params arguments;
  mret (make_url "agenda://x-callback-url/create-note" params).

Definition create_project_params (arguments : args) : res (list string) :=
  let params := [] in
  title ← subscript arguments "title";
  qtitle ← quote title;
  let params := params ++ ["title=" +:+ qtitle] in
  params ← append_quoted arguments "category_title" "category-title" params;
  params ← append_quoted arguments "identifier" "identifier" params;
  params ← append_lowered arguments "select" "select" params;
  params ← append_verbatim arguments "sort_order" "sort-order" params;
  mret params.

Definition create_project_url (arguments : args) : res string :=
  params ← create_project_params arguments;
  mret (make_url "agenda://x-callback-url/create-project" params).

Definition open_note_params (arguments : args) : res (list string) :=
  let params := [] in
  params ← append_quoted arguments "title" "title" params;
  params ← append_quoted arguments "identifier" "identifier" params;
  params ← append_quoted arguments "project_title" "project-title" params;
  params ← append_lowered arguments "separate_window" "separate-window" params;
  mret params.

Definition open_note_url (arguments : args) : res string :=
  params ← open_note_params arguments;
  mret (make_url "agenda://x-callback-url/open-note" params).

(** ** [handle_call_tool]

    In add-note, [notes[note_name] = content] needs a hashable name; every
    [pyval] is hashable.  A JSON array or object given as the name passes
    both checks and then makes that assignment raise [TypeError], before
    the notification; such values are outside [pyval]. *)

Definition add_note (arguments : option args) : M (list TextContent) :=
  if not_arguments arguments then raise (ValueError "Missing arguments")
  else
    let d := default ∅ arguments in
    let note_name := get_default d "name" PNone in
    let content := get_default d "content" PNone in
    if negb (truthy note_name) || negb (truthy content) then
      raise (ValueError "Missing name or content")
    else
      _ ← notes_setitem note_name content;
      _ ← emit ResourceListChanged;
      mret [text_block ("Added note '" +:+ py_str note_name
                          +:+ "' with content: " +:+ py_str content)].

Definition create_agenda_note (P : platform) (arguments : option args)
    : M (list TextContent) :=
  if not_arguments arguments then raise (ValueError "Missing arguments")
  else
    let d := default ∅ arguments in
    url ← lift (create_note_url d);
    r ← try_call_url P url;
    match (_ ← r;
           title ← subscript d "title";
           mret [text_block ("Created note '" +:+ py_str title +:+ "' in Agenda")]) with
    | Return out => mret out
    | Raise e =>
        mret [text_block ("Failed to create note in Agenda: " +:+ exn_str e)]
    end.

Definition create_agenda_project (P : platform) (arguments : option args)
    : M (list TextContent) :=
  if not_arguments arguments then raise (ValueError "Missing arguments")
  else
    let d := default ∅ arguments in
    url ← lift (create_project_url d);
    r ← try_call_url P url;
    match (_ ← r;
           title ← subscript d "title";
           mret [text_block ("Created project '" +:+ py_str title +:+ "' in Agenda")]) with
    | Return out => mret out
    | Raise e =>
        mret [text_block ("Failed to create project in Agenda: " +:+ exn_str e)]
    end.

Definition open_agenda_note (P : platform) (arguments : option args)
    : M (list TextContent) :=
  if not_arguments arguments then raise (ValueError "Missing arguments")
  else
    let d := default ∅ arguments in
    if negb (existsb (has_key d) ["title"; "identifier"]) then
      raise (ValueError "Either title or identifier must be provided")
    else
      url ← lift (open_note_url d);
      r ← try_call_url P url;
      match (_ ← r;
             let note_desc :=
               get_default d "title"
                 (get_default d "identifier" (PStr "requested note")) in
             mret [text_block ("Opened note '" +:+ py_str note_desc +:+ "' in Agenda")]) with
      | Return out => mret out
      | Raise e =>
          mret [text_block ("Failed to open note in Agenda: " +:+ exn_str e)]
      end.

Definition handle_call_tool (P : platform) (name : string)
    (arguments : option args) : M (list TextContent) :=
  if String.eqb name "add-note" then add_note arguments
  else if String.eqb name "create-agenda-note" then create_agenda_note P arguments
  else if String.eqb name "create-agenda-project" then create_agenda_project P arguments
  else if String.eqb name "open-agenda-note" then open_agenda_note P arguments
  else raise (ValueError ("Unknown tool: " +:+ name)).

(** ** Vocabulary of the specification *)

(** The name of a [name=value] query parameter: the text before the first
    [=]. *)
Fixpoint param_name (p : string) : string :=
  match p with
  | EmptyString => EmptyString
  | String c r => if Ascii.eqb c "=" then EmptyString else String c (param_name r)
  end.

(** [needle in hay] for strings. *)
Fixpoint contains (needle hay : string) : bool :=
  String.prefix needle hay ||
  match hay with
  | EmptyString => false
  | String _ r => contains needle r
  end.

Definition starts_with_slash (s : string) : bool :=
  match s with
  | String c _ => Ascii.eqb c "/"
  | EmptyString => false
  end.

Definition is_str (v : pyval) : bool :=
  match v with
  | PStr _ => true
  | _ => false
  end.

(** A required string field: present and a [str]. *)
Definition str_required (d : args) (key : string) : bool :=
  match d !! key with
  | Some v => is_str v
  | None => false
  end.

(** An optional string field: a [str] when present. *)
Definition str_optional (d : args) (key : string) : bool :=
  match d !! key with
  | Some v => is_str v
  | None => true
  end.

(** The optional parameters of create-note, argument key and query name,
    in the order of the tool's contract. *)
Definition note_optional : list (string * string) :=
  [ ("project_title", "project-title");
    ("on_the_agenda", "on-the-agenda");
    ("date", "date");
    ("start_date", "start-date");
    ("end_date", "end-date");
    ("template_name", "template-name");
    ("template_input", "template-input");
    ("collapsed", "collapsed");
    ("completed", "completed");
    ("pinned", "pinned");
    ("footnote", "footnote");
    ("select", "select") ].

(** A create-agenda-note bag as the input schema types its string fields. *)
Definition create_note_well_formed (d : args) : bool :=
  str_required d "title" && str_required d "text" &&
  forallb (str_optional d)
    ["project_title"; "date"; "start_date"; "end_date";
     "template_name"; "template_input"].

(** A create-agenda-project bag as the input schema types its string
    fields that the handler encodes. *)
Definition create_project_well_formed (d : args) : bool :=
  str_required d "title" &&
  forallb (str_optional d) ["category_title"; "identifier"].

(** The three URL-building tools. *)
Inductive url_tool : Type := CreateNote | CreateProject | OpenNote.

Definition tool_params (t : url_tool) : args -> res (list string) :=
  match t with
  | CreateNote => create_note_params
  | CreateProject => create_project_params
  | OpenNote => open_note_params
  end.

Definition tool_url (t : url_tool) : args -> res string :=
  match t with
  | CreateNote => create_note_url
  | CreateProject => create_project_url
  | OpenNote => open_note_url
  end.

Definition tool_base (t : url_tool) : string :=
  match t with
  | CreateNote => "agenda://x-callback-url/create-note"
  | CreateProject => "agenda://x-callback-url/create-project"
  | OpenNote => "agenda://x-callback-url/open-note"
  end.

(** Parameters the handler passes through [quote]. *)
Definition quoted_fields (t : url_tool) : list (string * string) :=
  match t with
  | CreateNote =>
      [ ("title", "title"); ("text", "text"); ("project_title", "project-title");
        ("date", "date"); ("start_date", "start-date"); ("end_date", "end-date");
        ("template_name", "template-name"); ("template_input", "template-input") ]
  | CreateProject =>
      [ ("title", "title"); ("category_title", "category-title");
        ("identifier", "identifier") ]
  | OpenNote =>
      [ ("title", "title"); ("identifier", "identifier");
        ("project_title", "project-title") ]
  end.

(** Parameters the handler renders with [str(...).lower()]. *)
Definition bool_fields (t : url_tool) : list (string * string) :=
  match t with
  | CreateNote =>
      [ ("on_the_agenda", "on-the-agenda"); ("collapsed", "collapsed");
        ("completed", "completed"); ("pinned", "pinned");
        ("footnote", "footnote"); ("select", "select") ]
  | CreateProject => [ ("select", "select") ]
  | OpenNote => [ ("separate_window", "separate-window") ]
  end.

(** Parameters the handler inserts as they are. *)
Definition verbatim_fields (t : url_tool) : list (string * string) :=
  match t with
  | CreateProject => [ ("sort_order", "sort-order") ]
  | _ => []
  end.

(** The reserved characters of RFC 3986 (gen-delims and sub-delims). *)
Definition reserved (c : ascii) : bool := str_mem c ":/?#[]@!$&'()*+,;=".

(** What may occur in a value encoded by [quote]: an always-safe
    character, [/], or the [%] that opens an escape. *)
Definition quoted_char (c : ascii) : bool :=
  always_safe c || Ascii.eqb c "/" || Ascii.eqb c "%".

(** Percent-decoding, the inverse of [quote]. *)
Definition hex_value (c : ascii) : Z :=
  if is_digit c then Z_of_ascii c - 48 else Z_of_ascii c - 55.

Fixpoint unquote (s : string) : string :=
  match s with
  | String "%" (String h (String l r)) =>
      String (ascii_of_N (Z.to_N (16 * hex_value h + hex_value l))) (unquote r)
  | String c r => String c (unquote r)
  | EmptyString => EmptyString
  end.

(** The key under which a value is filed in a dict: [True] and [1], and
    [False] and [0], are one key. *)
Inductive dict_key : Type :=
  | KNone
  | KInt (z : Z)
  | KStr (s : string).

Definition key_of (v : pyval) : dict_key :=
  match v with
  | PNone => KNone
  | PBool b => KInt (if b then 1 else 0)
  | PInt z => KInt z
  | PStr s => KStr s
  end.

(** [arguments.get("name")] and [arguments.get("content")] of an add-note
    call. *)
Definition note_name_of (d : args) : pyval := get_default d "name" PNone.
Definition content_of (d : args) : pyval := get_default d "content" PNone.

(** An add-note bag that passes validation. *)
Definition add_note_valid (d : args) : bool :=
  truthy (note_name_of d) && truthy (content_of d).

(** The store left by a handler call, its result and its trace. *)
Definition store_after {A} (r : res A * store * list event) : store := r.1.2.
Definition result_of {A} (r : res A * store * list event) : res A := r.1.1.
Definition trace_of {A} (r : res A * store * list event) : list event := r.2.

(** A sequence of add-note calls, one after the other. *)
Fixpoint run_add_notes (P : platform) (calls : list args) (notes : store) : store :=
  match calls with
  | [] => notes
  | d :: rest =>
      run_add_notes P rest
        (store_after (handle_call_tool P "add-note" (Some d) notes))
  end.

(** Keys no two of which are equal as dict keys. *)
Fixpoint keys_distinct (ks : list pyval) : Prop :=
  match ks with
  | [] => True
  | k :: rest => Forall (fun k' => py_eq k k' = false) rest /\ keys_distinct rest
  end.

(** The ways an add-note call fails validation. *)
Definition missing_or_empty (d : args) (key : string) : Prop :=
  d !! key = None \/ d !! key = Some (PStr "").

Definition add_note_invalid (arguments : option args) : Prop :=
  arguments = None \/
  exists d, arguments = Some d /\
    (d = ∅ \/ missing_or_empty d "name" \/ missing_or_empty d "content").

(** Whether the [style] argument of get-prompt equals ["detailed"]. *)
Definition style_detailed (arguments : option args) : bool :=
  bool_decide (arguments ≫= (fun d => d !! "style") = Some (PStr "detailed")).

(** The error classes of the specification. *)
Inductive error_class : Type :=
  | ValidationError
  | NotFoundError
  | ExternalInvocationFailure
  | Unexpected.

Definition class_of (e : exn) : error_class :=
  match e with
  | ValueError _ => ValidationError
  | KeyError _ => NotFoundError
  | RuntimeError _ => ExternalInvocationFailure
  | TypeError _ | OtherException _ => Unexpected
  end.

(** Argument bags and platforms used in the examples. *)
Definition bag (l : list (string * pyval)) : args := list_to_map l.

Definition exit_with (rc : Z) (out err : string) : platform :=
  {| run_open := fun _ => Exited {| returncode := rc; stdout := out; stderr := err |};
     signal_repr := fun _ => None |}.

(** What one optional parameter contributes to the query. *)
Definition opt_quoted (d : args) (key name : string) : list string :=
  match d !! key with
  | Some (PStr s) => [name +:+ "=" +:+ quote_from_bytes "/" s]
  | _ => []
  end.

Definition opt_lowered (d : args) (key name : string) : list string :=
  match d !! key with
  | Some v => [name +:+ "=" +:+ lower (py_str v)]
  | None => []
  end.

Definition opt_verbatim (d : args) (key name : string) : list string :=
  match d !! key with
  | Some v => [name +:+ "=" +:+ py_str v]
  | None => []
  end.

(** An open-agenda-note bag as the input schema types its string fields. *)
Definition open_note_well_formed (d : args) : bool :=
  forallb (str_optional d) ["title"; "identifier"; "project_title"].

Definition tool_well_formed (t : url_tool) : args -> bool :=
  match t with
  | CreateNote => create_note_well_formed
  | CreateProject => create_project_well_formed
  | OpenNote => open_note_well_formed
  end.

Definition tool_name (t : url_tool) : string :=
  match t with
  | CreateNote => "create-agenda-note"
  | CreateProject => "create-agenda-project"
  | OpenNote => "open-agenda-note"
  end.

(** A boolean field as the input schema types it. *)
Definition bool_optional (d : args) (key : string) : bool :=
  match d !! key with
  | Some (PBool _) => true
  | Some _ => false
  | None => true
  end.

(** [sort_order] as the input schema types it: one of the two enumerated
    words. *)
Definition enum_optional (d : args) (key : string) : bool :=
  match d !! key with
  | Some (PStr s) => String.eqb s "newest-first" || String.eqb s "oldest-first"
  | Some _ => false
  | None => true
  end.

(** A bag that conforms to the whole input schema of its tool. *)
Definition tool_schema_ok (t : url_tool) (d : args) : bool :=
  tool_well_formed t d
  && forallb (fun kn => bool_optional d kn.1) (bool_fields t)
  && forallb (fun kn => enum_optional d kn.1) (verbatim_fields t).

(** Reading a query back: cut it at every [sep]. *)
Fixpoint split_on (sep : ascii) (s : string) : list string :=
  match s with
  | EmptyString => [EmptyString]
  | String c r =>
      if Ascii.eqb c sep then EmptyString :: split_on sep r
      else
        match split_on sep r with
        | h :: t => String c h :: t
        | [] => [String c EmptyString]
        end
  end.

(** ** The catalogs: [handle_list_tools], [handle_list_prompts]

    An [inputSchema] is the JSON Schema object the tool declares: the
    typed properties and, when the schema has one, the list of required
    keys. *)

Inductive json_type : Type := JString | JBoolean.

Record SchemaProperty : Type := {
  prop_key : string;
  prop_type : json_type;
  prop_enum : option (list string);
}.

Record InputSchema : Type := {
  schema_properties : list SchemaProperty;
  schema_required : option (list string);
}.

Definition str_prop (key : string) : SchemaProperty :=
  {| prop_key := key; prop_type := JString; prop_enum := None |}.

Definition bool_prop (key : string) : SchemaProperty :=
  {| prop_key := key; prop_type := JBoolean; prop_enum := None |}.

Module Tool.
Record t : Type := {
  name : string;
  description : string;
  inputSchema : InputSchema;
}.
End Tool.

Module PromptArgument.
Record t : Type := {
  name : string;
  description : string;
  required : bool;
}.
End PromptArgument.

Module Prompt.
Record t : Type := {
  name : string;
  description : string;
  arguments : list PromptArgument.t;
}.
End Prompt.

Module Resource.
Record t : Type := {
  uri : AnyUrl;
  name : string;
  description : string;
  mimeType : string;
}.
End Resource.

Definition handle_list_prompts : list Prompt.t :=
  [ {| Prompt.name := "summarize-notes";
       Prompt.description := "Creates a summary of all notes";
       Prompt.arguments :=
         [ {| PromptArgument.name := "style";
              PromptArgument.description := "Style of the summary (brief/detailed)";
              PromptArgument.required := false |} ] |} ].

Definition handle_list_tools : list Tool.t :=
  [ {| Tool.name := "add-note";
       Tool.description := "Add a new note";
       Tool.inputSchema :=
         {| schema_properties := [str_prop "name"; str_prop "content"];
            schema_required := Some ["name"; "content"] |} |};
    {| Tool.name := "create-agenda-note";
       Tool.description := "Create a note in Agenda";
       Tool.inputSchema :=
         {| schema_properties :=
              [ str_prop "title"; str_prop "text"; str_prop "project_title";
                bool_prop "on_the_agenda"; str_prop "date"; str_prop "start_date";
                str_prop "end_date"; str_prop "template_name";
                str_prop "template_input"; bool_prop "collapsed";
                bool_prop "completed"; bool_prop "pinned"; bool_prop "footnote";
                bool_prop "select" ];
            schema_required := Some ["title"; "text"] |} |};
    {| Tool.name := "create-agenda-project";
       Tool.description := "Create a new project in Agenda";
       Tool.inputSchema :=
         {| schema_properties :=
              [ str_prop "title"; str_prop "category_title"; str_prop "identifier";
                bool_prop "select";
                {| prop_key := "sort_order"; prop_type := JString;
                   prop_enum := Some ["newest-first"; "oldest-first"] |} ];
            schema_required := Some ["title"] |} |};
    {| Tool.name := "open-agenda-note";
       Tool.description := "Open a note in Agenda";
       Tool.inputSchema :=
         {| schema_properties :=
              [ str_prop "title"; str_prop "identifier"; str_prop "project_title";
                bool_prop "separate_window" ];
            schema_required := None |} |} ].

(** ** [handle_list_resources]

    [AnyUrl(...)] is pydantic's validating constructor; what it accepts
    and how it splits the text is the library's business, so it is a
    parameter. *)

Fixpoint handle_list_resources (any_url : string -> res AnyUrl) (notes : store)
    : res (list Resource.t) :=
  match notes with
  | [] => Return []
  | (name, _) :: rest =>
      u ← any_url ("note://internal/" +:+ py_str name);
      let r :=
        {| Resource.uri := u;
           Resource.name := "Note: " +:+ py_str name;
           Resource.description := "A simple note named " +:+ py_str name;
           Resource.mimeType := "text/plain" |} in
      rs ← handle_list_resources any_url rest;
      mret (r :: rs)
  end.

(** ** Validation against an input schema

    What a JSON Schema validator checks for these schemas: every required
    key is there, and every declared property that is there has its
    declared type (and is one of the enumerated words, when the property
    has an [enum]).  Keys that the schema does not declare are allowed. *)

Definition value_conforms (p : SchemaProperty) (v : pyval) : bool :=
  match prop_type p, v with
  | JString, PStr s =>
      match prop_enum p with
      | Some words => existsb (String.eqb s) words
      | None => true
      end
  | JBoolean, PBool _ => true
  | _, _ => false
  end.

Definition property_conforms (d : args) (p : SchemaProperty) : bool :=
  match d !! prop_key p with
  | Some v => value_conforms p v
  | None => true
  end.

Definition conforms (s : InputSchema) (d : args) : bool :=
  forallb (has_key d) (default [] (schema_required s))
  && forallb (property_conforms d) (schema_properties s).

Definition find_tool (name : string) : option Tool.t :=
  List.find (fun t => String.eqb (Tool.name t) name) handle_list_tools.

(** The declared schema of a URL-building tool. *)
Definition tool_schema (t : url_tool) : option InputSchema :=
  Tool.inputSchema <$> find_tool (tool_name t).

(** ** A session: tool calls one after the other *)

Fixpoint run_calls (P : platform) (calls : list (string * option args))
    (notes : store) : store * list event :=
  match calls with
  | [] => (notes, [])
  | (name, arguments) :: rest =>
      let r := handle_call_tool P name arguments notes in
      let r' := run_calls P rest (store_after r) in
      (r'.1, trace_of r ++ r'.2)
  end.

(** The errors a URL builder can raise: a required key is missing, or a
    value that goes through [quote] is not a [str]. *)
Definition builder_error (d : args) (e : exn) : Prop :=
  (exists key, (key = "title" \/ key = "text")
               /\ d !! key = None /\ e = KeyError (PStr key))
  \/ e = TypeError "quote_from_bytes() expected bytes".

(** The texts that open a tool's result. *)
Definition tool_success_prefix (t : url_tool) : string :=
  match t with
  | CreateNote => "Created note '"
  | CreateProject => "Created project '"
  | OpenNote => "Opened note '"
  end.

Definition tool_failure_prefix (t : url_tool) : string :=
  match t with
  | CreateNote => "Failed to create note in Agenda: "
  | CreateProject => "Failed to create project in Agenda: "
  | OpenNote => "Failed to open note in Agenda: "
  end.

(** The subject a tool names in its confirmation. *)
Definition tool_subject (t : url_tool) (d : args) : pyval :=
  match t with
  | CreateNote | CreateProject => get_default d "title" PNone
  | OpenNote =>
      get_default d "title" (get_default d "identifier" (PStr "requested note"))
  end.

(** What open-agenda-note checks beyond the bag being non-empty. *)
Definition tool_gate (t : url_tool) (d : args) : bool :=
  match t with
  | OpenNote => has_key d "title" || has_key d "identifier"
  | _ => true
  end.

(** The optional parameters of the other two builders, argument key and
    query name, in the order the handler appends them. *)
Definition project_optional : list (string * string) :=
  [ ("category_title", "category-title"); ("identifier", "identifier");
    ("select", "select"); ("sort_order", "sort-order") ].

Definition open_note_fields : list (string * string) :=
  [ ("title", "title"); ("identifier", "identifier");
    ("project_title", "project-title"); ("separate_window", "separate-window") ].

(** Characters of a callback URL built from a schema-conforming bag. *)
Definition url_char (c : ascii) : bool :=
  always_safe c || str_mem c ":/?=&%".

(** [s] with every [%] written [%25]. *)
Fixpoint double_percent (s : string) : string :=
  match s with
  | EmptyString => EmptyString
  | String c r =>
      if Ascii.eqb c "%" then "%25" +:+ double_percent r
      else String c (double_percent r)
  end.

Fixpoint str_length (s : string) : nat :=
  match s with
  | EmptyString => 0%nat
  | String _ r => S (str_length r)
  end.

(** An [AnyUrl] constructor that does what the resource URIs need: it
    reads [note://internal/<name>] as scheme "note", host "internal" and
    path [/<name>], and rejects everything else. *)
Definition drop_prefix (pre s : string) : option string :=
  if String.prefix pre s then
    Some (String.substring (String.length pre) (String.length s - String.length pre) s)
  else None.

Definition simple_any_url (text : string) : res AnyUrl :=
  match drop_prefix "note://internal" text with
  | Some rest =>
      Return {| scheme := "note"; host := Some "internal";
                path := if String.eqb rest "" then None else Some rest |}
  | None => Raise (ValueError "Input should be a valid URL")
  end.

(** ** The demonstration script [xcallback-test.py] *)

Module XCallbackTest.

(** [XCallbackURLHandler.call_url]: the URL is encoded once more, with
    [quote(url, safe=':/?=&')], before it goes to [open]. *)
Definition call_url (P : platform) (url : string) : res string :=
  let encoded_url := quote_from_bytes ":/?=&" url in
  match run_open P encoded_url with
  | Exited result =>
      if returncode result =? 0 then Return (stdout result)
      else
        Raise (RuntimeError ("Failed to execute x-callback-url: "
                 +:+ CalledProcessError_str P ["open"; encoded_url]
                       (returncode result)))
  | SpawnFailed e => Raise e
  end.

(** What the script does to its terminal and to the system. *)
Inductive io : Type :=
  | Print (line : string)
  | Prompt (text : string)
  | Open (url : string).

Definition IO (A : Type) : Type := res A * list io.

(** [print(f"Testing URL: {url}"); response = handler.call_url(url);
    print(f"Response: {response}")] *)
Definition test_url (P : platform) (url : string) : IO unit :=
  match call_url P url with
  | Return response =>
      (Return tt,
       [Print ("Testing URL: " +:+ url);
        Open (quote_from_bytes ":/?=&" url);
        Print ("Response: " +:+ response)])
  | Raise e =>
      (Raise e,
       [Print ("Testing URL: " +:+ url); Open (quote_from_bytes ":/?=&" url)])
  end.

Definition test_things_url (P : platform) : IO unit :=
  test_url P "things:///add?title=Test%20Todo&notes=Created%20via%20x-callback".

Definition test_agenda_url (P : platform) : IO unit :=
  test_url P
    "agenda://x-callback-url/create-note?title=Foobar&text=Test%20Note&project-title=Illumio".

Definition menu : list io :=
  [ Print (nl +:+ "Choose a test:");
    Print "1. Test Things 3 integration";
    Print "2. Test Agenda integration";
    Print "3. Enter custom URL";
    Print "4. Exit";
    Prompt (nl +:+ "Enter your choice (1-4): ") ].

Definition EOFError : exn := OtherException "EOF when reading a line".

(** The [while True] loop over the lines typed at the terminal;
    [input()] raises [EOFError] when they run out. *)
Fixpoint loop (P : platform) (stdin : list string) : IO unit :=
  match stdin with
  | [] => (Raise EOFError, menu)
  | choice :: rest =>
      if String.eqb choice "1" then
        match test_things_url P with
        | (Return _, out) => let r := loop P rest in (r.1, menu ++ out ++ r.2)
        | (Raise e, out) => (Raise e, menu ++ out)
        end
      else if String.eqb choice "2" then
        match test_agenda_url P with
        | (Return _, out) => let r := loop P rest in (r.1, menu ++ out ++ r.2)
        | (Raise e, out) => (Raise e, menu ++ out)
        end
      else if String.eqb choice "3" then
        match rest with
        | [] => (Raise EOFError, menu ++ [Prompt "Enter x-callback URL to test: "])
        | custom_url :: rest' =>
            let shown :=
              match call_url P custom_url with
              | Return response => Print ("Response: " +:+ response)
              | Raise e => Print ("Error: " +:+ exn_str e)
              end in
            let r := loop P rest' in
            (r.1,
             menu ++ [Prompt "Enter x-callback URL to test: ";
                      Open (quote_from_bytes ":/?=&" custom_url); shown] ++ r.2)
        end
      else if String.eqb choice "4" then
        (Return tt, menu ++ [Print "Exiting..."])
      else
        let r := loop P rest in
        (r.1, menu ++ [Print "Invalid choice. Please try again."] ++ r.2)
  end.

(** [if __name__ == "__main__":] *)
Definition main (P : platform) (stdin : list string) : IO unit :=
  let r := loop P stdin in
  (r.1, Print "Testing x-callback-url functionality..." :: r.2).

End XCallbackTest.

(** What the note store looks like at any time: names and contents are
    truthy, and no two entries have the same dict key. *)
Definition store_ok (notes : store) : Prop :=
  Forall (fun kv => truthy kv.1 = true /\ truthy kv.2 = true) notes
  /\ NoDup (map (fun kv => key_of kv.1) notes).

(** How many change notifications a trace holds. *)
Definition notifications (tr : list event) : nat :=
  length (List.filter (fun ev => match ev with ResourceListChanged => true | _ => false end) tr).

(** [k] slashes in a row. *)
Fixpoint slashes (k : nat) : string :=
  match k with
  | O => EmptyString
  | S k' => String "/" (slashes k')
  end.

(** The text [handle_list_resources] hands to [AnyUrl] for a note. *)
Definition resource_uri_text (kv : pyval * pyval) : string :=
  "note://internal/" +:+ py_str kv.1.

(** How many URLs a script run handed to [open]. *)
Definition opens (out : list XCallbackTest.io) : nat :=
  length (List.filter
            (fun ev => match ev with XCallbackTest.Open _ => true | _ => false end) out).

(** The note listing as the specification words it, for notes whose name
    and content are strings: one line [- <name>: <content>] per note, the
    lines separated by a newline. *)
Fixpoint note_listing (snotes : list (string * string)) : string :=
  match snotes with
  | [] => EmptyString
  | [(n, c)] => "- " +:+ n +:+ ": " +:+ c
  | (n, c) :: rest =>
      "- " +:+ n +:+ ": " +:+ c +:+ String (ascii_of_nat 10) (note_listing rest)
  end.

(** A store of string notes. *)
Definition str_store (snotes : list (string * string)) : store :=
  map (fun nc => (PStr nc.1, PStr nc.2)) snotes.

(** The query of a URL, the text after the first [?], and its
    parameters, the pieces between the [&]. *)
Fixpoint query_of (url : string) : string :=
  match url with
  | EmptyString => EmptyString
  | String c r => if Ascii.eqb c "?" then r else query_of r
  end.

Definition query_params (url : string) : list string :=
  split_on "&" (query_of url).

(** * Properties *)

(** ** Worked examples *)

Example quote_A_B : quote (PStr "A B") = Return "A%20B".
Proof. reflexivity. Qed.

Example quote_reserved :
  quote (PStr "a&b=c/d?e#f") = Return "a%26b%3Dc/d%3Fe%23f".
Proof. reflexivity. Qed.

Example quote_not_str : quote (PBool true) = Raise (TypeError "quote_from_bytes() expected bytes").
Proof. reflexivity. Qed.

Example str_of_list_open :
  str_of_list ["open"; "agenda://x"] = "['open', 'agenda://x']".
Proof. reflexivity. Qed.

Example lower_True : lower (py_str (PBool true)) = "true".
Proof. reflexivity. Qed.

Example lstrip_slashes : lstrip "/" "//a/b" = "a/b".
Proof. reflexivity. Qed.

Example add_then_read :
  let r := handle_call_tool (exit_with 0 "" "") "add-note"
             (Some (bag [("name", PStr "foo"); ("content", PStr "bar")])) notes_init in
  handle_read_resource (store_after r)
    {| scheme := "note"; host := Some "internal"; path := Some "/foo" |}
  = Return (PStr "bar").
Proof. vm_compute. reflexivity. Qed.

(** ** The result monad *)

#[local] Arguments String.append !_ _ : simpl nomatch.

Lemma res_bind_Return {A B} (r : res A) (k : A -> res B) (b : B) :
  r ≫= k = Return b -> exists a, r = Return a /\ k a = Return b.
Proof. destruct r as [a|e]; simpl; [eauto | discriminate]. Qed.

Lemma res_bind_ok {A B} (r : res A) (k : A -> res B) (a : A) :
  r = Return a -> r ≫= k = k a.
Proof. intros ->. reflexivity. Qed.

Ltac res_inv H :=
  let a := fresh "a" in
  let Ha := fresh "Ha" in
  apply res_bind_Return in H; destruct H as (a & Ha & H).

(** ** Strings *)

Lemma append_nil_r (s : string) : s +:+ "" = s.
Proof. induction s as [|c s IH]; simpl; [reflexivity | now f_equal]. Qed.

Lemma append_assoc (a b c : string) : (a +:+ b) +:+ c = a +:+ b +:+ c.
Proof. induction a as [|x a IH]; simpl; [reflexivity | now f_equal]. Qed.

Lemma str_forall_app (p : ascii -> bool) (a b : string) :
  str_forall p (a +:+ b) = str_forall p a && str_forall p b.
Proof.
  induction a as [|c a IH]; simpl; [reflexivity|].
  rewrite IH. now rewrite andb_assoc.
Qed.

Lemma param_name_app (name value : string) :
  str_mem "=" name = false -> param_name (name +:+ "=" +:+ value) = name.
Proof.
  change ("=" +:+ value) with (String "="%char value).
  induction name as [|c name IH].
  - cbn [String.append param_name]. now rewrite Ascii.eqb_refl.
  - cbn [String.append param_name str_mem].
    rewrite (Ascii.eqb_sym "="%char c).
    destruct (Ascii.eqb c "="); [discriminate|].
    intros H. now rewrite IH.
Qed.

Lemma prefix_app (a b : string) : String.prefix a (a +:+ b) = true.
Proof.
  induction a as [|c a IH]; simpl; [now destruct b|].
  destruct (ascii_dec c c); [exact IH | congruence].
Qed.

Lemma contains_unfold (needle hay : string) :
  contains needle hay =
  String.prefix needle hay ||
  match hay with
  | EmptyString => false
  | String _ r => contains needle r
  end.
Proof. destruct hay; reflexivity. Qed.

Lemma contains_app (needle a b : string) :
  contains needle (a +:+ needle +:+ b) = true.
Proof.
  induction a as [|c a IH].
  - change ("" +:+ needle +:+ b) with (needle +:+ b).
    rewrite contains_unfold, prefix_app. reflexivity.
  - change (String c a +:+ needle +:+ b) with (String c (a +:+ needle +:+ b)).
    rewrite contains_unfold, IH. apply orb_true_r.
Qed.

Lemma contains_prefix (needle b : string) : contains needle (needle +:+ b) = true.
Proof. apply (contains_app needle "" b). Qed.

Lemma contains_suffix (needle a : string) : contains needle (a +:+ needle) = true.
Proof.
  replace (a +:+ needle) with (a +:+ needle +:+ "").
  - apply contains_app.
  - now rewrite append_nil_r.
Qed.

(** ** Argument bags *)

Lemma has_key_Some (d : args) (key : string) (v : pyval) :
  d !! key = Some v -> has_key d key = true.
Proof. intros H. unfold has_key. rewrite H. reflexivity. Qed.

Lemma has_key_None (d : args) (key : string) :
  d !! key = None -> has_key d key = false.
Proof. intros H. unfold has_key. rewrite H. reflexivity. Qed.

Lemma has_key_is_Some (d : args) (key : string) :
  has_key d key = true <-> is_Some (d !! key).
Proof. unfold has_key. apply bool_decide_eq_true. Qed.

Lemma str_required_inv (d : args) (key : string) :
  str_required d key = true -> exists s, d !! key = Some (PStr s).
Proof.
  unfold str_required. destruct (d !! key) as [[| | |s]|]; try discriminate.
  eauto.
Qed.

(** ** One step of the URL builders *)

Lemma append_quoted_step (d : args) (key name : string) (ps : list string) :
  str_optional d key = true ->
  append_quoted d key name ps = Return (ps ++ opt_quoted d key name).
Proof.
  unfold str_optional, append_quoted, opt_quoted, subscript.
  destruct (d !! key) as [v|] eqn:E.
  - rewrite (has_key_Some _ _ _ E). destruct v; try discriminate. reflexivity.
  - rewrite (has_key_None _ _ E), app_nil_r. reflexivity.
Qed.

Lemma append_lowered_step (d : args) (key name : string) (ps : list string) :
  append_lowered d key name ps = Return (ps ++ opt_lowered d key name).
Proof.
  unfold append_lowered, opt_lowered, subscript.
  destruct (d !! key) as [v|] eqn:E.
  - rewrite (has_key_Some _ _ _ E). reflexivity.
  - rewrite (has_key_None _ _ E), app_nil_r. reflexivity.
Qed.

Lemma append_verbatim_step (d : args) (key name : string) (ps : list string) :
  append_verbatim d key name ps = Return (ps ++ opt_verbatim d key name).
Proof.
  unfold append_verbatim, opt_verbatim, subscript.
  destruct (d !! key) as [v|] eqn:E.
  - rewrite (has_key_Some _ _ _ E). reflexivity.
  - rewrite (has_key_None _ _ E), app_nil_r. reflexivity.
Qed.

(** A step that goes through [quote] succeeds only on a [str]. *)
Lemma append_quoted_inv (d : args) (key name : string) (ps ps' : list string) :
  append_quoted d key name ps = Return ps' ->
  str_optional d key = true /\ ps' = ps ++ opt_quoted d key name.
Proof.
  intros H.
  assert (Hs : str_optional d key = true).
  { revert H. unfold append_quoted, str_optional, subscript.
    destruct (d !! key) as [v|] eqn:E; [|reflexivity].
    rewrite (has_key_Some _ _ _ E). destruct v; simpl; congruence. }
  split; [exact Hs|].
  rewrite (append_quoted_step _ _ _ _ Hs) in H. congruence.
Qed.

Lemma opt_quoted_names (d : args) (key name : string) :
  str_mem "=" name = false ->
  str_optional d key = true ->
  map param_name (opt_quoted d key name) = if has_key d key then [name] else [].
Proof.
  intros Hn. unfold opt_quoted, str_optional.
  destruct (d !! key) as [v|] eqn:E.
  - rewrite (has_key_Some _ _ _ E).
    destruct v; try discriminate. intros _.
    cbn [map]. now rewrite param_name_app.
  - now rewrite (has_key_None _ _ E).
Qed.

Lemma opt_lowered_names (d : args) (key name : string) :
  str_mem "=" name = false ->
  map param_name (opt_lowered d key name) = if has_key d key then [name] else [].
Proof.
  intros Hn. unfold opt_lowered.
  destruct (d !! key) as [v|] eqn:E.
  - rewrite (has_key_Some _ _ _ E). cbn [map]. now rewrite param_name_app.
  - now rewrite (has_key_None _ _ E).
Qed.

Lemma filter_cons_app {A} (f : A -> bool) (x : A) (l : list A) :
  List.filter f (x :: l) = (if f x then [x] else []) ++ List.filter f l.
Proof. simpl. now destruct (f x). Qed.

Lemma map_snd_if {A B} (b : bool) (x : A * B) :
  map snd (if b then [x] else []) = if b then [x.2] else [].
Proof. now destruct b. Qed.

Lemma in_names_filter (f : string * string -> bool) (tbl : list (string * string))
    (key name : string) :
  NoDup (map snd tbl) -> In (key, name) tbl ->
  In name (map snd (List.filter f tbl)) <-> f (key, name) = true.
Proof.
  induction tbl as [|[k n] tbl IH]; intros Hnd Hin; [destruct Hin|].
  apply NoDup_cons in Hnd as [Hn Hnd].
  destruct Hin as [Heq|Hin].
  - injection Heq as -> ->. simpl.
    destruct (f (key, name)) eqn:Ef; simpl.
    + split; [reflexivity | now left].
    + split; [|discriminate]. intros Hin.
      exfalso. apply Hn. apply list_elem_of_In.
      apply in_map_iff in Hin as ([k' n'] & Hn' & Hin).
      apply filter_In in Hin as [Hin _]. simpl in Hn'. subst n'.
      apply in_map_iff. exists (k', name). split; [reflexivity | exact Hin].
  - assert (Hne : n <> name).
    { intros ->. apply Hn. apply list_elem_of_In.
      apply in_map_iff. exists (key, name). split; [reflexivity | exact Hin]. }
    simpl. destruct (f (k, n)); simpl.
    + rewrite <- (IH Hnd Hin). split; [intros [?|?]; [congruence | assumption] | now right].
    + apply (IH Hnd Hin).
Qed.

Lemma note_optional_names_NoDup : NoDup (map snd note_optional).
Proof. apply NoDup_ListNoDup. repeat constructor; simpl; intuition discriminate. Qed.

(** ** create-agenda-note: the query *)

Lemma create_note_params_eq (d : args) :
  create_note_well_formed d = true ->
  exists t x,
    d !! "title" = Some (PStr t) /\ d !! "text" = Some (PStr x) /\
    create_note_params d =
      Return
        ((((((((((((["title=" +:+ quote_from_bytes "/" t;
                     "text=" +:+ quote_from_bytes "/" x]
          ++ opt_quoted d "project_title" "project-title")
          ++ opt_lowered d "on_the_agenda" "on-the-agenda")
          ++ opt_quoted d "date" "date")
          ++ opt_quoted d "start_date" "start-date")
          ++ opt_quoted d "end_date" "end-date")
          ++ opt_quoted d "template_name" "template-name")
          ++ opt_quoted d "template_input" "template-input")
          ++ opt_lowered d "collapsed" "collapsed")
          ++ opt_lowered d "completed" "completed")
          ++ opt_lowered d "pinned" "pinned")
          ++ opt_lowered d "footnote" "footnote")
          ++ opt_lowered d "select" "select").
Proof.
  unfold create_note_well_formed. cbn [forallb].
  rewrite !andb_true_iff.
  intros [[Ht Hx] (H1 & H2 & H3 & H4 & H5 & H6 & _)].
  apply str_required_inv in Ht as [t Ht], Hx as [x Hx].
  exists t, x. split; [exact Ht|]. split; [exact Hx|].
  unfold create_note_params, subscript. rewrite Ht, Hx.
  cbn [mbind res_bind quote app].
  rewrite (append_quoted_step _ _ _ _ H1). cbn [mbind res_bind].
  rewrite append_lowered_step. cbn [mbind res_bind].
  rewrite (append_quoted_step _ _ _ _ H2). cbn [mbind res_bind].
  rewrite (append_quoted_step _ _ _ _ H3). cbn [mbind res_bind].
  rewrite (append_quoted_step _ _ _ _ H4). cbn [mbind res_bind].
  rewrite (append_quoted_step _ _ _ _ H5). cbn [mbind res_bind].
  rewrite (append_quoted_step _ _ _ _ H6). cbn [mbind res_bind].
  rewrite !append_lowered_step. cbn [mbind res_bind].
  rewrite !append_lowered_step. cbn [mbind res_bind].
  rewrite !append_lowered_step. cbn [mbind res_bind].
  rewrite !append_lowered_step. cbn [mbind res_bind].
  rewrite !append_lowered_step. cbn [mbind res_bind].
  reflexivity.
Qed.

(** The parameters create-agenda-note appends, before they are joined:
    title and text first, then the optional parameters in the order of the
    tool's contract, each one appended exactly when its key is in the
    bag. *)
Lemma create_note_params_order (d : args) :
  create_note_well_formed d = true ->
  create_note_url (bag [("title", PStr "A B"); ("text", PStr "C")])
    = Return "agenda://x-callback-url/create-note?title=A%20B&text=C"
  /\ exists t x params,
      d !! "title" = Some (PStr t) /\ d !! "text" = Some (PStr x)
      /\ create_note_params d = Return params
      /\ create_note_url d
           = Return ("agenda://x-callback-url/create-note?" +:+ join "&" params)
      /\ firstn 2 params
           = ["title=" +:+ quote_from_bytes "/" t; "text=" +:+ quote_from_bytes "/" x]
      /\ map param_name params
           = "title" :: "text"
               :: map snd (List.filter (fun kn => has_key d kn.1) note_optional)
      /\ forall key name, In (key, name) note_optional ->
           (In name (map param_name params) <-> is_Some (d !! key)).
Proof.
  intros Hwf. split; [vm_compute; reflexivity|].
  destruct (create_note_params_eq d Hwf) as (t & x & Ht & Hx & Hp).
  assert (Hwf' := Hwf). unfold create_note_well_formed in Hwf'. cbn [forallb] in Hwf'.
  rewrite !andb_true_iff in Hwf'.
  destruct Hwf' as [_ (H1 & H2 & H3 & H4 & H5 & H6 & _)].
  eexists t, x, _. split; [exact Ht|]. split; [exact Hx|].
  split; [exact Hp|].
  split; [unfold create_note_url; rewrite Hp; reflexivity|].
  split; [rewrite <- !app_assoc; reflexivity|].
  assert (Hnames :
    map param_name
      ((((((((((((["title=" +:+ quote_from_bytes "/" t;
                   "text=" +:+ quote_from_bytes "/" x]
          ++ opt_quoted d "project_title" "project-title")
          ++ opt_lowered d "on_the_agenda" "on-the-agenda")
          ++ opt_quoted d "date" "date")
          ++ opt_quoted d "start_date" "start-date")
          ++ opt_quoted d "end_date" "end-date")
          ++ opt_quoted d "template_name" "template-name")
          ++ opt_quoted d "template_input" "template-input")
          ++ opt_lowered d "collapsed" "collapsed")
          ++ opt_lowered d "completed" "completed")
          ++ opt_lowered d "pinned" "pinned")
          ++ opt_lowered d "footnote" "footnote")
          ++ opt_lowered d "select" "select")
    = "title" :: "text"
        :: map snd (List.filter (fun kn => has_key d kn.1) note_optional)).
  { rewrite !map_app.
    rewrite !opt_quoted_names by (reflexivity || assumption).
    rewrite !opt_lowered_names by reflexivity.
    cbn [map].
    change (param_name ("title=" +:+ quote_from_bytes "/" t)) with "title".
    change (param_name ("text=" +:+ quote_from_bytes "/" x)) with "text".
    unfold note_optional.
    rewrite !filter_cons_app, !map_app, !map_snd_if. cbn [fst snd List.filter map].
    rewrite app_nil_r, <- !app_assoc. reflexivity. }
  split; [exact Hnames|].
  intros key name Hin. rewrite Hnames.
  rewrite <- has_key_is_Some.
  rewrite <- (in_names_filter (fun kn => has_key d kn.1) note_optional key name
                note_optional_names_NoDup Hin).
  split.
  - intros [E|[E|E]]; [| |exact E];
      exfalso; subst name; simpl in Hin;
      repeat (destruct Hin as [Hin|Hin]; [discriminate|]); exact Hin.
  - intros E. right. right. exact E.
Qed.

Lemma subscript_Return (d : args) (key : string) (v : pyval) :
  subscript d key = Return v -> d !! key = Some v.
Proof. unfold subscript. destruct (d !! key); congruence. Qed.

Lemma quote_Return (v : pyval) (q : string) :
  quote v = Return q -> exists s, v = PStr s /\ q = quote_from_bytes "/" s.
Proof. destruct v; simpl; try discriminate. intros [= <-]. eauto. Qed.

Lemma required_quoted_inv (d : args) (key : string) (v : pyval) (q : string) :
  subscript d key = Return v -> quote v = Return q -> str_required d key = true.
Proof.
  intros Hv Hq. apply subscript_Return in Hv.
  apply quote_Return in Hq as (s & -> & _).
  unfold str_required. now rewrite Hv.
Qed.

(** The builder accepts exactly the bags whose string fields are typed as
    the input schema says. *)
Lemma create_note_params_accepts (d : args) :
  create_note_well_formed d = true <-> exists params, create_note_params d = Return params.
Proof.
  split.
  - intros Hwf. destruct (create_note_params_eq d Hwf) as (t & x & _ & _ & Hp). eauto.
  - intros [params H]. unfold create_note_params in H.
    res_inv H. res_inv H. res_inv H. res_inv H.
    pose proof (required_quoted_inv _ _ _ _ Ha Ha0) as Ht.
    pose proof (required_quoted_inv _ _ _ _ Ha1 Ha2) as Hx.
    repeat (let H' := fresh "Hs" in
            apply res_bind_Return in H; destruct H as (? & H' & H)).
    apply append_quoted_inv in Hs as [H1 _].
    apply append_quoted_inv in Hs1 as [H2 _].
    apply append_quoted_inv in Hs2 as [H3 _].
    apply append_quoted_inv in Hs3 as [H4 _].
    apply append_quoted_inv in Hs4 as [H5 _].
    apply append_quoted_inv in Hs5 as [H6 _].
    unfold create_note_well_formed. cbn [forallb].
    rewrite Ht, Hx, H1, H2, H3, H4, H5, H6. reflexivity.
Qed.

(** ** The note store *)

Lemma py_eq_key (a b : pyval) : py_eq a b = true <-> key_of a = key_of b.
Proof.
  destruct a as [|[]|x|s], b as [|[]|y|t]; unfold py_eq, as_int, key_of;
    rewrite ?String.eqb_eq, ?Z.eqb_eq;
    split; intros H; try discriminate; try reflexivity; congruence.
Qed.

Lemma py_eq_refl (a : pyval) : py_eq a a = true.
Proof. now apply py_eq_key. Qed.

Lemma py_eq_sym (a b : pyval) : py_eq a b = py_eq b a.
Proof.
  destruct (py_eq a b) eqn:E, (py_eq b a) eqn:E'; try reflexivity.
  - apply py_eq_key in E. symmetry in E. apply py_eq_key in E. congruence.
  - apply py_eq_key in E'. symmetry in E'. apply py_eq_key in E'. congruence.
Qed.

Lemma py_eq_trans (a b c : pyval) :
  py_eq a b = true -> py_eq b c = true -> py_eq a c = true.
Proof. rewrite !py_eq_key. congruence. Qed.

Lemma py_eq_PStr (v : pyval) (s : string) : py_eq v (PStr s) = true <-> v = PStr s.
Proof.
  destruct v as [|[]|z|t]; simpl; split; try discriminate.
  - now intros ->%String.eqb_eq.
  - intros [= ->]. apply String.eqb_refl.
Qed.

Lemma dict_get_set_eq (k v : pyval) (d : store) :
  dict_get k (dict_set k v d) = Some v.
Proof.
  induction d as [|[k0 v0] d IH]; simpl.
  - now rewrite py_eq_refl.
  - destruct (py_eq k0 k) eqn:E; simpl; rewrite E; [reflexivity | exact IH].
Qed.

Lemma dict_get_set_ne (k k' v : pyval) (d : store) :
  py_eq k k' = false -> dict_get k' (dict_set k v d) = dict_get k' d.
Proof.
  intros Hne. induction d as [|[k0 v0] d IH]; simpl.
  - now rewrite Hne.
  - destruct (py_eq k0 k) eqn:E; simpl.
    + destruct (py_eq k0 k') eqn:E'; [|reflexivity].
      rewrite py_eq_sym in E.
      now rewrite (py_eq_trans _ _ _ E E') in Hne.
    + destruct (py_eq k0 k'); [reflexivity | exact IH].
Qed.

Lemma dict_set_length_new (k v : pyval) (d : store) :
  dict_get k d = None -> length (dict_set k v d) = S (length d).
Proof.
  induction d as [|[k0 v0] d IH]; simpl; [reflexivity|].
  destruct (py_eq k0 k); [discriminate|]. intros H. simpl. now rewrite IH.
Qed.

Lemma dict_set_length_old (k v : pyval) (d : store) :
  is_Some (dict_get k d) -> length (dict_set k v d) = length d.
Proof.
  induction d as [|[k0 v0] d IH]; simpl; [now intros [? ?]|].
  destruct (py_eq k0 k); [reflexivity|]. intros H. simpl. now rewrite IH.
Qed.

(** Overwriting keeps the keys and their order. *)
Lemma dict_set_keys_old (k v : pyval) (d : store) :
  is_Some (dict_get k d) -> map fst (dict_set k v d) = map fst d.
Proof.
  induction d as [|[k0 v0] d IH]; simpl; [now intros [? ?]|].
  destruct (py_eq k0 k); [reflexivity|]. intros H. simpl. now rewrite IH.
Qed.

(** ** add-note *)

Lemma truthy_name_nonempty (d : args) :
  truthy (note_name_of d) = true -> d <> ∅.
Proof.
  intros H ->. unfold note_name_of, get_default in H.
  rewrite lookup_empty in H. discriminate.
Qed.

Lemma add_note_valid_run (P : platform) (d : args) (notes : store) :
  add_note_valid d = true ->
  handle_call_tool P "add-note" (Some d) notes =
    (Return [text_block ("Added note '" +:+ py_str (note_name_of d)
                           +:+ "' with content: " +:+ py_str (content_of d))],
     dict_set (note_name_of d) (content_of d) notes,
     [ResourceListChanged]).
Proof.
  unfold add_note_valid. intros [Hn Hc]%andb_true_iff.
  unfold handle_call_tool. cbn [String.eqb Ascii.eqb Bool.eqb].
  unfold add_note, not_arguments.
  rewrite bool_decide_eq_false_2 by now apply truthy_name_nonempty.
  change (default ∅ (Some d)) with d. cbv zeta.
  fold (note_name_of d) (content_of d).
  rewrite Hn, Hc. reflexivity.
Qed.

Lemma add_note_invalid_run (P : platform) (d : args) (notes : store) :
  add_note_valid d = false ->
  exists msg,
    handle_call_tool P "add-note" (Some d) notes = (Raise (ValueError msg), notes, []).
Proof.
  unfold add_note_valid. intros H.
  unfold handle_call_tool. cbn [String.eqb Ascii.eqb Bool.eqb].
  unfold add_note, not_arguments. case_bool_decide; [eexists; reflexivity|].
  change (default ∅ (Some d)) with d. cbv zeta.
  fold (note_name_of d) (content_of d).
  rewrite <- negb_andb, H. eexists. reflexivity.
Qed.

Lemma add_note_None_run (P : platform) (notes : store) :
  handle_call_tool P "add-note" None notes
    = (Raise (ValueError "Missing arguments"), notes, []).
Proof. reflexivity. Qed.

(** A call succeeds exactly when it passes validation. *)
Lemma add_note_succeeds_iff (P : platform) (d : args) (notes : store) :
  (exists out, result_of (handle_call_tool P "add-note" (Some d) notes) = Return out)
  <-> add_note_valid d = true.
Proof.
  destruct (add_note_valid d) eqn:E.
  - rewrite (add_note_valid_run P d notes E). split; [reflexivity | eauto].
  - destruct (add_note_invalid_run P d notes E) as [msg ->].
    split; [intros [? ?]; discriminate | discriminate].
Qed.

Lemma keys_distinct_cons (k : pyval) (ks : list pyval) :
  keys_distinct (k :: ks) <->
  Forall (fun k' => py_eq k k' = false) ks /\ keys_distinct ks.
Proof. reflexivity. Qed.

Lemma run_add_notes_spec (P : platform) (calls : list args) :
  forall notes0 : store,
  Forall (fun d => add_note_valid d = true) calls ->
  keys_distinct (map note_name_of calls) ->
  (forall d, In d calls -> dict_get (note_name_of d) notes0 = None) ->
  length (run_add_notes P calls notes0) = (length notes0 + length calls)%nat
  /\ (forall d, In d calls ->
        dict_get (note_name_of d) (run_add_notes P calls notes0) = Some (content_of d))
  /\ (forall k, (forall d, In d calls -> py_eq (note_name_of d) k = false) ->
        dict_get k (run_add_notes P calls notes0) = dict_get k notes0).
Proof.
  induction calls as [|d rest IH]; intros notes0 Hv Hd Hfresh.
  - simpl. split; [lia|]. split; [intros d []|reflexivity].
  - apply Forall_cons in Hv as [Hvd Hv].
    cbn [map] in Hd. apply keys_distinct_cons in Hd as [Hdd Hd].
    cbn [run_add_notes]. rewrite (add_note_valid_run P d notes0 Hvd).
    unfold store_after. cbn [fst snd].
    set (notes1 := dict_set (note_name_of d) (content_of d) notes0).
    assert (Hrest : forall d', In d' rest ->
              py_eq (note_name_of d) (note_name_of d') = false).
    { intros d' Hin. rewrite Forall_forall in Hdd. apply Hdd.
      apply list_elem_of_In, in_map, Hin. }
    destruct (IH notes1 Hv Hd) as (Hlen & Hget & Hother).
    { intros d' Hin. unfold notes1.
      rewrite dict_get_set_ne by now apply Hrest.
      apply Hfresh. now right. }
    split; [|split].
    + rewrite Hlen. unfold notes1.
      rewrite dict_set_length_new by (apply Hfresh; now left).
      simpl. lia.
    + intros d' [<-|Hin]; [|now apply Hget].
      rewrite Hother.
      * apply dict_get_set_eq.
      * intros d' Hin. rewrite py_eq_sym. now apply Hrest.
    + intros k Hk. rewrite Hother by (intros d' Hin; apply Hk; now right).
      unfold notes1. apply dict_get_set_ne. apply Hk. now left.
Qed.

(** C2. After N successful add-note calls with pairwise distinct names,
    starting from the empty store, the store has exactly N entries and
    each name maps to the content given for it; a successful add-note call
    on a name that is already in the store replaces that name's content
    and leaves the number of entries unchanged. *)
Theorem add_note_store_entries (P : platform) (calls : list args) :
  Forall (fun d => forall notes, exists out,
            result_of (handle_call_tool P "add-note" (Some d) notes) = Return out)
         calls ->
  keys_distinct (map note_name_of calls) ->
  length (run_add_notes P calls notes_init) = length calls
  /\ (forall d, In d calls ->
        dict_get (note_name_of d) (run_add_notes P calls notes_init)
          = Some (content_of d))
  /\ (forall (notes : store) (d : args),
        (exists out,
           result_of (handle_call_tool P "add-note" (Some d) notes) = Return out) ->
        is_Some (dict_get (note_name_of d) notes) ->
        let notes' := store_after (handle_call_tool P "add-note" (Some d) notes) in
        length notes' = length notes
        /\ dict_get (note_name_of d) notes' = Some (content_of d)).
Proof.
  intros Hv Hd.
  assert (Hv' : Forall (fun d => add_note_valid d = true) calls).
  { eapply Forall_impl; [exact Hv|]. intros d H.
    apply (add_note_succeeds_iff P d notes_init), H. }
  destruct (run_add_notes_spec P calls notes_init Hv' Hd) as (Hlen & Hget & _).
  { reflexivity. }
  split; [exact Hlen|]. split; [exact Hget|].
  intros notes d Hok Hin.
  apply add_note_succeeds_iff in Hok.
  rewrite (add_note_valid_run P d notes Hok). unfold store_after. cbn [fst snd].
  split; [now apply dict_set_length_old | apply dict_get_set_eq].
Qed.

Lemma add_note_store_entries_witness :
  length (run_add_notes (exit_with 0 "" "")
            [bag [("name", PStr "foo"); ("content", PStr "bar")];
             bag [("name", PStr "baz"); ("content", PStr "qux")]] notes_init) = 2%nat.
Proof.
  refine (proj1 (add_note_store_entries (exit_with 0 "" "")
            [bag [("name", PStr "foo"); ("content", PStr "bar")];
             bag [("name", PStr "baz"); ("content", PStr "qux")]] _ _)).
  - repeat constructor; intros notes; eexists; vm_compute; reflexivity.
  - vm_compute. repeat constructor.
Defined.

(** ** The external invoker *)

(** C3 (as amended). When [open] exits with a non-zero status, [call_url]
    does not return a result: it raises [RuntimeError].  The message is
    "Failed to execute x-callback-url: " followed by the text of the
    [CalledProcessError], which names the command and the exit status and
    is the same whatever the command printed; with exit status 0 the
    captured standard output is returned. *)
Theorem call_url_failure_raises (P : platform) (url : string) (p : CompletedProcess) :
  run_open P url = Exited p ->
  (returncode p <> 0 ->
     call_url P url
       = Raise (RuntimeError ("Failed to execute x-callback-url: "
                  +:+ CalledProcessError_str P ["open"; url] (returncode p)))
     /\ (forall out, call_url P url <> Return out)
     /\ (forall (P' : platform) (p' : CompletedProcess),
           run_open P' url = Exited p' ->
           returncode p' = returncode p ->
           signal_repr P' = signal_repr P ->
           call_url P' url = call_url P url))
  /\ (returncode p = 0 -> call_url P url = Return (stdout p)).
Proof.
  intros Hrun. split.
  - intros Hrc.
    assert (E : call_url P url
       = Raise (RuntimeError ("Failed to execute x-callback-url: "
                  +:+ CalledProcessError_str P ["open"; url] (returncode p)))).
    { unfold call_url. rewrite Hrun.
      destruct (Z.eqb_spec (returncode p) 0); [contradiction | reflexivity]. }
    split; [exact E|]. split.
    + intros out. rewrite E. discriminate.
    + intros P' p' Hrun' Hrc' Hsig. rewrite E.
      unfold call_url. rewrite Hrun', Hrc'.
      destruct (Z.eqb_spec (returncode p) 0); [contradiction|].
      unfold CalledProcessError_str. rewrite Hsig. reflexivity.
  - intros Hrc. unfold call_url. rewrite Hrun, Hrc. reflexivity.
Qed.

Lemma call_url_failure_raises_witness :
  call_url (exit_with 2 "" "no handler") "agenda://x-callback-url/open-note?title=T"
  = Raise (RuntimeError
      "Failed to execute x-callback-url: Command '['open', 'agenda://x-callback-url/open-note?title=T']' returned non-zero exit status 2.").
Proof.
  refine (proj1 (proj1 (call_url_failure_raises (exit_with 2 "" "no handler")
            "agenda://x-callback-url/open-note?title=T"
            {| returncode := 2; stdout := ""; stderr := "no handler" |} _) _)).
  - reflexivity.
  - simpl. lia.
Defined.

(** The claim as the specification words it fails: with exit status 1 the
    invoker raises instead of returning a failed result, and the text
    that [open] wrote to its error stream is not in the message. *)
Lemma call_url_returns_no_result :
  call_url (exit_with 1 "" "LSOpenURLsWithRole failed")
      "agenda://x-callback-url/open-note?title=T"
    = Raise (RuntimeError
        "Failed to execute x-callback-url: Command '['open', 'agenda://x-callback-url/open-note?title=T']' returned non-zero exit status 1.")
  /\ ~ (exists out,
          call_url (exit_with 1 "" "LSOpenURLsWithRole failed")
            "agenda://x-callback-url/open-note?title=T" = Return out)
  /\ (forall msg,
        call_url (exit_with 1 "" "LSOpenURLsWithRole failed")
          "agenda://x-callback-url/open-note?title=T" = Raise (RuntimeError msg) ->
        contains "LSOpenURLsWithRole failed" msg = false).
Proof.
  split; [vm_compute; reflexivity|]. split.
  - intros [out H]. vm_compute in H. discriminate.
  - intros msg H. vm_compute in H. injection H as <-. vm_compute. reflexivity.
Qed.

(** ** read-resource *)

Lemma lstrip_slash_name (n : string) :
  starts_with_slash n = false -> lstrip "/" ("/" +:+ n) = n.
Proof.
  intros H. change ("/" +:+ n) with (String "/" n).
  cbn [lstrip str_mem]. rewrite Ascii.eqb_refl.
  destruct n as [|c n]; [reflexivity|].
  cbn [lstrip str_mem]. cbn [starts_with_slash] in H. now rewrite H.
Qed.

Lemma read_resource_note (notes : store) (h : option string) (p : string) :
  handle_read_resource notes {| scheme := "note"; host := h; path := Some p |}
  = store_subscript notes (PStr (lstrip "/" p)).
Proof. reflexivity. Qed.



(** A "note" URI without a path names no note at all. *)
Example read_resource_no_path :
  handle_read_resource [(PStr "foo", PStr "bar")]
    {| scheme := "note"; host := Some "internal"; path := None |}
  = Raise (ValueError "Note not found: None").
Proof. reflexivity. Qed.

(** C10 (as amended). read-resource never looks at the host: for every
    host and every name in the store that does not begin with "/", the
    URI with scheme "note", that host and path "/name" returns the
    content stored under the name; the key looked up is the path with all
    leading "/" removed. *)
Theorem read_resource_ignores_host (notes : store) (h : option string)
    (n : string) (v : pyval) :
  dict_get (PStr n) notes = Some v ->
  starts_with_slash n = false ->
  handle_read_resource notes
      {| scheme := "note"; host := h; path := Some ("/" +:+ n) |} = Return v
  /\ (forall (h' : option string) (p : string),
        handle_read_resource notes {| scheme := "note"; host := h'; path := Some p |}
        = store_subscript notes (PStr (lstrip "/" p)))
  /\ (forall (uri : AnyUrl) (h' : option string),
        handle_read_resource notes
          {| scheme := scheme uri; host := h'; path := path uri |}
        = handle_read_resource notes uri).
Proof.
  intros Hget Hn. split; [|split].
  - rewrite read_resource_note, (lstrip_slash_name n Hn).
    unfold store_subscript. now rewrite Hget.
  - intros h' p. apply read_resource_note.
  - intros uri h'. reflexivity.
Qed.

Lemma read_resource_ignores_host_witness :
  handle_read_resource [(PStr "foo", PStr "bar")]
    {| scheme := "note"; host := Some "elsewhere"; path := Some "/foo" |}
  = Return (PStr "bar").
Proof.
  refine (proj1 (read_resource_ignores_host [(PStr "foo", PStr "bar")]
            (Some "elsewhere") "foo" (PStr "bar") _ _)); reflexivity.
Defined.

(** A note whose name begins with "/" is stored by add-note but is not
    reachable through the path "/" followed by its name. *)
Lemma read_resource_slash_name_lost :
  let notes :=
    store_after (handle_call_tool (exit_with 0 "" "") "add-note"
                   (Some (bag [("name", PStr "/a"); ("content", PStr "x")]))
                   notes_init) in
  dict_get (PStr "/a") notes = Some (PStr "x")
  /\ handle_read_resource notes
       {| scheme := "note"; host := Some "internal"; path := Some ("/" +:+ "/a") |}
     = Raise (KeyError (PStr "a")).
Proof. vm_compute. split; reflexivity. Qed.

(** ** create-agenda-project and open-agenda-note: the query *)

Lemma create_project_params_eq (d : args) :
  create_project_well_formed d = true ->
  exists t,
    d !! "title" = Some (PStr t) /\
    create_project_params d =
      Return
        ((((["title=" +:+ quote_from_bytes "/" t]
          ++ opt_quoted d "category_title" "category-title")
          ++ opt_quoted d "identifier" "identifier")
          ++ opt_lowered d "select" "select")
          ++ opt_verbatim d "sort_order" "sort-order").
Proof.
  unfold create_project_well_formed. cbn [forallb].
  rewrite !andb_true_iff.
  intros [Ht (H1 & H2 & _)].
  apply str_required_inv in Ht as [t Ht].
  exists t. split; [exact Ht|].
  unfold create_project_params, subscript. rewrite Ht.
  cbn [mbind res_bind quote app].
  rewrite (append_quoted_step _ _ _ _ H1). cbn [mbind res_bind].
  rewrite (append_quoted_step _ _ _ _ H2). cbn [mbind res_bind].
  rewrite append_lowered_step. cbn [mbind res_bind].
  rewrite append_verbatim_step. cbn [mbind res_bind].
  reflexivity.
Qed.

Lemma create_project_params_accepts (d : args) :
  create_project_well_formed d = true
  <-> exists params, create_project_params d = Return params.
Proof.
  split.
  - intros Hwf. destruct (create_project_params_eq d Hwf) as (t & _ & Hp). eauto.
  - intros [params H]. unfold create_project_params in H.
    res_inv H. res_inv H.
    pose proof (required_quoted_inv _ _ _ _ Ha Ha0) as Ht.
    repeat (let H' := fresh "Hs" in
            apply res_bind_Return in H; destruct H as (? & H' & H)).
    apply append_quoted_inv in Hs as [H1 _].
    apply append_quoted_inv in Hs0 as [H2 _].
    unfold create_project_well_formed. cbn [forallb].
    rewrite Ht, H1, H2. reflexivity.
Qed.

Lemma open_note_params_eq (d : args) :
  open_note_well_formed d = true ->
  open_note_params d =
    Return
      ((((opt_quoted d "title" "title")
        ++ opt_quoted d "identifier" "identifier")
        ++ opt_quoted d "project_title" "project-title")
        ++ opt_lowered d "separate_window" "separate-window").
Proof.
  unfold open_note_well_formed. cbn [forallb].
  rewrite !andb_true_iff.
  intros (H1 & H2 & H3 & _).
  unfold open_note_params.
  rewrite (append_quoted_step _ _ _ _ H1). cbn [mbind res_bind].
  rewrite (append_quoted_step _ _ _ _ H2). cbn [mbind res_bind].
  rewrite (append_quoted_step _ _ _ _ H3). cbn [mbind res_bind].
  rewrite append_lowered_step. cbn [mbind res_bind].
  reflexivity.
Qed.

Lemma open_note_params_accepts (d : args) :
  open_note_well_formed d = true <-> exists params, open_note_params d = Return params.
Proof.
  split.
  - intros Hwf. rewrite (open_note_params_eq d Hwf). eauto.
  - intros [params H]. unfold open_note_params in H.
    repeat (let H' := fresh "Hs" in
            apply res_bind_Return in H; destruct H as (? & H' & H)).
    apply append_quoted_inv in Hs as [H1 _].
    apply append_quoted_inv in Hs0 as [H2 _].
    apply append_quoted_inv in Hs1 as [H3 _].
    unfold open_note_well_formed. cbn [forallb].
    rewrite H1, H2, H3. reflexivity.
Qed.

Lemma tool_params_accepts (t : url_tool) (d : args) :
  tool_well_formed t d = true <-> exists params, tool_params t d = Return params.
Proof.
  destruct t; [apply create_note_params_accepts
              | apply create_project_params_accepts
              | apply open_note_params_accepts].
Qed.

Lemma tool_url_eq (t : url_tool) (d : args) (params : list string) :
  tool_params t d = Return params ->
  tool_url t d = Return (tool_base t +:+ "?" +:+ join "&" params).
Proof.
  destruct t; simpl; intros H;
    [unfold create_note_url | unfold create_project_url | unfold open_note_url];
    rewrite H; reflexivity.
Qed.

(** ** Tool calls that reach the external invoker *)

Lemma str_required_nonempty (d : args) (key : string) :
  str_required d key = true -> d <> ∅.
Proof.
  intros H ->. unfold str_required in H. rewrite lookup_empty in H. discriminate.
Qed.

Lemma create_agenda_project_run (P : platform) (d : args) (notes : store) (url : string) :
  d <> ∅ ->
  create_project_url d = Return url ->
  handle_call_tool P "create-agenda-project" (Some d) notes =
    (Return
       match (_ ← call_url P url;
              title ← subscript d "title";
              mret [text_block ("Created project '" +:+ py_str title +:+ "' in Agenda")]) with
       | Return out => out
       | Raise e => [text_block ("Failed to create project in Agenda: " +:+ exn_str e)]
       end,
     notes, [RunOpen url]).
Proof.
  intros Hne Hurl.
  unfold handle_call_tool. cbn [String.eqb Ascii.eqb Bool.eqb].
  unfold create_agenda_project, not_arguments.
  rewrite bool_decide_eq_false_2 by exact Hne.
  change (default ∅ (Some d)) with d. cbv zeta.
  rewrite Hurl. unfold mbind at 1 2. unfold M_bind, lift, try_call_url. cbn [app].
  destruct (call_url P url) as [out|e]; [|reflexivity].
  cbn [mbind res_bind]. destruct (subscript d "title"); reflexivity.
Qed.

(** C5. For a well-formed create-agenda-project call on which the external
    invoker fails with error [e], call-tool returns (it does not raise) one
    text block.  Its text is "Failed to create project in Agenda: "
    followed by the text of [e]: the message of the [RuntimeError] that
    [call_url] raised, which for a non-zero exit of [open] is "Failed to
    execute x-callback-url: " and the description of the failed command.
    The store is unchanged. *)
Theorem create_project_failure_is_text (P : platform) (d : args) (notes : store)
    (e : exn) :
  create_project_well_formed d = true ->
  (forall url, create_project_url d = Return url -> call_url P url = Raise e) ->
  exists url block,
    create_project_url d = Return url
    /\ handle_call_tool P "create-agenda-project" (Some d) notes
         = (Return [block], notes, [RunOpen url])
    /\ tc_type block = "text"
    /\ tc_text block = "Failed to create project in Agenda: " +:+ exn_str e
    /\ contains "Failed to create project in Agenda" (tc_text block) = true
    /\ contains (exn_str e) (tc_text block) = true
    /\ (forall msg, e = RuntimeError msg ->
          tc_text block = "Failed to create project in Agenda: " +:+ msg
          /\ contains msg (tc_text block) = true)
    /\ (forall p, run_open P url = Exited p ->
          tc_text block
          = "Failed to create project in Agenda: "
            +:+ "Failed to execute x-callback-url: "
            +:+ CalledProcessError_str P ["open"; url] (returncode p)).
Proof.
  intros Hwf Hfail.
  destruct (create_project_params_eq d Hwf) as (t & Ht & Hp).
  pose proof (tool_url_eq CreateProject d _ Hp) as Hurl. cbn [tool_url tool_base] in Hurl.
  eexists _, _. split; [exact Hurl|].
  assert (Hne : d <> ∅).
  { apply (str_required_nonempty d "title"). unfold str_required. now rewrite Ht. }
  rewrite (create_agenda_project_run P d notes _ Hne Hurl).
  pose proof (Hfail _ Hurl) as He. rewrite He.
  split; [reflexivity|]. split; [reflexivity|]. split; [reflexivity|].
  cbn [tc_text text_block].
  split.
  { change ("Failed to create project in Agenda: " +:+ exn_str e)
      with ("Failed to create project in Agenda" +:+ ": " +:+ exn_str e).
    apply contains_prefix. }
  split; [apply contains_suffix|]. split.
  - intros msg ->. cbn [exn_str]. split; [reflexivity | apply contains_suffix].
  - intros p Hrun. unfold call_url in He. rewrite Hrun in He.
    destruct (returncode p =? 0); [discriminate|].
    injection He as <-. reflexivity.
Qed.

Lemma create_project_failure_is_text_witness :
  handle_call_tool (exit_with 1 "" "boom") "create-agenda-project"
      (Some (bag [("title", PStr "Q3 plan")])) notes_init
  = (Return
       [ {| tc_type := "text";
            tc_text := "Failed to create project in Agenda: Failed to execute x-callback-url: Command '['open', 'agenda://x-callback-url/create-project?title=Q3%20plan']' returned non-zero exit status 1." |} ],
     notes_init,
     [RunOpen "agenda://x-callback-url/create-project?title=Q3%20plan"]).
Proof.
  destruct (create_project_failure_is_text (exit_with 1 "" "boom")
              (bag [("title", PStr "Q3 plan")]) notes_init
              (RuntimeError "Failed to execute x-callback-url: Command '['open', 'agenda://x-callback-url/create-project?title=Q3%20plan']' returned non-zero exit status 1."))
    as (url & [ty tx] & Hurl & Hrun & Hty & _ & _ & _ & Hmsg & _).
  - vm_compute. reflexivity.
  - intros url H. vm_compute in H. injection H as <-. vm_compute. reflexivity.
  - destruct (Hmsg _ eq_refl) as [Htx _]. cbn [tc_type tc_text] in Hty, Htx.
    vm_compute in Hurl. injection Hurl as <-.
    rewrite Hrun, Hty, Htx. vm_compute. reflexivity.
Defined.

(** C6. An open-agenda-note call whose bag has neither "title" nor
    "identifier" fails with a validation error ([ValueError]); the store
    is untouched and nothing is opened, whatever else the bag holds (also
    values from which no URL could be built) and whatever the platform
    would do. *)
Theorem open_note_requires_title_or_identifier (P : platform)
    (arguments : option args) (notes : store) :
  (forall d, arguments = Some d -> d !! "title" = None /\ d !! "identifier" = None) ->
  exists msg,
    handle_call_tool P "open-agenda-note" arguments notes
      = (Raise (ValueError msg), notes, [])
    /\ class_of (ValueError msg) = ValidationError
    /\ msg = (if not_arguments arguments then "Missing arguments"
              else "Either title or identifier must be provided").
Proof.
  intros H.
  unfold handle_call_tool. cbn [String.eqb Ascii.eqb Bool.eqb].
  unfold open_agenda_note.
  destruct (not_arguments arguments) eqn:E; [eexists; repeat split|].
  destruct arguments as [d|]; [|discriminate].
  destruct (H d eq_refl) as [Ht Hi].
  change (default ∅ (Some d)) with d. cbv zeta. cbn [existsb].
  rewrite (has_key_None _ _ Ht), (has_key_None _ _ Hi). cbn [orb negb].
  eexists. repeat split.
Qed.

Lemma open_note_requires_title_or_identifier_witness :
  exists msg,
    handle_call_tool (exit_with 0 "" "") "open-agenda-note"
        (Some (bag [("project_title", PInt 3); ("separate_window", PBool true)]))
        notes_init
      = (Raise (ValueError msg), notes_init, []).
Proof.
  destruct (open_note_requires_title_or_identifier (exit_with 0 "" "")
              (Some (bag [("project_title", PInt 3); ("separate_window", PBool true)]))
              notes_init) as (msg & Hrun & _).
  - intros d [= <-]. vm_compute. split; reflexivity.
  - exists msg. exact Hrun.
Defined.

(** ** add-note: validation failures *)

Lemma missing_or_empty_falsy (d : args) (key : string) :
  missing_or_empty d key -> truthy (get_default d key PNone) = false.
Proof. unfold get_default. intros [-> | ->]; reflexivity. Qed.

Lemma add_note_invalid_not_valid (d : args) :
  d = ∅ \/ missing_or_empty d "name" \/ missing_or_empty d "content" ->
  add_note_valid d = false.
Proof.
  unfold add_note_valid, note_name_of, content_of.
  intros [-> | [H | H]].
  - reflexivity.
  - now rewrite (missing_or_empty_falsy _ _ H).
  - rewrite (missing_or_empty_falsy _ _ H). apply andb_false_r.
Qed.

(** C9. An add-note call that fails validation (no bag, an empty bag, a
    missing or empty name, a missing or empty content) raises a
    validation error, leaves the note store as it was and sends no
    resource-list-changed notification; the store changes and the
    notification is sent only when the call returns. *)
Theorem add_note_failure_no_effect (P : platform) (arguments : option args)
    (notes : store) :
  (add_note_invalid arguments ->
     exists msg,
       handle_call_tool P "add-note" arguments notes
         = (Raise (ValueError msg), notes, []))
  /\ (forall e,
        result_of (handle_call_tool P "add-note" arguments notes) = Raise e ->
        store_after (handle_call_tool P "add-note" arguments notes) = notes
        /\ trace_of (handle_call_tool P "add-note" arguments notes) = [])
  /\ (In ResourceListChanged (trace_of (handle_call_tool P "add-note" arguments notes))
      \/ store_after (handle_call_tool P "add-note" arguments notes) <> notes ->
      exists out,
        result_of (handle_call_tool P "add-note" arguments notes) = Return out).
Proof.
  assert (Hcases :
    (exists msg, handle_call_tool P "add-note" arguments notes
                   = (Raise (ValueError msg), notes, []))
    \/ (exists d, arguments = Some d /\ add_note_valid d = true)).
  { destruct arguments as [d|]; [|left; eexists; reflexivity].
    destruct (add_note_valid d) eqn:E; [right; eauto|].
    left. apply add_note_invalid_run, E. }
  split; [|split].
  - intros [-> | (d & -> & Hd)]; [eexists; reflexivity|].
    apply add_note_invalid_run, add_note_invalid_not_valid, Hd.
  - intros e He. destruct Hcases as [[msg ->] | (d & -> & Hv)]; [split; reflexivity|].
    rewrite (add_note_valid_run P d notes Hv) in He. discriminate.
  - intros H. destruct Hcases as [[msg E] | (d & -> & Hv)].
    + rewrite E in H. unfold trace_of, store_after in H. cbn [fst snd] in H.
      destruct H as [[] | H]. now contradiction H.
    + rewrite (add_note_valid_run P d notes Hv). unfold result_of. cbn [fst]. eauto.
Qed.

Lemma add_note_failure_no_effect_witness :
  exists msg,
    handle_call_tool (exit_with 0 "" "") "add-note"
        (Some (bag [("name", PStr ""); ("content", PStr "body")]))
        [(PStr "kept", PStr "as is")]
      = (Raise (ValueError msg), [(PStr "kept", PStr "as is")], []).
Proof.
  refine (proj1 (add_note_failure_no_effect (exit_with 0 "" "")
            (Some (bag [("name", PStr ""); ("content", PStr "body")]))
            [(PStr "kept", PStr "as is")]) _).
  right. eexists. split; [reflexivity|].
  right. left. right. vm_compute. reflexivity.
Defined.

(** ** get-prompt *)

Lemma style_is_detailed (arguments : option args) :
  py_eq (get_default (if not_arguments arguments then ∅ else default ∅ arguments)
           "style" (PStr "brief"))
        (PStr "detailed")
  = style_detailed arguments.
Proof.
  unfold style_detailed, get_default.
  destruct arguments as [d|]; cbn [not_arguments mbind option_bind].
  - case_bool_decide as Hd.
    + subst d. rewrite !lookup_empty. reflexivity.
    + change (default ∅ (Some d)) with d.
      destruct (d !! "style") as [v|] eqn:E; cbn [from_option id].
      * destruct (py_eq v (PStr "detailed")) eqn:Ev.
        -- apply py_eq_PStr in Ev as ->. now rewrite bool_decide_eq_true_2.
        -- rewrite bool_decide_eq_false_2; [reflexivity|].
           intros [= ->]. now rewrite py_eq_refl in Ev.
      * reflexivity.
  - rewrite lookup_empty. reflexivity.
Qed.

Lemma join_note_listing (snotes : list (string * string)) :
  join nl (map note_line (str_store snotes)) = note_listing snotes.
Proof.
  induction snotes as [|[n c] [|[n' c'] rest] IH]; [reflexivity | reflexivity |].
  change (join nl (map note_line (str_store ((n, c) :: (n', c') :: rest))))
    with (note_line (PStr n, PStr c) +:+ nl
            +:+ join nl (map note_line (str_store ((n', c') :: rest)))).
  rewrite IH. unfold note_line. cbn [fst snd py_str].
  change (note_listing ((n, c) :: (n', c') :: rest))
    with ("- " +:+ n +:+ ": " +:+ c
            +:+ String (ascii_of_nat 10) (note_listing ((n', c') :: rest))).
  rewrite !append_assoc. reflexivity.
Qed.

(** C8. get-prompt fails for every name other than "summarize-notes".
    For "summarize-notes" it returns one user-role message, a text block:
    the header, then " Give extensive details." exactly when the style
    argument equals "detailed", then a blank line, then one line
    "- name: content" per stored note, joined by newlines, in the order
    of the store. *)
Theorem get_prompt_text (notes : store) (name : string) (arguments : option args) :
  (name <> "summarize-notes" ->
     handle_get_prompt notes name arguments
       = Raise (ValueError ("Unknown prompt: " +:+ name)))
  /\ (exists block,
        handle_get_prompt notes "summarize-notes" arguments
          = Return {| description := "Summarize the current notes";
                      messages := [ {| role := "user"; content := block |} ] |}
        /\ tc_type block = "text"
        /\ tc_text block
           = "Here are the current notes to summarize:"
             +:+ (if style_detailed arguments then " Give extensive details." else "")
             +:+ nl +:+ nl
             +:+ join nl
                   (map (fun kv => "- " +:+ py_str kv.1 +:+ ": " +:+ py_str kv.2) notes)
        /\ (forall snotes, notes = str_store snotes ->
              tc_text block
              = "Here are the current notes to summarize:"
                +:+ (if style_detailed arguments then " Give extensive details." else "")
                +:+ String (ascii_of_nat 10) (String (ascii_of_nat 10) EmptyString)
                +:+ note_listing snotes)
        /\ (style_detailed arguments = true
            <-> exists d, arguments = Some d /\ d !! "style" = Some (PStr "detailed"))).
Proof.
  split.
  - intros Hn. unfold handle_get_prompt.
    destruct (String.eqb_spec name "summarize-notes"); [contradiction | reflexivity].
  - eexists. split.
    { unfold handle_get_prompt. cbn [String.eqb Ascii.eqb Bool.eqb negb].
      cbv zeta. rewrite style_is_detailed. reflexivity. }
    split; [reflexivity|]. split; [reflexivity|]. split.
    + intros snotes ->. cbn [tc_text text_block].
      fold note_line. rewrite join_note_listing. reflexivity.
    + unfold style_detailed. rewrite bool_decide_eq_true.
      destruct arguments as [d|]; cbn [mbind option_bind]; split.
      * intros H. eauto.
      * now intros (d' & [= <-] & H).
      * discriminate.
      * now intros (d' & [=] & _).
Qed.

Lemma get_prompt_text_witness :
  handle_get_prompt [(PStr "foo", PStr "bar")] "summarise" None
    = Raise (ValueError "Unknown prompt: summarise")
  /\ handle_get_prompt [(PStr "foo", PStr "bar"); (PStr "a", PStr "b")] "summarize-notes"
       (Some (bag [("style", PStr "detailed")]))
     = Return
         {| description := "Summarize the current notes";
            messages :=
              [ {| role := "user";
                   content :=
                     {| tc_type := "text";
                        tc_text := "Here are the current notes to summarize: Give extensive details.

- foo: bar
- a: b" |} |} ] |}
  /\ handle_get_prompt [(PStr "foo", PStr "bar")] "summarize-notes" None
     = Return
         {| description := "Summarize the current notes";
            messages :=
              [ {| role := "user";
                   content :=
                     {| tc_type := "text";
                        tc_text := "Here are the current notes to summarize:

- foo: bar" |} |} ] |}.
Proof.
  split; [|split].
  - refine (proj1 (get_prompt_text [(PStr "foo", PStr "bar")] "summarise" None) _).
    discriminate.
  - destruct (proj2 (get_prompt_text [(PStr "foo", PStr "bar"); (PStr "a", PStr "b")]
                       "summarize-notes" (Some (bag [("style", PStr "detailed")]))))
      as ([ty tx] & Hrun & Hty & _ & Hspec & _).
    rewrite Hrun. cbn [tc_type tc_text] in Hty, Hspec.
    rewrite Hty, (Hspec [("foo", "bar"); ("a", "b")] eq_refl).
    vm_compute. reflexivity.
  - destruct (proj2 (get_prompt_text [(PStr "foo", PStr "bar")] "summarize-notes" None))
      as ([ty tx] & Hrun & Hty & _ & Hspec & _).
    rewrite Hrun. cbn [tc_type tc_text] in Hty, Hspec.
    rewrite Hty, (Hspec [("foo", "bar")] eq_refl).
    vm_compute. reflexivity.
Defined.

Example get_prompt_detailed :
  handle_get_prompt [(PStr "foo", PStr "bar"); (PStr "a", PStr "b")] "summarize-notes"
    (Some (bag [("style", PStr "detailed")]))
  = Return
      {| description := "Summarize the current notes";
         messages :=
           [ {| role := "user";
                content :=
                  text_block
                    ("Here are the current notes to summarize: Give extensive details."
                       +:+ nl +:+ nl +:+ "- foo: bar" +:+ nl +:+ "- a: b") |} ] |}.
Proof. vm_compute. reflexivity. Qed.

(** ** Percent-encoding *)

Lemma quote_byte_chars (c : ascii) : str_forall quoted_char (quote_byte "/" c) = true.
Proof. destruct c as [[] [] [] [] [] [] [] []]; vm_compute; reflexivity. Qed.

Lemma quoted_char_not_reserved (c : ascii) :
  quoted_char c = true -> negb (reserved c) || Ascii.eqb c "/" = true.
Proof. destruct c as [[] [] [] [] [] [] [] []]; vm_compute; intros H; congruence. Qed.

Lemma str_forall_impl (p q : ascii -> bool) (s : string) :
  (forall c, p c = true -> q c = true) ->
  str_forall p s = true -> str_forall q s = true.
Proof.
  intros Hpq. induction s as [|c s IH]; [reflexivity|].
  cbn [str_forall]. rewrite !andb_true_iff. intros [Hc Hs]. auto.
Qed.

Lemma quote_chars (s : string) :
  str_forall quoted_char (quote_from_bytes "/" s) = true.
Proof.
  induction s as [|c s IH]; [reflexivity|].
  cbn [quote_from_bytes]. now rewrite str_forall_app, quote_byte_chars, IH.
Qed.

Lemma quote_escapes_reserved (s : string) :
  str_forall (fun c => negb (reserved c) || Ascii.eqb c "/")
    (quote_from_bytes "/" s) = true.
Proof.
  apply (str_forall_impl quoted_char); [apply quoted_char_not_reserved | apply quote_chars].
Qed.

Lemma unquote_quote_byte (c : ascii) (r : string) :
  unquote (quote_byte "/" c +:+ r) = String c (unquote r).
Proof. destruct c as [[] [] [] [] [] [] [] []]; reflexivity. Qed.

Lemma unquote_quote (s : string) : unquote (quote_from_bytes "/" s) = s.
Proof.
  induction s as [|c s IH]; [reflexivity|].
  cbn [quote_from_bytes]. now rewrite unquote_quote_byte, IH.
Qed.

(** ** Parameter values in the query *)

Lemma opt_quoted_In (d : args) (key name s : string) :
  d !! key = Some (PStr s) ->
  In (name +:+ "=" +:+ quote_from_bytes "/" s) (opt_quoted d key name).
Proof. intros H. unfold opt_quoted. rewrite H. now left. Qed.

Lemma opt_lowered_In (d : args) (key name : string) (v : pyval) :
  d !! key = Some v ->
  In (name +:+ "=" +:+ lower (py_str v)) (opt_lowered d key name).
Proof. intros H. unfold opt_lowered. rewrite H. now left. Qed.

Lemma opt_verbatim_In (d : args) (key name : string) (v : pyval) :
  d !! key = Some v ->
  In (name +:+ "=" +:+ py_str v) (opt_verbatim d key name).
Proof. intros H. unfold opt_verbatim. rewrite H. now left. Qed.

Lemma str_required_optional (d : args) (key : string) :
  str_required d key = true -> str_optional d key = true.
Proof. unfold str_required, str_optional. now destruct (d !! key). Qed.

Lemma str_optional_inv (d : args) (key : string) (v : pyval) :
  str_optional d key = true -> d !! key = Some v -> exists s, v = PStr s.
Proof.
  unfold str_optional. intros H E. rewrite E in H.
  destruct v; try discriminate. eauto.
Qed.

Lemma quoted_fields_typed (t : url_tool) (d : args) (key name : string) :
  tool_well_formed t d = true ->
  In (key, name) (quoted_fields t) -> str_optional d key = true.
Proof.
  destruct t; cbn [tool_well_formed quoted_fields];
    [unfold create_note_well_formed
    |unfold create_project_well_formed
    |unfold open_note_well_formed];
    cbn [forallb]; rewrite !andb_true_iff; intros Hwf Hin;
    cbn [In] in Hin;
    repeat (destruct Hin as [[= <- <-] | Hin];
            [first [tauto | apply str_required_optional; tauto]|]);
    destruct Hin.
Qed.

Ltac in_params :=
  first [ now left
        | right; now left
        | cbn [In]; rewrite ?in_app_iff; tauto ].

Lemma quoted_value_in_params (t : url_tool) (d : args) (params : list string)
    (key name s : string) :
  tool_params t d = Return params ->
  In (key, name) (quoted_fields t) ->
  d !! key = Some (PStr s) ->
  In (name +:+ "=" +:+ quote_from_bytes "/" s) params.
Proof.
  intros Hp Hin Hd.
  assert (Hwf : tool_well_formed t d = true) by (apply tool_params_accepts; eauto).
  pose proof (opt_quoted_In d key name s Hd) as Hq.
  destruct t; cbn [tool_well_formed tool_params quoted_fields] in *.
  - destruct (create_note_params_eq d Hwf) as (tt & x & Ht & Hx & E).
    rewrite E in Hp. injection Hp as <-.
    cbn [In] in Hin.
    destruct Hin as [[= <- <-] | Hin].
    { rewrite Ht in Hd. injection Hd as <-. in_params. }
    destruct Hin as [[= <- <-] | Hin].
    { rewrite Hx in Hd. injection Hd as <-. in_params. }
    repeat (destruct Hin as [[= <- <-] | Hin]; [in_params|]).
    destruct Hin.
  - destruct (create_project_params_eq d Hwf) as (tt & Ht & E).
    rewrite E in Hp. injection Hp as <-.
    cbn [In] in Hin.
    destruct Hin as [[= <- <-] | Hin].
    { rewrite Ht in Hd. injection Hd as <-. in_params. }
    repeat (destruct Hin as [[= <- <-] | Hin]; [in_params|]).
    destruct Hin.
  - rewrite (open_note_params_eq d Hwf) in Hp. injection Hp as <-.
    cbn [In] in Hin.
    repeat (destruct Hin as [[= <- <-] | Hin]; [in_params|]).
    destruct Hin.
Qed.

Lemma lowered_value_in_params (t : url_tool) (d : args) (params : list string)
    (key name : string) (v : pyval) :
  tool_params t d = Return params ->
  In (key, name) (bool_fields t) ->
  d !! key = Some v ->
  In (name +:+ "=" +:+ lower (py_str v)) params.
Proof.
  intros Hp Hin Hd.
  assert (Hwf : tool_well_formed t d = true) by (apply tool_params_accepts; eauto).
  pose proof (opt_lowered_In d key name v Hd) as Hq.
  destruct t; cbn [tool_well_formed tool_params bool_fields] in *.
  - destruct (create_note_params_eq d Hwf) as (tt & x & Ht & Hx & E).
    rewrite E in Hp. injection Hp as <-.
    cbn [In] in Hin.
    repeat (destruct Hin as [[= <- <-] | Hin]; [in_params|]).
    destruct Hin.
  - destruct (create_project_params_eq d Hwf) as (tt & Ht & E).
    rewrite E in Hp. injection Hp as <-.
    cbn [In] in Hin.
    repeat (destruct Hin as [[= <- <-] | Hin]; [in_params|]).
    destruct Hin.
  - rewrite (open_note_params_eq d Hwf) in Hp. injection Hp as <-.
    cbn [In] in Hin.
    repeat (destruct Hin as [[= <- <-] | Hin]; [in_params|]).
    destruct Hin.
Qed.

Lemma verbatim_value_in_params (t : url_tool) (d : args) (params : list string)
    (key name : string) (v : pyval) :
  tool_params t d = Return params ->
  In (key, name) (verbatim_fields t) ->
  d !! key = Some v ->
  In (name +:+ "=" +:+ py_str v) params.
Proof.
  intros Hp Hin Hd.
  assert (Hwf : tool_well_formed t d = true) by (apply tool_params_accepts; eauto).
  pose proof (opt_verbatim_In d key name v Hd) as Hq.
  destruct t; cbn [tool_well_formed tool_params verbatim_fields] in *;
    try (now destruct Hin).
  destruct (create_project_params_eq d Hwf) as (tt & Ht & E).
  rewrite E in Hp. injection Hp as <-.
  cbn [In] in Hin.
  destruct Hin as [[= <- <-] | []]. in_params.
Qed.

(** The URL a tool call hands to [open] is the one its builder made. *)
Lemma tool_call_opens (P : platform) (t : url_tool) (d : args) (notes : store)
    (url : string) :
  In (RunOpen url) (trace_of (handle_call_tool P (tool_name t) (Some d) notes)) ->
  tool_url t d = Return url.
Proof.
  destruct t; cbn [tool_name tool_url]; unfold handle_call_tool;
    cbn [String.eqb Ascii.eqb Bool.eqb];
    [unfold create_agenda_note | unfold create_agenda_project | unfold open_agenda_note];
    (destruct (not_arguments (Some d)); [intros []|]);
    change (default ∅ (Some d)) with d; cbv zeta.
  - destruct (create_note_url d) as [u|e]; [|intros []].
    unfold mbind at 1 2. unfold M_bind, lift, try_call_url, trace_of. cbn [app fst snd].
    destruct (call_url P u); cbn [mbind res_bind];
      [destruct (subscript d "title")|];
      cbn [mbind res_bind mret M_ret app fst snd In]; intros [[= ->] | []]; reflexivity.
  - destruct (create_project_url d) as [u|e]; [|intros []].
    unfold mbind at 1 2. unfold M_bind, lift, try_call_url, trace_of. cbn [app fst snd].
    destruct (call_url P u); cbn [mbind res_bind];
      [destruct (subscript d "title")|];
      cbn [mbind res_bind mret M_ret app fst snd In]; intros [[= ->] | []]; reflexivity.
  - destruct (negb (existsb (has_key d) ["title"; "identifier"])); [intros []|].
    destruct (open_note_url d) as [u|e]; [|intros []].
    unfold mbind at 1 2. unfold M_bind, lift, try_call_url, trace_of. cbn [app fst snd].
    destruct (call_url P u);
      cbn [mbind res_bind mret M_ret app fst snd In]; intros [[= ->] | []]; reflexivity.
Qed.

(** C7 (as amended). In every callback URL built by create-agenda-note,
    create-agenda-project or open-agenda-note, the value of each parameter
    that the handler passes through [quote] (title, text, project_title,
    date, start_date, end_date, template_name, template_input,
    category_title, identifier) appears percent-encoded: it consists of
    letters, digits, [_.-~], [/] and [%XX] escapes, holds no reserved
    character other than [/], and decodes back to the value.  A boolean
    given for a boolean parameter appears as the word [true] or [false].
    The value of sort_order is inserted as it is. *)
Theorem url_values_encoded (t : url_tool) (d : args) (params : list string) :
  tool_params t d = Return params ->
  tool_url t d = Return (tool_base t +:+ "?" +:+ join "&" params)
  /\ (forall P notes url,
        In (RunOpen url) (trace_of (handle_call_tool P (tool_name t) (Some d) notes)) ->
        url = tool_base t +:+ "?" +:+ join "&" params)
  /\ (forall key name v,
        In (key, name) (quoted_fields t) -> d !! key = Some v ->
        exists s, v = PStr s
          /\ In (name +:+ "=" +:+ quote_from_bytes "/" s) params
          /\ str_forall quoted_char (quote_from_bytes "/" s) = true
          /\ str_forall (fun c => negb (reserved c) || Ascii.eqb c "/")
               (quote_from_bytes "/" s) = true
          /\ unquote (quote_from_bytes "/" s) = s)
  /\ (forall key name (b : bool),
        In (key, name) (bool_fields t) -> d !! key = Some (PBool b) ->
        In (name +:+ "=" +:+ (if b then "true" else "false")) params)
  /\ (forall key name v,
        In (key, name) (verbatim_fields t) -> d !! key = Some v ->
        In (name +:+ "=" +:+ py_str v) params).
Proof.
  intros Hp.
  pose proof (tool_url_eq t d params Hp) as Hurl.
  assert (Hwf : tool_well_formed t d = true) by (apply tool_params_accepts; eauto).
  split; [exact Hurl|]. split; [|split; [|split]].
  - intros P notes url Hin. apply tool_call_opens in Hin. congruence.
  - intros key name v Hin Hd.
    destruct (str_optional_inv d key v (quoted_fields_typed t d key name Hwf Hin) Hd)
      as [s ->].
    exists s. split; [reflexivity|].
    split; [exact (quoted_value_in_params t d params key name s Hp Hin Hd)|].
    split; [apply quote_chars|]. split; [apply quote_escapes_reserved | apply unquote_quote].
  - intros key name b Hin Hd.
    pose proof (lowered_value_in_params t d params key name (PBool b) Hp Hin Hd) as H.
    destruct b; exact H.
  - intros key name v Hin Hd.
    exact (verbatim_value_in_params t d params key name v Hp Hin Hd).
Qed.

Lemma url_values_encoded_witness :
  tool_url CreateProject
    (bag [("title", PStr "R&D / 50%"); ("select", PBool false);
          ("sort_order", PStr "newest-first")])
  = Return (tool_base CreateProject +:+ "?"
              +:+ join "&" ["title=R%26D%20/%2050%25"; "select=false";
                            "sort-order=newest-first"]).
Proof.
  refine (proj1 (url_values_encoded CreateProject
            (bag [("title", PStr "R&D / 50%"); ("select", PBool false);
                  ("sort_order", PStr "newest-first")])
            ["title=R%26D%20/%2050%25"; "select=false"; "sort-order=newest-first"] _)).
  vm_compute. reflexivity.
Defined.

(** The enumerated sort orders are their own encoding. *)
Example sort_orders_need_no_escape :
  quote (PStr "newest-first") = Return "newest-first"
  /\ quote (PStr "oldest-first") = Return "oldest-first".
Proof. split; reflexivity. Qed.

(** The claim as the specification words it fails for sort_order: the
    handler builds a URL for a sort_order holding "&" and "=", and the
    value is in the query as it came, not percent-encoded. *)
Lemma sort_order_not_encoded :
  create_project_url (bag [("title", PStr "t"); ("sort_order", PStr "a&b=c")])
    = Return "agenda://x-callback-url/create-project?title=t&sort-order=a&b=c"
  /\ quote (PStr "a&b=c") = Return "a%26b%3Dc"
  /\ ~ (forall params,
          create_project_params (bag [("title", PStr "t"); ("sort_order", PStr "a&b=c")])
            = Return params ->
          In ("sort-order=" +:+ "a%26b%3Dc") params)
  /\ str_forall (fun c => negb (reserved c)) "a&b=c" = false.
Proof.
  split; [vm_compute; reflexivity|]. split; [reflexivity|]. split; [|reflexivity].
  intros H. specialize (H _ eq_refl). vm_compute in H.
  repeat (destruct H as [H|H]; [discriminate|]). exact H.
Qed.

(** ** Reading the query back

    For a bag that conforms to the input schema, no parameter holds a raw
    [&], so cutting the query at [&] gives back the parameters the
    handler appended. *)

Lemma str_mem_app (c : ascii) (a b : string) :
  str_mem c (a +:+ b) = str_mem c a || str_mem c b.
Proof.
  induction a as [|x a IH]; [reflexivity|].
  change (String x a +:+ b) with (String x (a +:+ b)).
  cbn [str_mem]. destruct (Ascii.eqb c x); [reflexivity | exact IH].
Qed.

Lemma str_forall_not_mem (p : ascii -> bool) (c : ascii) (s : string) :
  p c = false -> str_forall p s = true -> str_mem c s = false.
Proof.
  intros Hc. induction s as [|x s IH]; [reflexivity|].
  cbn [str_forall str_mem]. rewrite andb_true_iff. intros [Hx Hs].
  destruct (Ascii.eqb_spec c x) as [->|_]; [congruence | auto].
Qed.

Lemma quote_no_amp (s : string) : str_mem "&" (quote_from_bytes "/" s) = false.
Proof. apply (str_forall_not_mem quoted_char); [reflexivity | apply quote_chars]. Qed.

Lemma param_no_amp (name value : string) :
  str_mem "&" name = false -> str_mem "&" value = false ->
  str_mem "&" (name +:+ "=" +:+ value) = false.
Proof.
  intros Hn Hv. rewrite !str_mem_app, Hn, Hv. reflexivity.
Qed.

Lemma split_on_single (sep : ascii) (p : string) :
  str_mem sep p = false -> split_on sep p = [p].
Proof.
  induction p as [|c p IH]; [reflexivity|].
  cbn [str_mem]. rewrite Ascii.eqb_sym.
  destruct (Ascii.eqb c sep) eqn:E; [discriminate|]. intros Hp.
  cbn [split_on]. rewrite E, (IH Hp). reflexivity.
Qed.

Lemma split_on_app (sep : ascii) (p rest : string) :
  str_mem sep p = false ->
  split_on sep (p +:+ String sep rest) = p :: split_on sep rest.
Proof.
  induction p as [|c p IH].
  - intros _. change ("" +:+ String sep rest) with (String sep rest).
    cbn [split_on]. now rewrite Ascii.eqb_refl.
  - cbn [str_mem]. rewrite Ascii.eqb_sym.
    destruct (Ascii.eqb c sep) eqn:E; [discriminate|]. intros Hp.
    change (String c p +:+ String sep rest) with (String c (p +:+ String sep rest)).
    cbn [split_on]. rewrite E, (IH Hp). reflexivity.
Qed.

Lemma split_join (params : list string) :
  params <> [] ->
  Forall (fun p => str_mem "&" p = false) params ->
  split_on "&" (join "&" params) = params.
Proof.
  induction params as [|p [|q rest] IH]; intros Hne Hall.
  - contradiction.
  - cbn [join]. apply split_on_single. now apply Forall_inv in Hall.
  - apply Forall_cons in Hall as [Hp Hall].
    change (join "&" (p :: q :: rest)) with (p +:+ String "&" (join "&" (q :: rest))).
    rewrite (split_on_app _ _ _ Hp). f_equal. apply IH; [discriminate | exact Hall].
Qed.

Lemma opt_quoted_no_amp (d : args) (key name : string) :
  str_mem "&" name = false ->
  Forall (fun p => str_mem "&" p = false) (opt_quoted d key name).
Proof.
  intros Hn. unfold opt_quoted.
  destruct (d !! key) as [[| | |s]|]; try constructor; [|constructor].
  apply param_no_amp; [exact Hn | apply quote_no_amp].
Qed.

Lemma opt_lowered_no_amp (d : args) (key name : string) :
  str_mem "&" name = false -> bool_optional d key = true ->
  Forall (fun p => str_mem "&" p = false) (opt_lowered d key name).
Proof.
  intros Hn. unfold opt_lowered, bool_optional.
  destruct (d !! key) as [[|b| |]|]; try discriminate; intros _; constructor;
    [|constructor].
  apply param_no_amp; [exact Hn | now destruct b].
Qed.

Lemma opt_verbatim_no_amp (d : args) (key name : string) :
  str_mem "&" name = false -> enum_optional d key = true ->
  Forall (fun p => str_mem "&" p = false) (opt_verbatim d key name).
Proof.
  intros Hn. unfold opt_verbatim, enum_optional.
  destruct (d !! key) as [[| | |s]|]; try discriminate; [|constructor].
  rewrite orb_true_iff, !String.eqb_eq. intros Hs. constructor; [|constructor].
  apply param_no_amp; [exact Hn | now destruct Hs as [-> | ->]].
Qed.

Ltac no_amp :=
  repeat first
    [ apply Forall_app; split
    | apply opt_quoted_no_amp; reflexivity
    | apply opt_lowered_no_amp; [reflexivity | tauto]
    | apply opt_verbatim_no_amp; [reflexivity | tauto] ].

(** For a schema-conforming bag the query is unambiguous: it has at least
    one parameter, and cutting it at [&] returns the parameters. *)
Lemma query_splits (t : url_tool) (d : args) (params : list string) :
  tool_schema_ok t d = true ->
  (t = OpenNote -> has_key d "title" || has_key d "identifier" = true) ->
  tool_params t d = Return params ->
  split_on "&" (join "&" params) = params.
Proof.
  unfold tool_schema_ok. rewrite !andb_true_iff. intros [[Hwf Hb] He] Hopen Hp.
  destruct t; cbn [tool_well_formed tool_params bool_fields verbatim_fields forallb fst]
    in Hwf, Hb, He, Hp;
    repeat rewrite andb_true_iff in Hb; repeat rewrite andb_true_iff in He.
  - destruct (create_note_params_eq d Hwf) as (tt & x & _ & _ & E).
    rewrite E in Hp. injection Hp as <-.
    apply split_join; [discriminate|].
    repeat apply Forall_cons_2;
      try (apply (param_no_amp "title"); [reflexivity | apply quote_no_amp]);
      try (apply (param_no_amp "text"); [reflexivity | apply quote_no_amp]).
    no_amp.
  - destruct (create_project_params_eq d Hwf) as (tt & _ & E).
    rewrite E in Hp. injection Hp as <-.
    apply split_join; [discriminate|].
    repeat apply Forall_cons_2;
      try (apply (param_no_amp "title"); [reflexivity | apply quote_no_amp]).
    no_amp.
  - rewrite (open_note_params_eq d Hwf) in Hp. injection Hp as <-.
    apply split_join; [|no_amp].
    specialize (Hopen eq_refl). unfold open_note_well_formed in Hwf.
    cbn [forallb] in Hwf. rewrite !andb_true_iff in Hwf.
    destruct Hwf as (H1 & H2 & _).
    apply orb_true_iff in Hopen as [Hk | Hk]; apply has_key_is_Some in Hk as [v Hv].
    + destruct (str_optional_inv d "title" v H1 Hv) as [s ->].
      unfold opt_quoted at 1. rewrite Hv. discriminate.
    + destruct (str_optional_inv d "identifier" v H2 Hv) as [s ->].
      unfold opt_quoted at 2. rewrite Hv.
      destruct (opt_quoted d "title" "title"); discriminate.
Qed.

Example query_splits_example :
  split_on "&"
    (join "&" ["title=R%26D%20/%2050%25"; "select=false"; "sort-order=newest-first"])
  = ["title=R%26D%20/%2050%25"; "select=false"; "sort-order=newest-first"].
Proof. reflexivity. Qed.

(** ** The query as it stands in the URL *)

Lemma query_of_tool_url (t : url_tool) (q : string) :
  query_of (tool_base t +:+ "?" +:+ q) = q.
Proof. destruct t; reflexivity. Qed.

(** For a schema-conforming bag, the parameters read off the URL are the
    parameters the handler appended. *)
Lemma url_query_params (t : url_tool) (d : args) (url : string) :
  tool_schema_ok t d = true ->
  tool_gate t d = true ->
  tool_url t d = Return url ->
  tool_params t d = Return (query_params url).
Proof.
  intros Hok Hg Hu.
  assert (Hwf : tool_well_formed t d = true).
  { unfold tool_schema_ok in Hok. rewrite !andb_true_iff in Hok. tauto. }
  apply tool_params_accepts in Hwf as [params Hp].
  rewrite (tool_url_eq t d params Hp) in Hu.
  assert (E : url = tool_base t +:+ "?" +:+ join "&" params) by congruence.
  subst url. unfold query_params. rewrite query_of_tool_url.
  rewrite (query_splits t d params Hok); [exact Hp | | exact Hp].
  intros ->. exact Hg.
Qed.

(** C1 (as amended). create-agenda-note with title "A B" and text "C"
    alone yields exactly
    [agenda://x-callback-url/create-note?title=A%20B&text=C].  For every
    bag that conforms to the tool's input schema (title and text present,
    string fields holding strings, boolean fields holding booleans), the
    query of the URL, cut at [&], holds title and text first and then
    the optional parameters project-title, on-the-agenda, date,
    start-date, end-date, template-name, template-input, collapsed,
    completed, pinned, footnote, select in that order, each one there
    exactly when its key is in the bag. *)
Theorem create_note_url_query_order (d : args) :
  tool_schema_ok CreateNote d = true ->
  create_note_url (bag [("title", PStr "A B"); ("text", PStr "C")])
    = Return "agenda://x-callback-url/create-note?title=A%20B&text=C"
  /\ exists t x url,
      d !! "title" = Some (PStr t) /\ d !! "text" = Some (PStr x)
      /\ create_note_url d = Return url
      /\ url = "agenda://x-callback-url/create-note?" +:+ query_of url
      /\ firstn 2 (query_params url)
           = ["title=" +:+ quote_from_bytes "/" t; "text=" +:+ quote_from_bytes "/" x]
      /\ map param_name (query_params url)
           = "title" :: "text"
               :: map snd (List.filter (fun kn => has_key d kn.1) note_optional)
      /\ forall key name, In (key, name) note_optional ->
           (In name (map param_name (query_params url)) <-> is_Some (d !! key)).
Proof.
  intros Hok. split; [vm_compute; reflexivity|].
  assert (Hwf : create_note_well_formed d = true).
  { unfold tool_schema_ok in Hok. rewrite !andb_true_iff in Hok.
    cbn [tool_well_formed] in Hok. tauto. }
  destruct (create_note_params_order d Hwf)
    as (_ & t & x & params & Ht & Hx & Hp & Hu & H2 & Hn & Hiff).
  pose proof (url_query_params CreateNote d _ Hok eq_refl Hu) as Hq.
  cbn [tool_params] in Hq. rewrite Hp in Hq.
  assert (Hq' : query_params ("agenda://x-callback-url/create-note?" +:+ join "&" params)
                = params) by congruence.
  exists t, x, ("agenda://x-callback-url/create-note?" +:+ join "&" params).
  split; [exact Ht|]. split; [exact Hx|]. split; [exact Hu|].
  rewrite Hq'.
  split; [reflexivity|].
  split; [exact H2|]. split; [exact Hn | exact Hiff].
Qed.

Lemma create_note_url_query_order_witness :
  exists url,
    create_note_url
      (bag [("title", PStr "Plan"); ("text", PStr "x y"); ("select", PBool true);
            ("date", PStr "2024-01-02")]) = Return url
    /\ url = "agenda://x-callback-url/create-note?title=Plan&text=x%20y&date=2024-01-02&select=true"
    /\ map param_name (query_params url) = ["title"; "text"; "date"; "select"].
Proof.
  destruct (create_note_url_query_order
              (bag [("title", PStr "Plan"); ("text", PStr "x y");
                    ("select", PBool true); ("date", PStr "2024-01-02")]))
    as (_ & t & x & url & _ & _ & Hu & _ & _ & Hn & _).
  - vm_compute. reflexivity.
  - exists url. split; [exact Hu|].
    assert (E : url = "agenda://x-callback-url/create-note?title=Plan&text=x%20y&date=2024-01-02&select=true").
    { vm_compute in Hu. now injection Hu as <-. }
    split; [exact E|]. rewrite Hn. vm_compute. reflexivity.
Defined.

(** The claim as the specification words it fails for a bag outside the
    schema: a string given for the boolean [select] is appended as it
    is, and its [&] adds parameters to the query whose keys are not in
    the bag and that stand out of order. *)
Lemma create_note_query_injected :
  create_note_url
    (bag [("title", PStr "t"); ("text", PStr "x");
          ("select", PStr "a&pinned=true&date=1")])
  = Return "agenda://x-callback-url/create-note?title=t&text=x&select=a&pinned=true&date=1"
  /\ bag [("title", PStr "t"); ("text", PStr "x");
          ("select", PStr "a&pinned=true&date=1")] !! "pinned" = None
  /\ bag [("title", PStr "t"); ("text", PStr "x");
          ("select", PStr "a&pinned=true&date=1")] !! "date" = None
  /\ map param_name
       (query_params
          "agenda://x-callback-url/create-note?title=t&text=x&select=a&pinned=true&date=1")
     = ["title"; "text"; "select"; "pinned"; "date"]
  /\ ~ (forall key name, In (key, name) note_optional ->
          (In name (map param_name
             (query_params
                "agenda://x-callback-url/create-note?title=t&text=x&select=a&pinned=true&date=1"))
           <-> is_Some (bag [("title", PStr "t"); ("text", PStr "x");
                             ("select", PStr "a&pinned=true&date=1")] !! key))).
Proof.
  split; [vm_compute; reflexivity|]. split; [reflexivity|]. split; [reflexivity|].
  split; [vm_compute; reflexivity|].
  intros H. specialize (H "pinned" "pinned").
  destruct H as [H _]; [cbn; tauto|].
  destruct H as [v Hv]; [vm_compute; tauto|].
  vm_compute in Hv. discriminate.
Qed.

(** * Further properties of the server *)

(** ** How a URL-building tool call runs *)

Lemma Return_inj {A} (a b : A) : Return a = Return b -> a = b.
Proof. congruence. Qed.

Lemma tool_url_Return_params (t : url_tool) (d : args) (url : string) :
  tool_url t d = Return url -> exists params, tool_params t d = Return params.
Proof.
  destruct t; cbn [tool_url tool_params];
    [unfold create_note_url | unfold create_project_url | unfold open_note_url];
    intros H; apply res_bind_Return in H as (params & Hp & _); eauto.
Qed.

Lemma tool_url_Raise_params (t : url_tool) (d : args) (e : exn) :
  tool_url t d = Raise e <-> tool_params t d = Raise e.
Proof.
  destruct t; cbn [tool_url tool_params];
    [unfold create_note_url; destruct (create_note_params d)
    |unfold create_project_url; destruct (create_project_params d)
    |unfold open_note_url; destruct (open_note_params d)];
    cbn [mbind res_bind]; unfold mret, res_ret; split; intros H; congruence.
Qed.

Lemma title_of_built_url (t : url_tool) (d : args) (url : string) :
  t <> OpenNote -> tool_url t d = Return url ->
  exists s, d !! "title" = Some (PStr s).
Proof.
  intros Ht Hu. apply tool_url_Return_params in Hu.
  apply tool_params_accepts in Hu.
  destruct t; [| |contradiction]; cbn [tool_well_formed] in Hu;
    [unfold create_note_well_formed in Hu | unfold create_project_well_formed in Hu];
    rewrite !andb_true_iff in Hu; apply str_required_inv; tauto.
Qed.

Lemma url_tool_empty (P : platform) (t : url_tool) (arguments : option args)
    (notes : store) :
  not_arguments arguments = true ->
  handle_call_tool P (tool_name t) arguments notes
    = (Raise (ValueError "Missing arguments"), notes, []).
Proof.
  intros H. destruct t; cbn [tool_name]; unfold handle_call_tool;
    cbn [String.eqb Ascii.eqb Bool.eqb];
    [unfold create_agenda_note | unfold create_agenda_project | unfold open_agenda_note];
    rewrite H; reflexivity.
Qed.

Lemma url_tool_gate_closed (P : platform) (d : args) (notes : store) :
  d <> ∅ -> tool_gate OpenNote d = false ->
  handle_call_tool P "open-agenda-note" (Some d) notes
    = (Raise (ValueError "Either title or identifier must be provided"), notes, []).
Proof.
  intros Hne Hg. unfold handle_call_tool. cbn [String.eqb Ascii.eqb Bool.eqb].
  unfold open_agenda_note, not_arguments.
  rewrite bool_decide_eq_false_2 by exact Hne.
  change (default ∅ (Some d)) with d. cbv zeta. cbn [existsb].
  cbn [tool_gate] in Hg. rewrite orb_false_r, Hg. reflexivity.
Qed.

Lemma url_tool_build_error (P : platform) (t : url_tool) (d : args) (notes : store)
    (e : exn) :
  d <> ∅ -> tool_gate t d = true -> tool_url t d = Raise e ->
  handle_call_tool P (tool_name t) (Some d) notes = (Raise e, notes, []).
Proof.
  intros Hne Hg Hu.
  destruct t; cbn [tool_name tool_url tool_gate] in *; unfold handle_call_tool;
    cbn [String.eqb Ascii.eqb Bool.eqb];
    [unfold create_agenda_note | unfold create_agenda_project | unfold open_agenda_note];
    unfold not_arguments; rewrite bool_decide_eq_false_2 by exact Hne;
    change (default ∅ (Some d)) with d; cbv zeta;
    try (cbn [existsb]; rewrite orb_false_r, Hg; cbn [negb]);
    rewrite Hu; reflexivity.
Qed.

Lemma url_tool_built (P : platform) (t : url_tool) (d : args) (notes : store)
    (url : string) :
  d <> ∅ -> tool_gate t d = true -> tool_url t d = Return url ->
  handle_call_tool P (tool_name t) (Some d) notes =
    (Return
       [text_block
          match call_url P url with
          | Return _ =>
              tool_success_prefix t +:+ py_str (tool_subject t d) +:+ "' in Agenda"
          | Raise e => tool_failure_prefix t +:+ exn_str e
          end],
     notes, [RunOpen url]).
Proof.
  intros Hne Hg Hu.
  destruct t; cbn [tool_name tool_url tool_gate tool_success_prefix
                   tool_failure_prefix tool_subject] in *.
  - destruct (title_of_built_url CreateNote d url) as [s Hs]; [discriminate|exact Hu|].
    unfold handle_call_tool; cbn [String.eqb Ascii.eqb Bool.eqb].
    unfold create_agenda_note, not_arguments.
    rewrite bool_decide_eq_false_2 by exact Hne.
    change (default ∅ (Some d)) with d. cbv zeta. rewrite Hu.
    unfold mbind at 1 2. unfold M_bind, lift, try_call_url. cbn [app].
    unfold subscript, get_default. rewrite Hs.
    destruct (call_url P url); reflexivity.
  - destruct (title_of_built_url CreateProject d url) as [s Hs]; [discriminate|exact Hu|].
    unfold handle_call_tool; cbn [String.eqb Ascii.eqb Bool.eqb].
    unfold create_agenda_project, not_arguments.
    rewrite bool_decide_eq_false_2 by exact Hne.
    change (default ∅ (Some d)) with d. cbv zeta. rewrite Hu.
    unfold mbind at 1 2. unfold M_bind, lift, try_call_url. cbn [app].
    unfold subscript, get_default. rewrite Hs.
    destruct (call_url P url); reflexivity.
  - unfold handle_call_tool; cbn [String.eqb Ascii.eqb Bool.eqb].
    unfold open_agenda_note, not_arguments.
    rewrite bool_decide_eq_false_2 by exact Hne.
    change (default ∅ (Some d)) with d. cbv zeta.
    cbn [existsb]. rewrite orb_false_r, Hg. cbn [negb]. rewrite Hu.
    unfold mbind at 1 2. unfold M_bind, lift, try_call_url. cbn [app].
    destruct (call_url P url); reflexivity.
Qed.

(** ** Which errors the builders raise *)

Lemma res_bind_Raise {A B} (r : res A) (k : A -> res B) (e : exn) :
  r ≫= k = Raise e -> r = Raise e \/ exists a, r = Return a /\ k a = Raise e.
Proof. destruct r as [a|e']; cbn [mbind res_bind]; [eauto | intros [= ->]; now left]. Qed.

Lemma subscript_Raise (d : args) (key : string) (e : exn) :
  subscript d key = Raise e -> e = KeyError (PStr key) /\ d !! key = None.
Proof. unfold subscript. destruct (d !! key); [discriminate | now intros [= <-]]. Qed.

Lemma quote_Raise (v : pyval) (e : exn) :
  quote v = Raise e -> e = TypeError "quote_from_bytes() expected bytes" /\ is_str v = false.
Proof. destruct v; cbn [quote is_str]; try discriminate; now intros [= <-]. Qed.

Lemma append_quoted_Raise (d : args) (key name : string) (ps : list string) (e : exn) :
  append_quoted d key name ps = Raise e ->
  e = TypeError "quote_from_bytes() expected bytes" /\ str_optional d key = false.
Proof.
  unfold append_quoted, str_optional, subscript.
  destruct (d !! key) as [v|] eqn:E.
  - rewrite (has_key_Some _ _ _ E). cbn [mbind res_bind].
    destruct (quote v) eqn:Q; cbn [mbind res_bind]; [discriminate|].
    intros [= <-]. apply quote_Raise in Q as [-> Hv]. now split.
  - rewrite (has_key_None _ _ E). discriminate.
Qed.

Lemma append_lowered_Raise (d : args) (key name : string) (ps : list string) (e : exn) :
  append_lowered d key name ps <> Raise e.
Proof. rewrite append_lowered_step. discriminate. Qed.

Lemma append_verbatim_Raise (d : args) (key name : string) (ps : list string) (e : exn) :
  append_verbatim d key name ps <> Raise e.
Proof. rewrite append_verbatim_step. discriminate. Qed.

Ltac builder_step H :=
  apply res_bind_Raise in H as [H | (? & _ & H)];
  [ first [ apply append_quoted_Raise in H as [-> _]; now right
          | now apply append_lowered_Raise in H
          | now apply append_verbatim_Raise in H ] | ].

Lemma required_quoted_Raise (d : args) (key : string) (k : string -> res (list string))
    (e : exn) :
  key = "title" \/ key = "text" ->
  (v ← subscript d key; q ← quote v; k q) = Raise e ->
  builder_error d e \/ exists q, k q = Raise e.
Proof.
  intros Hk H.
  apply res_bind_Raise in H as [H | (v & _ & H)].
  - apply subscript_Raise in H as [-> Hd]. left. left. eauto.
  - apply res_bind_Raise in H as [H | (q & _ & H)].
    + apply quote_Raise in H as [-> _]. left. now right.
    + eauto.
Qed.

Lemma tool_params_errors (t : url_tool) (d : args) (e : exn) :
  tool_params t d = Raise e -> builder_error d e.
Proof.
  destruct t; cbn [tool_params]; intros H.
  - unfold create_note_params in H.
    apply (required_quoted_Raise d "title") in H as [H | [q H]];
      [exact H | | now left].
    apply (required_quoted_Raise d "text") in H as [H | [q' H]];
      [exact H | | now right].
    do 12 builder_step H. discriminate.
  - unfold create_project_params in H.
    apply (required_quoted_Raise d "title") in H as [H | [q H]];
      [exact H | | now left].
    do 4 builder_step H. discriminate.
  - unfold open_note_params in H.
    do 4 builder_step H. discriminate.
Qed.

(** ** Tool calls: results, errors and effects *)

Lemma has_key_nonempty (d : args) (key : string) : has_key d key = true -> d <> ∅.
Proof.
  intros H ->. apply has_key_is_Some in H as [v H].
  rewrite lookup_empty in H. discriminate.
Qed.

Lemma built_url_nonempty (t : url_tool) (d : args) (url : string) :
  tool_gate t d = true -> tool_url t d = Return url -> d <> ∅.
Proof.
  intros Hg Hu. destruct t.
  - destruct (title_of_built_url CreateNote d url) as [s Hs];
      [discriminate | exact Hu |].
    apply (has_key_nonempty d "title"), (has_key_Some _ _ _ Hs).
  - destruct (title_of_built_url CreateProject d url) as [s Hs];
      [discriminate | exact Hu |].
    apply (has_key_nonempty d "title"), (has_key_Some _ _ _ Hs).
  - cbn [tool_gate] in Hg. apply orb_true_iff in Hg as [H | H];
      eapply has_key_nonempty; exact H.
Qed.

(** X1. When the invoker fails on the URL of any of the three Agenda
    tools, the call returns one text block, the tool's failure prefix
    followed by the text of the error; the store is unchanged and exactly
    that URL was handed to [open]. *)
Theorem agenda_tool_failure_is_text (P : platform) (t : url_tool) (d : args)
    (notes : store) (url : string) (e : exn) :
  tool_gate t d = true ->
  tool_url t d = Return url ->
  call_url P url = Raise e ->
  handle_call_tool P (tool_name t) (Some d) notes
    = (Return [text_block (tool_failure_prefix t +:+ exn_str e)], notes, [RunOpen url])
  /\ contains (exn_str e) (tool_failure_prefix t +:+ exn_str e) = true.
Proof.
  intros Hg Hu He.
  rewrite (url_tool_built P t d notes url (built_url_nonempty t d url Hg Hu) Hg Hu), He.
  split; [reflexivity | apply contains_suffix].
Qed.

Lemma agenda_tool_failure_is_text_witness :
  handle_call_tool (exit_with 1 "" "") "open-agenda-note"
      (Some (bag [("identifier", PStr "N 1")])) notes_init
  = (Return
       [text_block
          ("Failed to open note in Agenda: " +:+
           "Failed to execute x-callback-url: Command '['open', 'agenda://x-callback-url/open-note?identifier=N%201']' returned non-zero exit status 1.")],
     notes_init, [RunOpen "agenda://x-callback-url/open-note?identifier=N%201"]).
Proof.
  refine (proj1 (agenda_tool_failure_is_text (exit_with 1 "" "") OpenNote
            (bag [("identifier", PStr "N 1")]) notes_init
            "agenda://x-callback-url/open-note?identifier=N%201"
            (RuntimeError "Failed to execute x-callback-url: Command '['open', 'agenda://x-callback-url/open-note?identifier=N%201']' returned non-zero exit status 1.")
            _ _ _)); vm_compute; reflexivity.
Defined.

(** X2. When the invoker succeeds, the call returns the confirmation
    text naming the subject, whatever [open] printed: the title for the
    two create tools; for open-agenda-note the title when the bag has
    one, and the identifier otherwise. *)
Theorem agenda_tool_success_text (P : platform) (t : url_tool) (d : args)
    (notes : store) (url out : string) :
  tool_gate t d = true ->
  tool_url t d = Return url ->
  call_url P url = Return out ->
  handle_call_tool P (tool_name t) (Some d) notes
    = (Return [text_block (tool_success_prefix t +:+ py_str (tool_subject t d)
                             +:+ "' in Agenda")],
       notes, [RunOpen url])
  /\ (forall v, d !! "title" = Some v -> tool_subject t d = v)
  /\ (t = OpenNote -> d !! "title" = None ->
      exists s, d !! "identifier" = Some (PStr s) /\ tool_subject t d = PStr s).
Proof.
  intros Hg Hu Ho.
  rewrite (url_tool_built P t d notes url (built_url_nonempty t d url Hg Hu) Hg Hu), Ho.
  split; [reflexivity|]. split.
  - intros v Hv. destruct t; cbn [tool_subject]; unfold get_default; now rewrite Hv.
  - intros -> Ht. cbn [tool_gate] in Hg.
    rewrite (has_key_None _ _ Ht) in Hg. cbn [orb] in Hg.
    apply has_key_is_Some in Hg as [v Hv].
    apply tool_url_Return_params, tool_params_accepts in Hu.
    assert (Hs : str_optional d "identifier" = true).
    { apply (quoted_fields_typed OpenNote d "identifier" "identifier" Hu).
      cbn. tauto. }
    destruct (str_optional_inv d "identifier" v Hs Hv) as [s ->].
    exists s. split; [exact Hv|].
    cbn [tool_subject]. unfold get_default. now rewrite Ht, Hv.
Qed.

Lemma agenda_tool_success_text_witness :
  handle_call_tool (exit_with 0 "ignored" "") "open-agenda-note"
      (Some (bag [("identifier", PStr "N 1")])) notes_init
  = (Return [text_block ("Opened note '" +:+ py_str (PStr "N 1") +:+ "' in Agenda")],
     notes_init, [RunOpen "agenda://x-callback-url/open-note?identifier=N%201"]).
Proof.
  refine (proj1 (agenda_tool_success_text (exit_with 0 "ignored" "") OpenNote
            (bag [("identifier", PStr "N 1")]) notes_init
            "agenda://x-callback-url/open-note?identifier=N%201" "ignored"
            _ _ _)); vm_compute; reflexivity.
Defined.

(** X3. An Agenda tool call raises only before anything is opened, and
    only one of four errors: "Missing arguments" for no bag or an empty
    one, "Either title or identifier must be provided" from
    open-agenda-note, [KeyError] for a missing title or text, or the
    [TypeError] of [quote] for a value that is not a string.  The store is
    unchanged. *)
Theorem agenda_tool_errors (P : platform) (t : url_tool) (arguments : option args)
    (notes : store) (e : exn) :
  result_of (handle_call_tool P (tool_name t) arguments notes) = Raise e ->
  handle_call_tool P (tool_name t) arguments notes = (Raise e, notes, [])
  /\ (e = ValueError "Missing arguments" /\ not_arguments arguments = true
      \/ e = ValueError "Either title or identifier must be provided" /\ t = OpenNote
      \/ exists d, arguments = Some d /\ builder_error d e).
Proof.
  intros H.
  destruct (not_arguments arguments) eqn:Hna.
  { rewrite (url_tool_empty P t arguments notes Hna) in H |- *.
    injection H as <-. split; [reflexivity | now left]. }
  destruct arguments as [d|]; [|discriminate].
  assert (Hne : d <> ∅).
  { cbn [not_arguments] in Hna. now apply bool_decide_eq_false in Hna. }
  destruct (tool_gate t d) eqn:Hg.
  - destruct (tool_url t d) as [url|e'] eqn:Hu.
    + rewrite (url_tool_built P t d notes url Hne Hg Hu) in H. discriminate.
    + rewrite (url_tool_build_error P t d notes e' Hne Hg Hu) in H |- *.
      injection H as <-. split; [reflexivity|]. right. right.
      exists d. split; [reflexivity|].
      apply (tool_params_errors t), tool_url_Raise_params, Hu.
  - destruct t; try discriminate. cbn [tool_name] in *.
    rewrite (url_tool_gate_closed P d notes Hne Hg) in H |- *.
    injection H as <-. split; [reflexivity|]. right. now left.
Qed.

Lemma agenda_tool_errors_witness :
  handle_call_tool (exit_with 0 "" "") "create-agenda-note"
      (Some (bag [("text", PStr "body")])) notes_init
  = (Raise (KeyError (PStr "title")), notes_init, []).
Proof.
  refine (proj1 (agenda_tool_errors (exit_with 0 "" "") CreateNote
            (Some (bag [("text", PStr "body")])) notes_init
            (KeyError (PStr "title")) _)).
  vm_compute. reflexivity.
Defined.

(** ** Dispatch by tool name *)

Lemma find_tool_cases (name : string) :
  (name = "add-note" /\ is_Some (find_tool name))
  \/ (exists t, name = tool_name t /\ is_Some (find_tool name))
  \/ (find_tool name = None
      /\ String.eqb name "add-note" = false
      /\ String.eqb name "create-agenda-note" = false
      /\ String.eqb name "create-agenda-project" = false
      /\ String.eqb name "open-agenda-note" = false).
Proof.
  destruct (String.eqb_spec name "add-note") as [->|H1];
    [left; split; [reflexivity | vm_compute; eauto]|].
  destruct (String.eqb_spec name "create-agenda-note") as [->|H2];
    [right; left; exists CreateNote; split; [reflexivity | vm_compute; eauto]|].
  destruct (String.eqb_spec name "create-agenda-project") as [->|H3];
    [right; left; exists CreateProject; split; [reflexivity | vm_compute; eauto]|].
  destruct (String.eqb_spec name "open-agenda-note") as [->|H4];
    [right; left; exists OpenNote; split; [reflexivity | vm_compute; eauto]|].
  right. right. split; [|repeat split; reflexivity].
  unfold find_tool, handle_list_tools. cbn [List.find Tool.name].
  rewrite !(String.eqb_sym _ name).
  apply String.eqb_neq in H1, H2, H3, H4. now rewrite H1, H2, H3, H4.
Qed.

Lemma unknown_tool_run (P : platform) (name : string) (arguments : option args)
    (notes : store) :
  String.eqb name "add-note" = false ->
  String.eqb name "create-agenda-note" = false ->
  String.eqb name "create-agenda-project" = false ->
  String.eqb name "open-agenda-note" = false ->
  handle_call_tool P name arguments notes
    = (Raise (ValueError ("Unknown tool: " +:+ name)), notes, []).
Proof. intros H1 H2 H3 H4. unfold handle_call_tool. now rewrite H1, H2, H3, H4. Qed.

Lemma add_note_outcome (P : platform) (arguments : option args) (notes : store) :
  (not_arguments arguments = true
   /\ handle_call_tool P "add-note" arguments notes
        = (Raise (ValueError "Missing arguments"), notes, []))
  \/ (exists d, arguments = Some d /\ add_note_valid d = false
      /\ handle_call_tool P "add-note" arguments notes
           = (Raise (ValueError "Missing name or content"), notes, []))
  \/ (exists d, arguments = Some d /\ add_note_valid d = true
      /\ handle_call_tool P "add-note" arguments notes
           = (Return [text_block ("Added note '" +:+ py_str (note_name_of d)
                                    +:+ "' with content: " +:+ py_str (content_of d))],
              dict_set (note_name_of d) (content_of d) notes,
              [ResourceListChanged])).
Proof.
  destruct (not_arguments arguments) eqn:Hna.
  { left. split; [reflexivity|].
    unfold handle_call_tool. cbn [String.eqb Ascii.eqb Bool.eqb].
    unfold add_note. now rewrite Hna. }
  destruct arguments as [d|]; [|discriminate]. right.
  destruct (add_note_valid d) eqn:Hv.
  - right. exists d. split; [reflexivity|]. split; [exact Hv|].
    apply add_note_valid_run, Hv.
  - left. exists d. split; [reflexivity|]. split; [exact Hv|].
    unfold handle_call_tool. cbn [String.eqb Ascii.eqb Bool.eqb].
    unfold add_note. rewrite Hna.
    change (default ∅ (Some d)) with d. cbv zeta.
    fold (note_name_of d) (content_of d).
    unfold add_note_valid in Hv. now rewrite <- negb_andb, Hv.
Qed.

Lemma url_tool_outcome (P : platform) (t : url_tool) (arguments : option args)
    (notes : store) :
  (not_arguments arguments = true
   /\ handle_call_tool P (tool_name t) arguments notes
        = (Raise (ValueError "Missing arguments"), notes, []))
  \/ (exists d, arguments = Some d /\ d <> ∅ /\ t = OpenNote /\ tool_gate t d = false
      /\ handle_call_tool P (tool_name t) arguments notes
           = (Raise (ValueError "Either title or identifier must be provided"),
              notes, []))
  \/ (exists d e, arguments = Some d /\ d <> ∅ /\ tool_gate t d = true
      /\ tool_url t d = Raise e
      /\ handle_call_tool P (tool_name t) arguments notes = (Raise e, notes, []))
  \/ (exists d url text, arguments = Some d /\ d <> ∅ /\ tool_gate t d = true
      /\ tool_url t d = Return url
      /\ handle_call_tool P (tool_name t) arguments notes
           = (Return [text_block text], notes, [RunOpen url])).
Proof.
  destruct (not_arguments arguments) eqn:Hna.
  { left. split; [reflexivity | now apply url_tool_empty]. }
  destruct arguments as [d|]; [|discriminate]. right.
  assert (Hne : d <> ∅).
  { cbn [not_arguments] in Hna. now apply bool_decide_eq_false in Hna. }
  destruct (tool_gate t d) eqn:Hg.
  - right. destruct (tool_url t d) as [url|e] eqn:Hu.
    + right. eexists d, url, _. repeat (split; [reflexivity || assumption|]).
      apply (url_tool_built P t d notes url Hne Hg Hu).
    + left. exists d, e. repeat (split; [reflexivity || assumption|]).
      apply (url_tool_build_error P t d notes e Hne Hg Hu).
  - left. destruct t; try discriminate. exists d.
    repeat (split; [reflexivity || assumption|]).
    apply (url_tool_gate_closed P d notes Hne Hg).
Qed.

(** X4. call-tool answers "Unknown tool" exactly for the names that
    list-tools does not advertise: every advertised tool is dispatched to
    a handler, and any other name is rejected without touching the store
    or the system. *)
Theorem unknown_tool_iff_unlisted (P : platform) (name : string)
    (arguments : option args) (notes : store) :
  handle_call_tool P name arguments notes
    = (Raise (ValueError ("Unknown tool: " +:+ name)), notes, [])
  <-> ~ In name (map Tool.name handle_list_tools).
Proof.
  destruct (find_tool_cases name) as [[-> _] | [(t & -> & _) | (Hf & H1 & H2 & H3 & H4)]].
  - split; [|intros H; exfalso; apply H; cbn; tauto].
    intros H. exfalso.
    destruct (add_note_outcome P arguments notes)
      as [[_ E] | [(d & _ & _ & E) | (d & _ & _ & E)]];
      rewrite E in H; vm_compute in H; discriminate.
  - split; [|intros H; exfalso; apply H; destruct t; cbn; tauto].
    intros H. exfalso.
    destruct (url_tool_outcome P t arguments notes)
      as [[_ E] | [(d & _ & _ & _ & _ & E) | [(d & e & _ & _ & _ & Hu & E)
                                              | (d & url & text & _ & _ & _ & _ & E)]]];
      rewrite E in H; try (destruct t; vm_compute in H; discriminate).
    injection H as ->.
    apply tool_url_Raise_params, tool_params_errors in Hu.
    destruct Hu as [(key & _ & _ & Hk) | Hk]; discriminate.
  - split; [|intros _; now apply unknown_tool_run].
    intros _ Hin. cbn in Hin.
    apply String.eqb_neq in H1, H2, H3, H4.
    destruct Hin as [E | [E | [E | [E | []]]]]; congruence.
Qed.

Lemma unknown_tool_iff_unlisted_witness :
  handle_call_tool (exit_with 0 "" "") "delete-note" None [(PStr "a", PStr "b")]
  = (Raise (ValueError ("Unknown tool: " +:+ "delete-note")), [(PStr "a", PStr "b")], []).
Proof.
  refine (proj2 (unknown_tool_iff_unlisted (exit_with 0 "" "") "delete-note" None
            [(PStr "a", PStr "b")]) _).
  cbn. intros H. repeat (destruct H as [H|H]; [discriminate|]). exact H.
Defined.

(** X5. Every advertised tool, open-agenda-note included, rejects a call
    with no bag or an empty bag with "Missing arguments", before doing
    anything. *)
Theorem missing_arguments_rejected (P : platform) (name : string)
    (arguments : option args) (notes : store) :
  In name (map Tool.name handle_list_tools) ->
  arguments = None \/ arguments = Some ∅ ->
  handle_call_tool P name arguments notes
    = (Raise (ValueError "Missing arguments"), notes, []).
Proof.
  intros Hin Harg.
  assert (Hna : not_arguments arguments = true) by now destruct Harg as [-> | ->].
  cbn in Hin. destruct Hin as [<- | [<- | [<- | [<- | []]]]].
  - destruct (add_note_outcome P arguments notes)
      as [[_ E] | [(d & -> & _ & _) | (d & -> & Hv & _)]]; [exact E | |].
    + cbn [not_arguments] in Hna. apply bool_decide_eq_true in Hna. subst d.
      destruct Harg as [? | _]; [discriminate | reflexivity].
    + cbn [not_arguments] in Hna. apply bool_decide_eq_true in Hna. subst d.
      discriminate.
  - apply (url_tool_empty P CreateNote), Hna.
  - apply (url_tool_empty P CreateProject), Hna.
  - apply (url_tool_empty P OpenNote), Hna.
Qed.

Lemma missing_arguments_rejected_witness :
  handle_call_tool (exit_with 0 "" "") "open-agenda-note" (Some ∅) notes_init
  = (Raise (ValueError "Missing arguments"), notes_init, []).
Proof.
  refine (missing_arguments_rejected (exit_with 0 "" "") "open-agenda-note" (Some ∅)
            notes_init _ _).
  - cbn. tauto.
  - now right.
Defined.



(** ** The other two builders: order of the query *)

Lemma opt_verbatim_names (d : args) (key name : string) :
  str_mem "=" name = false ->
  map param_name (opt_verbatim d key name) = if has_key d key then [name] else [].
Proof.
  intros Hn. unfold opt_verbatim.
  destruct (d !! key) as [v|] eqn:E.
  - rewrite (has_key_Some _ _ _ E). cbn [map]. now rewrite param_name_app.
  - now rewrite (has_key_None _ _ E).
Qed.

(** The parameters create-agenda-project appends, before they are
    joined. *)
Lemma create_project_params_order (d : args) (params : list string) :
  create_project_params d = Return params ->
  map param_name params
    = "title" :: map snd (List.filter (fun kn => has_key d kn.1) project_optional)
  /\ (forall key name, In (key, name) project_optional ->
        (In name (map param_name params) <-> is_Some (d !! key)))
  /\ (1 <= length params <= 5)%nat.
Proof.
  intros Hp.
  assert (Hwf : create_project_well_formed d = true)
    by (apply create_project_params_accepts; eauto).
  destruct (create_project_params_eq d Hwf) as (t & Ht & E).
  rewrite E in Hp. apply Return_inj in Hp. subst params.
  unfold create_project_well_formed in Hwf. cbn [forallb] in Hwf.
  rewrite !andb_true_iff in Hwf. destruct Hwf as (_ & H1 & H2 & _).
  assert (Hnames :
    map param_name
      ((((["title=" +:+ quote_from_bytes "/" t]
          ++ opt_quoted d "category_title" "category-title")
          ++ opt_quoted d "identifier" "identifier")
          ++ opt_lowered d "select" "select")
          ++ opt_verbatim d "sort_order" "sort-order")
    = "title" :: map snd (List.filter (fun kn => has_key d kn.1) project_optional)).
  { rewrite !map_app.
    rewrite !opt_quoted_names by (reflexivity || assumption).
    rewrite opt_lowered_names, opt_verbatim_names by reflexivity.
    cbn [map].
    change (param_name ("title=" +:+ quote_from_bytes "/" t)) with "title".
    unfold project_optional.
    rewrite !filter_cons_app, !map_app, !map_snd_if. cbn [fst snd List.filter map].
    rewrite app_nil_r, <- !app_assoc. reflexivity. }
  split; [exact Hnames|]. split.
  - intros key name Hin. rewrite Hnames, <- has_key_is_Some.
    assert (Hnd : NoDup (map snd project_optional)).
    { apply NoDup_ListNoDup. repeat constructor; simpl; intuition discriminate. }
    rewrite <- (in_names_filter (fun kn => has_key d kn.1) project_optional key name
                  Hnd Hin).
    split; [|intros H; now right].
    intros [E'|H]; [|exact H]. exfalso. subst name. simpl in Hin.
    repeat (destruct Hin as [Hin|Hin]; [discriminate|]). exact Hin.
  - rewrite <- (length_map param_name), Hnames. cbn [length].
    rewrite length_map.
    pose proof (filter_length_le (fun kn => has_key d kn.1) project_optional) as Hle.
    change (length project_optional) with 4%nat in Hle. lia.
Qed.

(** The parameters open-agenda-note appends, before they are joined. *)
Lemma open_note_params_order (d : args) (params : list string) :
  open_note_params d = Return params ->
  map param_name params
    = map snd (List.filter (fun kn => has_key d kn.1) open_note_fields)
  /\ (forall key name, In (key, name) open_note_fields ->
        (In name (map param_name params) <-> is_Some (d !! key)))
  /\ (tool_gate OpenNote d = true -> params <> []).
Proof.
  intros Hp.
  assert (Hwf : open_note_well_formed d = true)
    by (apply open_note_params_accepts; eauto).
  rewrite (open_note_params_eq d Hwf) in Hp. apply Return_inj in Hp. subst params.
  unfold open_note_well_formed in Hwf. cbn [forallb] in Hwf.
  rewrite !andb_true_iff in Hwf. destruct Hwf as (H1 & H2 & H3 & _).
  assert (Hnames :
    map param_name
      ((((opt_quoted d "title" "title")
          ++ opt_quoted d "identifier" "identifier")
          ++ opt_quoted d "project_title" "project-title")
          ++ opt_lowered d "separate_window" "separate-window")
    = map snd (List.filter (fun kn => has_key d kn.1) open_note_fields)).
  { rewrite !map_app.
    rewrite !opt_quoted_names by (reflexivity || assumption).
    rewrite opt_lowered_names by reflexivity.
    unfold open_note_fields.
    rewrite !filter_cons_app, !map_app, !map_snd_if. cbn [fst snd List.filter map].
    rewrite app_nil_r, <- !app_assoc. reflexivity. }
  split; [exact Hnames|]. split.
  - intros key name Hin. rewrite Hnames, <- has_key_is_Some.
    assert (Hnd : NoDup (map snd open_note_fields)).
    { apply NoDup_ListNoDup. repeat constructor; simpl; intuition discriminate. }
    apply (in_names_filter (fun kn => has_key d kn.1) open_note_fields key name Hnd Hin).
  - intros Hg Hnil.
    apply (f_equal (map param_name)) in Hnil. rewrite Hnames in Hnil.
    cbn [tool_gate] in Hg. unfold open_note_fields in Hnil.
    rewrite !filter_cons_app, !map_app, !map_snd_if in Hnil.
    cbn [fst snd] in Hnil.
    destruct (has_key d "title"); [discriminate|].
    destruct (has_key d "identifier"); discriminate.
Qed.

(** X9. A builder produces a URL exactly for the bags whose string
    fields are typed as the schema says (required ones present); for
    every other bag it raises, a [KeyError] naming the missing title or
    text or the [TypeError] of [quote]. *)
Theorem builder_accepts_typed_bags (t : url_tool) (d : args) :
  (tool_well_formed t d = true <-> exists url, tool_url t d = Return url)
  /\ (tool_well_formed t d = false ->
      exists e, tool_url t d = Raise e /\ builder_error d e).
Proof.
  assert (Hiff : tool_well_formed t d = true <-> exists url, tool_url t d = Return url).
  { rewrite tool_params_accepts. split.
    - intros [params Hp]. rewrite (tool_url_eq t d params Hp). eauto.
    - intros [url Hu]. now apply tool_url_Return_params in Hu. }
  split; [exact Hiff|].
  intros Hwf. destruct (tool_url t d) as [url|e] eqn:Hu.
  - assert (H : tool_well_formed t d = true) by (apply Hiff; eauto). congruence.
  - exists e. split; [reflexivity|].
    apply (tool_params_errors t), tool_url_Raise_params, Hu.
Qed.

Lemma builder_accepts_typed_bags_witness :
  exists e,
    tool_url CreateNote (bag [("title", PStr "T"); ("text", PInt 3)]) = Raise e
    /\ builder_error (bag [("title", PStr "T"); ("text", PInt 3)]) e.
Proof.
  refine (proj2 (builder_accepts_typed_bags CreateNote
            (bag [("title", PStr "T"); ("text", PInt 3)])) _).
  vm_compute. reflexivity.
Defined.

(** X7. For every bag that conforms to the input schema of
    create-agenda-project, the query of the built URL, cut at [&], is
    title first, then category-title, identifier, select and sort-order
    in that order, each one there exactly when its key is in the bag. *)
Theorem create_project_url_query_order (d : args) (url : string) :
  tool_schema_ok CreateProject d = true ->
  create_project_url d = Return url ->
  url = "agenda://x-callback-url/create-project?" +:+ query_of url
  /\ map param_name (query_params url)
     = "title" :: map snd (List.filter (fun kn => has_key d kn.1) project_optional)
  /\ (forall key name, In (key, name) project_optional ->
        (In name (map param_name (query_params url)) <-> is_Some (d !! key)))
  /\ (1 <= length (query_params url) <= 5)%nat.
Proof.
  intros Hok Hu.
  pose proof (url_query_params CreateProject d url Hok eq_refl Hu) as Hq.
  cbn [tool_params] in Hq.
  destruct (create_project_params_order d _ Hq) as (Hn & Hiff & Hlen).
  split; [|split; [exact Hn | split; [exact Hiff | exact Hlen]]].
  pose proof (tool_url_eq CreateProject d _ Hq) as Hu'. cbn [tool_url tool_base] in Hu'.
  rewrite Hu in Hu'. apply Return_inj in Hu'.
  rewrite Hu' at 2. now rewrite (query_of_tool_url CreateProject).
Qed.

Lemma create_project_url_query_order_witness :
  map param_name
    (query_params
       "agenda://x-callback-url/create-project?title=P&identifier=id%201&sort-order=oldest-first")
  = ["title"; "identifier"; "sort-order"].
Proof.
  refine (eq_trans
            (proj1 (proj2 (create_project_url_query_order
               (bag [("title", PStr "P"); ("sort_order", PStr "oldest-first");
                     ("identifier", PStr "id 1")])
               "agenda://x-callback-url/create-project?title=P&identifier=id%201&sort-order=oldest-first"
               _ _))) _); vm_compute; reflexivity.
Defined.

(** X8. For every bag that conforms to the input schema of
    open-agenda-note and holds a title or an identifier, the query of the
    built URL, cut at [&], holds title, identifier, project-title and
    separate-window in that order, each one there exactly when its key
    is in the bag; the query is never empty. *)
Theorem open_note_url_query_order (d : args) (url : string) :
  tool_schema_ok OpenNote d = true ->
  tool_gate OpenNote d = true ->
  open_note_url d = Return url ->
  url = "agenda://x-callback-url/open-note?" +:+ query_of url
  /\ map param_name (query_params url)
     = map snd (List.filter (fun kn => has_key d kn.1) open_note_fields)
  /\ (forall key name, In (key, name) open_note_fields ->
        (In name (map param_name (query_params url)) <-> is_Some (d !! key)))
  /\ query_params url <> []
  /\ query_of url <> "".
Proof.
  intros Hok Hg Hu.
  pose proof (url_query_params OpenNote d url Hok Hg Hu) as Hq.
  cbn [tool_params] in Hq.
  destruct (open_note_params_order d _ Hq) as (Hn & Hiff & Hne).
  pose proof (tool_url_eq OpenNote d _ Hq) as Hu'. cbn [tool_url tool_base] in Hu'.
  rewrite Hu in Hu'. apply Return_inj in Hu'.
  assert (Hq' : query_of url = join "&" (query_params url)).
  { rewrite Hu' at 1. now rewrite (query_of_tool_url OpenNote). }
  split; [rewrite Hu' at 2; now rewrite (query_of_tool_url OpenNote)|].
  split; [exact Hn|]. split; [exact Hiff|]. split; [exact (Hne Hg)|].
  intros Hempty.
  assert (Hsplit : query_params url = [""]).
  { unfold query_params. now rewrite Hempty. }
  rewrite Hsplit in Hn. cbn [map param_name] in Hn.
  unfold open_note_fields in Hn.
  rewrite !filter_cons_app, !map_app, !map_snd_if in Hn. cbn [fst snd] in Hn.
  cbn [tool_gate] in Hg.
  destruct (has_key d "title"); [discriminate|].
  destruct (has_key d "identifier"); discriminate.
Qed.

Lemma open_note_url_query_order_witness :
  map param_name
    (query_params "agenda://x-callback-url/open-note?identifier=N1&separate-window=true")
  = ["identifier"; "separate-window"].
Proof.
  refine (eq_trans
            (proj1 (proj2 (open_note_url_query_order
               (bag [("separate_window", PBool true); ("identifier", PStr "N1")])
               "agenda://x-callback-url/open-note?identifier=N1&separate-window=true"
               _ _ _))) _); vm_compute; reflexivity.
Defined.

(** ** Bags that conform to the advertised input schema *)

Lemma str_prop_conforms (d : args) (key : string) :
  property_conforms d (str_prop key) = true -> str_optional d key = true.
Proof.
  unfold property_conforms, str_optional, value_conforms, str_prop.
  cbn [prop_key prop_type prop_enum].
  destruct (d !! key) as [[| | |s]|]; intros H; first [discriminate H | reflexivity].
Qed.

Lemma bool_prop_conforms (d : args) (key : string) :
  property_conforms d (bool_prop key) = true -> bool_optional d key = true.
Proof.
  unfold property_conforms, bool_optional, value_conforms, bool_prop.
  cbn [prop_key prop_type prop_enum].
  destruct (d !! key) as [[| | |s]|]; intros H; first [discriminate H | reflexivity].
Qed.

Lemma sort_order_conforms (d : args) :
  property_conforms d
    {| prop_key := "sort_order"; prop_type := JString;
       prop_enum := Some ["newest-first"; "oldest-first"] |} = true ->
  enum_optional d "sort_order" = true.
Proof.
  unfold property_conforms, enum_optional, value_conforms.
  cbn [prop_key prop_type prop_enum existsb].
  destruct (d !! "sort_order") as [[| | |s]|]; intros H;
    first [discriminate H | reflexivity | idtac].
  now rewrite orb_false_r in H.
Qed.

Lemma required_str (d : args) (key : string) :
  has_key d key = true -> str_optional d key = true -> str_required d key = true.
Proof.
  intros [v Hv]%has_key_is_Some. unfold str_optional, str_required. now rewrite Hv.
Qed.

Lemma conforms_schema_ok (t : url_tool) (s : InputSchema) (d : args) :
  tool_schema t = Some s -> conforms s d = true -> tool_schema_ok t d = true.
Proof.
  destruct t; vm_compute tool_schema; intros [= <-]; unfold conforms;
    cbn [schema_required schema_properties from_option id forallb];
    rewrite !andb_true_iff; intros H;
    unfold tool_schema_ok;
    cbn [tool_well_formed bool_fields verbatim_fields forallb fst];
    [unfold create_note_well_formed
    |unfold create_project_well_formed
    |unfold open_note_well_formed];
    cbn [forallb]; rewrite !andb_true_iff;
    repeat match goal with
           | |- _ /\ _ => split
           | |- true = true => reflexivity
           | |- str_required _ _ = true => apply required_str; [tauto|]
           | |- str_optional _ _ = true => apply str_prop_conforms; tauto
           | |- bool_optional _ _ = true => apply bool_prop_conforms; tauto
           | |- enum_optional _ _ = true => apply sort_order_conforms; tauto
           end.
Qed.

(** X10. A call of an Agenda tool whose bag conforms to the input schema
    that list-tools advertises for it (and, for open-agenda-note, holds a
    title or an identifier) never raises: a URL is built and handed to
    [open] once, one text block comes back and the store is unchanged,
    whatever [open] does. *)
Theorem schema_conforming_call_returns (P : platform) (t : url_tool)
    (s : InputSchema) (d : args) (notes : store) :
  tool_schema t = Some s ->
  conforms s d = true ->
  tool_gate t d = true ->
  exists url text,
    tool_url t d = Return url
    /\ handle_call_tool P (tool_name t) (Some d) notes
         = (Return [text_block text], notes, [RunOpen url]).
Proof.
  intros Hs Hc Hg.
  pose proof (conforms_schema_ok t s d Hs Hc) as Hok.
  unfold tool_schema_ok in Hok. rewrite !andb_true_iff in Hok.
  destruct Hok as [[Hwf _] _].
  apply tool_params_accepts in Hwf as [params Hp].
  pose proof (tool_url_eq t d params Hp) as Hu.
  eexists _, _. split; [exact Hu|].
  apply (url_tool_built P t d notes _ (built_url_nonempty t d _ Hg Hu) Hg Hu).
Qed.

Lemma schema_conforming_call_returns_witness :
  exists url text,
    tool_url CreateProject
      (bag [("title", PStr "P"); ("select", PBool true); ("extra", PInt 1)]) = Return url
    /\ handle_call_tool (exit_with 3 "" "") "create-agenda-project"
         (Some (bag [("title", PStr "P"); ("select", PBool true); ("extra", PInt 1)]))
         notes_init
       = (Return [text_block text], notes_init, [RunOpen url]).
Proof.
  refine (schema_conforming_call_returns (exit_with 3 "" "") CreateProject
            {| schema_properties :=
                 [ str_prop "title"; str_prop "category_title"; str_prop "identifier";
                   bool_prop "select";
                   {| prop_key := "sort_order"; prop_type := JString;
                      prop_enum := Some ["newest-first"; "oldest-first"] |} ];
               schema_required := Some ["title"] |}
            (bag [("title", PStr "P"); ("select", PBool true); ("extra", PInt 1)])
            notes_init _ _ _); vm_compute; reflexivity.
Defined.

(** X11. The add-note schema does not say that the strings are
    non-empty: a conforming bag is accepted exactly when name and content
    are both non-empty, and then the note is stored, the change is
    announced once and the confirmation names both. *)
Theorem add_note_schema_conforming (P : platform) (s : InputSchema) (d : args)
    (notes : store) :
  Tool.inputSchema <$> find_tool "add-note" = Some s ->
  conforms s d = true ->
  exists n c,
    d !! "name" = Some (PStr n) /\ d !! "content" = Some (PStr c)
    /\ (n <> "" /\ c <> "" ->
        handle_call_tool P "add-note" (Some d) notes
          = (Return [text_block ("Added note '" +:+ n +:+ "' with content: " +:+ c)],
             dict_set (PStr n) (PStr c) notes, [ResourceListChanged]))
    /\ (n = "" \/ c = "" ->
        handle_call_tool P "add-note" (Some d) notes
          = (Raise (ValueError "Missing name or content"), notes, [])).
Proof.
  vm_compute (Tool.inputSchema <$> find_tool "add-note"). intros [= <-].
  unfold conforms. cbn [schema_required schema_properties from_option id forallb].
  rewrite !andb_true_iff. intros [(Hn & Hc & _) (Hpn & Hpc & _)].
  apply str_prop_conforms in Hpn, Hpc.
  destruct (str_required_inv d "name" (required_str d "name" Hn Hpn)) as [n Hn'].
  destruct (str_required_inv d "content" (required_str d "content" Hc Hpc)) as [c Hc'].
  clear Hn Hc. rename Hn' into Hn, Hc' into Hc.
  exists n, c. split; [exact Hn|]. split; [exact Hc|].
  assert (Hname : note_name_of d = PStr n)
    by (unfold note_name_of, get_default; now rewrite Hn).
  assert (Hcont : content_of d = PStr c)
    by (unfold content_of, get_default; now rewrite Hc).
  split.
  - intros [Hne Hce].
    rewrite (add_note_valid_run P d notes), Hname, Hcont; [reflexivity|].
    unfold add_note_valid. rewrite Hname, Hcont. cbn [truthy].
    apply String.eqb_neq in Hne, Hce. now rewrite Hne, Hce.
  - intros Hempty.
    destruct (add_note_outcome P (Some d) notes)
      as [[Hna _] | [(d' & [= <-] & _ & E) | (d' & [= <-] & Hv & _)]].
    + cbn [not_arguments] in Hna. apply bool_decide_eq_true in Hna. subst d.
      rewrite lookup_empty in Hn. discriminate.
    + exact E.
    + unfold add_note_valid in Hv. rewrite Hname, Hcont in Hv. cbn [truthy] in Hv.
      destruct Hempty as [-> | ->]; cbn in Hv;
        rewrite ?andb_false_r in Hv; discriminate.
Qed.

Lemma add_note_schema_conforming_witness :
  exists n c,
    bag [("name", PStr ""); ("content", PStr "body")] !! "name" = Some (PStr n)
    /\ bag [("name", PStr ""); ("content", PStr "body")] !! "content" = Some (PStr c)
    /\ (n = "" \/ c = "" ->
        handle_call_tool (exit_with 0 "" "") "add-note"
          (Some (bag [("name", PStr ""); ("content", PStr "body")])) notes_init
        = (Raise (ValueError "Missing name or content"), notes_init, [])).
Proof.
  destruct (add_note_schema_conforming (exit_with 0 "" "")
              {| schema_properties := [str_prop "name"; str_prop "content"];
                 schema_required := Some ["name"; "content"] |}
              (bag [("name", PStr ""); ("content", PStr "body")]) notes_init)
    as (n & c & Hn & Hc & _ & H); [reflexivity | vm_compute; reflexivity |].
  exists n, c. split; [exact Hn|]. split; [exact Hc | exact H].
Defined.

(** ** The alphabet of a callback URL *)

Lemma str_forall_join (p : ascii -> bool) (sep : string) (parts : list string) :
  str_forall p sep = true ->
  Forall (fun x => str_forall p x = true) parts ->
  str_forall p (join sep parts) = true.
Proof.
  intros Hsep. induction parts as [|x [|y rest] IH]; intros Hall.
  - reflexivity.
  - now apply Forall_inv in Hall.
  - apply Forall_cons in Hall as [Hx Hall].
    change (join sep (x :: y :: rest)) with (x +:+ sep +:+ join sep (y :: rest)).
    rewrite !str_forall_app, Hx, Hsep, (IH Hall). reflexivity.
Qed.

Lemma quoted_char_url_char (c : ascii) : quoted_char c = true -> url_char c = true.
Proof. destruct c as [[] [] [] [] [] [] [] []]; vm_compute; congruence. Qed.

Lemma param_url_chars (name value : string) :
  str_forall url_char name = true -> str_forall url_char value = true ->
  str_forall url_char (name +:+ "=" +:+ value) = true.
Proof. intros Hn Hv. now rewrite !str_forall_app, Hn, Hv. Qed.

Lemma quote_url_chars (s : string) :
  str_forall url_char (quote_from_bytes "/" s) = true.
Proof.
  apply (str_forall_impl quoted_char); [apply quoted_char_url_char | apply quote_chars].
Qed.

Lemma opt_quoted_url_chars (d : args) (key name : string) :
  str_forall url_char name = true ->
  Forall (fun p => str_forall url_char p = true) (opt_quoted d key name).
Proof.
  intros Hn. unfold opt_quoted.
  destruct (d !! key) as [[| | |s]|]; try constructor; [|constructor].
  apply param_url_chars; [exact Hn | apply quote_url_chars].
Qed.

Lemma opt_lowered_url_chars (d : args) (key name : string) :
  str_forall url_char name = true -> bool_optional d key = true ->
  Forall (fun p => str_forall url_char p = true) (opt_lowered d key name).
Proof.
  intros Hn. unfold opt_lowered, bool_optional.
  destruct (d !! key) as [[|b| |]|]; try discriminate; intros _; constructor;
    [|constructor].
  apply param_url_chars; [exact Hn | now destruct b].
Qed.

Lemma opt_verbatim_url_chars (d : args) (key name : string) :
  str_forall url_char name = true -> enum_optional d key = true ->
  Forall (fun p => str_forall url_char p = true) (opt_verbatim d key name).
Proof.
  intros Hn. unfold opt_verbatim, enum_optional.
  destruct (d !! key) as [[| | |s]|]; try discriminate; [|constructor].
  rewrite orb_true_iff, !String.eqb_eq. intros Hs. constructor; [|constructor].
  apply param_url_chars; [exact Hn | now destruct Hs as [-> | ->]].
Qed.

Ltac url_chars :=
  repeat first
    [ apply Forall_app; split
    | apply opt_quoted_url_chars; reflexivity
    | apply opt_lowered_url_chars; [reflexivity | tauto]
    | apply opt_verbatim_url_chars; [reflexivity | tauto] ].

Lemma params_url_chars (t : url_tool) (d : args) (params : list string) :
  tool_schema_ok t d = true ->
  tool_params t d = Return params ->
  Forall (fun p => str_forall url_char p = true) params.
Proof.
  unfold tool_schema_ok. rewrite !andb_true_iff. intros [[Hwf Hb] He] Hp.
  destruct t; cbn [tool_well_formed tool_params bool_fields verbatim_fields forallb fst]
    in Hwf, Hb, He, Hp;
    repeat rewrite andb_true_iff in Hb; repeat rewrite andb_true_iff in He.
  - destruct (create_note_params_eq d Hwf) as (tt & x & _ & _ & E).
    rewrite E in Hp. apply Return_inj in Hp. subst params.
    url_chars.
    repeat apply Forall_cons_2; [| |constructor].
    + apply (param_url_chars "title"); [reflexivity | apply quote_url_chars].
    + apply (param_url_chars "text"); [reflexivity | apply quote_url_chars].
  - destruct (create_project_params_eq d Hwf) as (tt & _ & E).
    rewrite E in Hp. apply Return_inj in Hp. subst params.
    url_chars.
    repeat apply Forall_cons_2; [|constructor].
    apply (param_url_chars "title"); [reflexivity | apply quote_url_chars].
  - rewrite (open_note_params_eq d Hwf) in Hp. apply Return_inj in Hp. subst params.
    url_chars.
Qed.

(** X12. The callback URL built from a schema-conforming bag is plain
    ASCII made of letters, digits, [_.-~] and [: / ? = & %] only (no
    space, no [#], no byte above 127), it is the tool's base address, a
    [?] and the parameters joined by [&], and cutting the query at [&]
    gives the parameters back. *)
Theorem callback_url_well_formed (t : url_tool) (d : args) (url : string) :
  tool_schema_ok t d = true ->
  tool_gate t d = true ->
  tool_url t d = Return url ->
  str_forall url_char url = true
  /\ str_mem " " url = false /\ str_mem "#" url = false
  /\ exists params,
       tool_params t d = Return params
       /\ url = tool_base t +:+ "?" +:+ join "&" params
       /\ split_on "&" (join "&" params) = params.
Proof.
  intros Hok Hg Hu.
  destruct (tool_url_Return_params t d url Hu) as [params Hp].
  pose proof (tool_url_eq t d params Hp) as Hu'.
  assert (Hurl : url = tool_base t +:+ "?" +:+ join "&" params) by congruence.
  assert (Hchars : str_forall url_char url = true).
  { rewrite Hurl, !str_forall_app.
    rewrite (str_forall_join url_char "&" params eq_refl
               (params_url_chars t d params Hok Hp)).
    now destruct t. }
  split; [exact Hchars|].
  split; [apply (str_forall_not_mem url_char); [reflexivity | exact Hchars]|].
  split; [apply (str_forall_not_mem url_char); [reflexivity | exact Hchars]|].
  exists params. split; [exact Hp|]. split; [exact Hurl|].
  apply (query_splits t d params Hok); [|exact Hp].
  intros ->. exact Hg.
Qed.

Lemma callback_url_well_formed_witness :
  str_forall url_char
    "agenda://x-callback-url/create-note?title=caf%C3%A9%20%231&text=a%26b&pinned=true"
  = true.
Proof.
  refine (proj1 (callback_url_well_formed CreateNote
            (bag [("title", PStr (String (ascii_of_nat 99) (String (ascii_of_nat 97)
                     (String (ascii_of_nat 102) (String (ascii_of_nat 195)
                     (String (ascii_of_nat 169) " #1"))))));
                  ("text", PStr "a&b"); ("pinned", PBool true)])
            _ _ _ _)); vm_compute; reflexivity.
Defined.

(** ** The note store over a session *)

Lemma dict_get_None_keys (k : pyval) (d : store) :
  dict_get k d = None <-> ~ In (key_of k) (map (fun kv => key_of kv.1) d).
Proof.
  induction d as [|[k0 v0] d IH]; cbn [dict_get map In fst].
  - tauto.
  - destruct (py_eq k0 k) eqn:E.
    + apply py_eq_key in E. split; [discriminate | tauto].
    + rewrite IH. split; [|tauto].
      intros H [Hk | Hin]; [|tauto].
      apply py_eq_key in Hk. congruence.
Qed.

Lemma dict_set_keys_new (k v : pyval) (d : store) :
  dict_get k d = None -> map fst (dict_set k v d) = map fst d ++ [k].
Proof.
  induction d as [|[k0 v0] d IH]; cbn [dict_get dict_set map app fst]; [reflexivity|].
  destruct (py_eq k0 k); [discriminate|]. intros H. cbn [map fst]. now rewrite IH.
Qed.

Lemma dict_set_truthy (k v : pyval) (d : store) :
  truthy k = true -> truthy v = true ->
  Forall (fun kv => truthy kv.1 = true /\ truthy kv.2 = true) d ->
  Forall (fun kv => truthy kv.1 = true /\ truthy kv.2 = true) (dict_set k v d).
Proof.
  intros Hk Hv. induction d as [|[k0 v0] d IH]; intros Hd; cbn [dict_set].
  - repeat constructor; assumption.
  - apply Forall_cons in Hd as [[H0 H1] Hd]. cbn [fst snd] in H0, H1.
    destruct (py_eq k0 k); constructor; cbn [fst snd]; auto.
Qed.

Lemma map_key_of_fst (d : store) :
  map (fun kv => key_of kv.1) d = map key_of (map fst d).
Proof. now rewrite map_map. Qed.

Lemma dict_set_store_ok (k v : pyval) (d : store) :
  truthy k = true -> truthy v = true -> store_ok d -> store_ok (dict_set k v d).
Proof.
  intros Hk Hv [Ht Hnd]. split; [now apply dict_set_truthy|].
  rewrite map_key_of_fst in *.
  destruct (dict_get k d) as [w|] eqn:E.
  - rewrite dict_set_keys_old by (rewrite E; eauto). exact Hnd.
  - rewrite (dict_set_keys_new k v d E), map_app. cbn [map].
    apply NoDup_app. split; [exact Hnd|]. split; [|apply NoDup_singleton].
    intros x Hx ->%list_elem_of_singleton.
    apply dict_get_None_keys in E. apply E.
    rewrite map_key_of_fst. now apply list_elem_of_In.
Qed.

Lemma store_ok_get (d : store) (k v : pyval) :
  store_ok d -> In (k, v) d -> dict_get k d = Some v.
Proof.
  intros [_ Hnd]. induction d as [|[k0 v0] d IH]; [intros []|].
  cbn [map fst] in Hnd. apply NoDup_cons in Hnd as [Hn Hnd].
  intros [[= -> ->] | Hin]; cbn [dict_get].
  - now rewrite py_eq_refl.
  - destruct (py_eq k0 k) eqn:E; [|now apply IH].
    exfalso. apply Hn. apply py_eq_key in E. rewrite E.
    apply list_elem_of_In, in_map_iff. exists (k, v). split; [reflexivity | exact Hin].
Qed.

Lemma call_tool_store (P : platform) (name : string) (arguments : option args)
    (notes : store) :
  (store_after (handle_call_tool P name arguments notes) = notes
   /\ notifications (trace_of (handle_call_tool P name arguments notes)) = 0%nat)
  \/ (exists d, name = "add-note" /\ arguments = Some d /\ add_note_valid d = true
      /\ store_after (handle_call_tool P name arguments notes)
           = dict_set (note_name_of d) (content_of d) notes
      /\ notifications (trace_of (handle_call_tool P name arguments notes)) = 1%nat).
Proof.
  destruct (find_tool_cases name) as [[-> _] | [(t & -> & _) | (Hf & H1 & H2 & H3 & H4)]].
  - destruct (add_note_outcome P arguments notes)
      as [[_ E] | [(d & _ & _ & E) | (d & -> & Hv & E)]]; rewrite E.
    + now left.
    + now left.
    + right. exists d. repeat split; assumption.
  - left.
    destruct (url_tool_outcome P t arguments notes)
      as [[_ E] | [(d & _ & _ & _ & _ & E) | [(d & e & _ & _ & _ & _ & E)
                                              | (d & url & text & _ & _ & _ & _ & E)]]];
      rewrite E; split; reflexivity.
  - left. rewrite (unknown_tool_run P name arguments notes H1 H2 H3 H4).
    split; reflexivity.
Qed.

Lemma notifications_app (a b : list event) :
  notifications (a ++ b) = (notifications a + notifications b)%nat.
Proof. unfold notifications. now rewrite List.filter_app, length_app. Qed.

(** X13. Whatever tool calls a session makes, with whatever arguments,
    the note store starting empty only ever holds notes whose name and
    content are truthy (for strings: non-empty), never holds two entries
    under the same key, and finds every entry it holds under its own
    name. *)
Theorem session_store_invariant (P : platform) (calls : list (string * option args))
    (notes : store) :
  store_ok notes ->
  store_ok (run_calls P calls notes).1
  /\ (forall k v, In (k, v) (run_calls P calls notes).1 ->
        truthy k = true /\ truthy v = true
        /\ dict_get k (run_calls P calls notes).1 = Some v).
Proof.
  intros Hok.
  assert (H : store_ok (run_calls P calls notes).1).
  { revert notes Hok. induction calls as [|[name arguments] calls IH]; intros notes Hok.
    - exact Hok.
    - cbn [run_calls fst]. apply IH.
      destruct (call_tool_store P name arguments notes)
        as [[-> _] | (d & _ & _ & Hv & -> & _)]; [exact Hok|].
      unfold add_note_valid in Hv. apply andb_true_iff in Hv as [Hn Hc].
      now apply dict_set_store_ok. }
  split; [exact H|].
  intros k v Hin. pose proof H as [Ht _].
  rewrite Forall_forall in Ht.
  destruct (Ht (k, v)) as [Hk Hv]; [now apply list_elem_of_In|].
  repeat split; [exact Hk | exact Hv | now apply store_ok_get].
Qed.

Lemma session_store_invariant_witness :
  store_ok
    (run_calls (exit_with 0 "" "")
       [("add-note", Some (bag [("name", PInt 1); ("content", PStr "one")]));
        ("add-note", Some (bag [("name", PBool true); ("content", PStr "yes")]));
        ("add-note", Some (bag [("name", PStr ""); ("content", PStr "no")]))]
       notes_init).1.
Proof.
  refine (proj1 (session_store_invariant (exit_with 0 "" "") _ notes_init _)).
  split; constructor.
Defined.



Lemma notifications_count (P : platform) (calls : list (string * option args))
    (notes : store) :
  (length (run_calls P calls notes).1
     <= length notes + notifications (run_calls P calls notes).2)%nat
  /\ notifications (run_calls P calls notes).2
     = length (List.filter
         (fun c => String.eqb c.1 "add-note"
                   && match c.2 with Some d => add_note_valid d | None => false end)
         calls).
Proof.
  revert notes. induction calls as [|[name arguments] calls IH]; intros notes.
  - cbn. split; [lia | reflexivity].
  - cbn [run_calls fst snd List.filter]. rewrite notifications_app.
    destruct (IH (store_after (handle_call_tool P name arguments notes))) as [Hlen Hcount].
    rewrite Hcount.
    destruct (call_tool_store P name arguments notes)
      as [[E En] | (d & -> & -> & Hv & E & En)]; rewrite E in *; rewrite En.
    + split; [lia|].
      destruct (String.eqb_spec name "add-note") as [->|]; [|reflexivity].
      destruct arguments as [d|]; [|reflexivity].
      destruct (add_note_valid d) eqn:Hv; [|reflexivity].
      rewrite (add_note_valid_run P d notes Hv) in En. discriminate.
    + cbn [String.eqb Ascii.eqb Bool.eqb andb]. rewrite Hv. cbn [length]. split; [|lia].
      destruct (dict_get (note_name_of d) notes) eqn:Eg.
      * rewrite dict_set_length_old in Hlen by (rewrite Eg; eauto). lia.
      * rewrite dict_set_length_new in Hlen by exact Eg. lia.
Qed.

(** X15. Every note in the store was announced: over a session the
    store grows by at most the number of resource-list-changed
    notifications sent.  At most one notification is sent for each
    add-note call that passes validation, and when the names of those
    calls are strings exactly one, also for a call that only
    overwrites; no other call sends any. *)
Theorem store_growth_is_announced (P : platform) (calls : list (string * option args))
    (notes : store) :
  (length (run_calls P calls notes).1
     <= length notes + notifications (run_calls P calls notes).2)%nat
  /\ (notifications (run_calls P calls notes).2
      <= length (List.filter
           (fun c => String.eqb c.1 "add-note"
                     && match c.2 with Some d => add_note_valid d | None => false end)
           calls))%nat
  /\ (Forall (fun c => forall d, c = ("add-note", Some d) -> add_note_valid d = true ->
                       is_str (note_name_of d) = true) calls ->
      notifications (run_calls P calls notes).2
      = length (List.filter
          (fun c => String.eqb c.1 "add-note"
                    && match c.2 with
                       | Some d => add_note_valid d && is_str (note_name_of d)
                       | None => false
                       end)
          calls)).
Proof.
  destruct (notifications_count P calls notes) as [Hlen Hcount].
  split; [exact Hlen|]. split; [rewrite Hcount; lia|].
  intros Hstr. rewrite Hcount. clear Hlen Hcount. f_equal.
  induction calls as [|[name arguments] calls IH]; [reflexivity|].
  apply Forall_cons in Hstr as [Hc Hstr].
  cbn [List.filter fst snd]. rewrite (IH Hstr).
  destruct (String.eqb_spec name "add-note") as [->|]; [|reflexivity].
  destruct arguments as [d|]; [|reflexivity].
  destruct (add_note_valid d) eqn:Hv; [|reflexivity].
  now rewrite (Hc d eq_refl Hv).
Qed.

Lemma store_growth_is_announced_witness :
  notifications
    (run_calls (exit_with 0 "" "")
       [("add-note", Some (bag [("name", PStr "a"); ("content", PStr "1")]));
        ("open-agenda-note", Some (bag [("title", PStr "a")]));
        ("add-note", Some (bag [("name", PStr "a"); ("content", PStr "2")]));
        ("add-note", Some (bag [("name", PStr ""); ("content", PStr "3")]))]
       notes_init).2
  = 2%nat.
Proof.
  refine (eq_trans
            (proj2 (proj2 (store_growth_is_announced (exit_with 0 "" "") _ notes_init)) _)
            _).
  - repeat constructor; intros d [= <-] _; reflexivity.
  - vm_compute. reflexivity.
Defined.

(** X16. add-note keeps the order of the store: a new name goes to the
    end, and adding a name that is already there leaves the sequence of
    names as it is (the note keeps its place). *)
Theorem add_note_keeps_order (P : platform) (d : args) (notes : store) :
  add_note_valid d = true ->
  map fst (store_after (handle_call_tool P "add-note" (Some d) notes))
  = match dict_get (note_name_of d) notes with
    | Some _ => map fst notes
    | None => map fst notes ++ [note_name_of d]
    end.
Proof.
  intros Hv. rewrite (add_note_valid_run P d notes Hv).
  unfold store_after. cbn [fst snd].
  destruct (dict_get (note_name_of d) notes) eqn:E.
  - apply dict_set_keys_old. rewrite E. eauto.
  - now apply dict_set_keys_new.
Qed.

Lemma add_note_keeps_order_witness :
  map fst (store_after (handle_call_tool (exit_with 0 "" "") "add-note"
             (Some (bag [("name", PStr "a"); ("content", PStr "new")]))
             [(PStr "a", PStr "old"); (PStr "b", PStr "x")]))
  = [PStr "a"; PStr "b"].
Proof.
  refine (add_note_keeps_order (exit_with 0 "" "")
            (bag [("name", PStr "a"); ("content", PStr "new")])
            [(PStr "a", PStr "old"); (PStr "b", PStr "x")] _).
  reflexivity.
Defined.

(** ** Reading notes back *)

Lemma lstrip_no_slash (p : string) : starts_with_slash (lstrip "/" p) = false.
Proof.
  induction p as [|c p IH]; [reflexivity|].
  cbn [lstrip str_mem]. destruct (Ascii.eqb c "/") eqn:E; [exact IH|].
  cbn [starts_with_slash]. exact E.
Qed.

Lemma lstrip_fixed (n : string) : starts_with_slash n = false -> lstrip "/" n = n.
Proof.
  destruct n as [|c n]; [reflexivity|].
  cbn [starts_with_slash lstrip str_mem]. now intros ->.
Qed.

Lemma lstrip_slashes_app (k : nat) (p : string) :
  lstrip "/" (slashes k +:+ p) = lstrip "/" p.
Proof.
  induction k as [|k IH]; [reflexivity|].
  change (slashes (S k) +:+ p) with (String "/" (slashes k +:+ p)).
  cbn [lstrip str_mem]. now rewrite Ascii.eqb_refl.
Qed.

(** X17. A note that add-note has just stored under a string name that
    does not begin with "/" is read back by read-resource, for any host
    and any number of leading slashes in the path; adding notes under
    other names afterwards does not change what is read. *)
Theorem add_then_read_round_trip (P : platform) (d : args) (notes : store)
    (n : string) (h : option string) (k : nat) :
  add_note_valid d = true ->
  note_name_of d = PStr n ->
  starts_with_slash n = false ->
  let notes' := store_after (handle_call_tool P "add-note" (Some d) notes) in
  handle_read_resource notes'
    {| scheme := "note"; host := h; path := Some (slashes (S k) +:+ n) |}
  = Return (content_of d)
  /\ (forall d', py_eq (note_name_of d') (PStr n) = false ->
        handle_read_resource
          (store_after (handle_call_tool P "add-note" (Some d') notes'))
          {| scheme := "note"; host := h; path := Some (slashes (S k) +:+ n) |}
        = Return (content_of d)).
Proof.
  intros Hv Hn Hs notes'.
  assert (Hget : dict_get (PStr n) notes' = Some (content_of d)).
  { unfold notes'. rewrite (add_note_valid_run P d notes Hv).
    unfold store_after. cbn [fst snd]. rewrite Hn. apply dict_get_set_eq. }
  split.
  - rewrite read_resource_note, lstrip_slashes_app, (lstrip_fixed n Hs).
    unfold store_subscript. now rewrite Hget.
  - intros d' Hne.
    rewrite read_resource_note, lstrip_slashes_app, (lstrip_fixed n Hs).
    unfold store_subscript.
    destruct (call_tool_store P "add-note" (Some d') notes')
      as [[-> _] | (d'' & _ & [= <-] & _ & -> & _)].
    + now rewrite Hget.
    + rewrite dict_get_set_ne by exact Hne. now rewrite Hget.
Qed.

Lemma add_then_read_round_trip_witness :
  handle_read_resource
    (store_after (handle_call_tool (exit_with 0 "" "") "add-note"
       (Some (bag [("name", PStr "foo"); ("content", PStr "bar")])) notes_init))
    {| scheme := "note"; host := None; path := Some (slashes 3 +:+ "foo") |}
  = Return (content_of (bag [("name", PStr "foo"); ("content", PStr "bar")])).
Proof.
  refine (proj1 (add_then_read_round_trip (exit_with 0 "" "")
            (bag [("name", PStr "foo"); ("content", PStr "bar")]) notes_init
            "foo" None 2 _ _ _)); reflexivity.
Defined.

(** X18. read-resource only ever returns the content of a note whose
    name is a string that does not begin with "/": notes stored under a
    name with a leading "/", or under a name that is not a string, cannot
    be read through any URI. *)
Theorem read_resource_reachable_names (notes : store) (uri : AnyUrl) (v : pyval) :
  handle_read_resource notes uri = Return v ->
  scheme uri = "note"
  /\ exists p n,
       path uri = Some p /\ n = lstrip "/" p
       /\ starts_with_slash n = false
       /\ dict_get (PStr n) notes = Some v.
Proof.
  unfold handle_read_resource.
  destruct (String.eqb_spec (scheme uri) "note") as [Hs|Hs]; cbn [negb]; [|discriminate].
  destruct (path uri) as [p|]; [|discriminate].
  unfold store_subscript.
  destruct (dict_get (PStr (lstrip "/" p)) notes) as [w|] eqn:E; [|discriminate].
  intros [= ->]. split; [exact Hs|].
  exists p, (lstrip "/" p). repeat split; [apply lstrip_no_slash | exact E].
Qed.

Lemma read_resource_reachable_names_witness :
  scheme {| scheme := "note"; host := None; path := Some "//a" |} = "note"
  /\ exists p n,
       path {| scheme := "note"; host := None; path := Some "//a" |} = Some p
       /\ n = lstrip "/" p
       /\ starts_with_slash n = false
       /\ dict_get (PStr n) [(PStr "/a", PStr "hidden"); (PStr "a", PStr "seen")]
          = Some (PStr "seen").
Proof.
  refine (read_resource_reachable_names
            [(PStr "/a", PStr "hidden"); (PStr "a", PStr "seen")]
            {| scheme := "note"; host := None; path := Some "//a" |} (PStr "seen") _).
  reflexivity.
Defined.

(** ** The prompt *)



Lemma join_snoc (sep x : string) (l : list string) :
  l <> [] -> join sep (l ++ [x]) = join sep l +:+ sep +:+ x.
Proof.
  induction l as [|y [|z rest] IH]; [contradiction | reflexivity |].
  intros _.
  change (join sep ((y :: z :: rest) ++ [x]))
    with (y +:+ sep +:+ join sep ((z :: rest) ++ [x])).
  rewrite IH by discriminate.
  change (join sep (y :: z :: rest)) with (y +:+ sep +:+ join sep (z :: rest)).
  now rewrite !append_assoc.
Qed.

Lemma get_prompt_text_of (notes : store) (arguments : option args) :
  exists text,
    handle_get_prompt notes "summarize-notes" arguments
      = Return {| description := "Summarize the current notes";
                  messages := [ {| role := "user"; content := text_block text |} ] |}
    /\ text = "Here are the current notes to summarize:"
              +:+ (if style_detailed arguments then " Give extensive details." else "")
              +:+ nl +:+ nl +:+ join nl (map note_line notes).
Proof.
  eexists. split; [|reflexivity].
  unfold handle_get_prompt. cbn [String.eqb Ascii.eqb Bool.eqb negb]. cbv zeta.
  rewrite style_is_detailed. reflexivity.
Qed.



(** X20. Adding a note under a new name to a store that is not empty
    extends the prompt by one line at the end: the new text is the old
    text, a newline and the line of the new note. *)
Theorem add_note_extends_prompt (P : platform) (d : args) (notes : store)
    (arguments : option args) (old : string) :
  add_note_valid d = true ->
  dict_get (note_name_of d) notes = None ->
  notes <> [] ->
  handle_get_prompt notes "summarize-notes" arguments
    = Return {| description := "Summarize the current notes";
                messages := [ {| role := "user"; content := text_block old |} ] |} ->
  handle_get_prompt
      (store_after (handle_call_tool P "add-note" (Some d) notes))
      "summarize-notes" arguments
  = Return {| description := "Summarize the current notes";
              messages :=
                [ {| role := "user";
                     content :=
                       text_block (old +:+ nl +:+ "- " +:+ py_str (note_name_of d)
                                     +:+ ": " +:+ py_str (content_of d)) |} ] |}.
Proof.
  intros Hv Hnew Hne Hold.
  destruct (get_prompt_text_of notes arguments) as (text & Hrun & Htext).
  rewrite Hrun in Hold. injection Hold as <-.
  destruct (get_prompt_text_of
              (store_after (handle_call_tool P "add-note" (Some d) notes)) arguments)
    as (text' & Hrun' & Htext').
  rewrite Hrun'. do 4 f_equal. rewrite Htext', Htext.
  rewrite (add_note_valid_run P d notes Hv). unfold store_after. cbn [fst snd].
  assert (Hset : dict_set (note_name_of d) (content_of d) notes
                 = notes ++ [(note_name_of d, content_of d)]).
  { clear -Hnew. induction notes as [|[k0 v0] notes IH]; [reflexivity|].
    cbn [dict_get dict_set app] in *.
    destruct (py_eq k0 (note_name_of d)); [discriminate|]. now rewrite IH. }
  rewrite Hset, map_app. cbn [map].
  rewrite join_snoc by (destruct notes; [contradiction | discriminate]).
  unfold note_line at 2. cbn [fst snd].
  rewrite !append_assoc. reflexivity.
Qed.

Lemma add_note_extends_prompt_witness :
  handle_get_prompt
      (store_after (handle_call_tool (exit_with 0 "" "") "add-note"
         (Some (bag [("name", PStr "b"); ("content", PStr "2")])) [(PStr "a", PStr "1")]))
      "summarize-notes" None
  = Return {| description := "Summarize the current notes";
              messages :=
                [ {| role := "user";
                     content :=
                       text_block
                         (("Here are the current notes to summarize:" +:+ nl +:+ nl
                             +:+ "- a: 1")
                          +:+ nl +:+ "- "
                          +:+ py_str (note_name_of (bag [("name", PStr "b"); ("content", PStr "2")]))
                          +:+ ": "
                          +:+ py_str (content_of (bag [("name", PStr "b"); ("content", PStr "2")]))) |} ] |}.
Proof.
  refine (add_note_extends_prompt (exit_with 0 "" "")
            (bag [("name", PStr "b"); ("content", PStr "2")]) [(PStr "a", PStr "1")]
            None _ _ _ _ _); try reflexivity. discriminate.
Defined.

(** X21. get-prompt answers exactly the prompt names that list-prompts
    advertises, whatever the store and the arguments are. *)
Theorem get_prompt_iff_listed (notes : store) (name : string) (arguments : option args) :
  (exists r, handle_get_prompt notes name arguments = Return r)
  <-> In name (map Prompt.name handle_list_prompts).
Proof.
  split.
  - intros [r H]. unfold handle_get_prompt in H.
    destruct (String.eqb_spec name "summarize-notes") as [->|]; [now left | discriminate].
  - intros H. cbn in H. destruct H as [<- | []].
    destruct (get_prompt_text_of notes arguments) as (text & -> & _). eauto.
Qed.

(** ** Listing the notes as resources *)

Lemma list_resources_cons (any_url : string -> res AnyUrl) (kv : pyval * pyval)
    (rest : store) :
  handle_list_resources any_url (kv :: rest)
  = (u ← any_url (resource_uri_text kv);
     rs ← handle_list_resources any_url rest;
     mret ({| Resource.uri := u;
              Resource.name := "Note: " +:+ py_str kv.1;
              Resource.description := "A simple note named " +:+ py_str kv.1;
              Resource.mimeType := "text/plain" |} :: rs)).
Proof. destruct kv as [k v]. reflexivity. Qed.

(** X22. When list-resources returns, it has one descriptor per note, in
    the order of the store: the URI is what [AnyUrl] made of
    [note://internal/<name>], the name is "Note: <name>", the description
    names the note and the MIME type is text/plain. *)
Theorem list_resources_one_per_note (any_url : string -> res AnyUrl) (notes : store)
    (rs : list Resource.t) :
  handle_list_resources any_url notes = Return rs ->
  length rs = length notes
  /\ Forall2
       (fun r kv =>
          any_url ("note://internal/" +:+ py_str kv.1) = Return (Resource.uri r)
          /\ Resource.name r = "Note: " +:+ py_str kv.1
          /\ Resource.description r = "A simple note named " +:+ py_str kv.1
          /\ Resource.mimeType r = "text/plain")
       rs notes.
Proof.
  revert rs. induction notes as [|kv notes IH]; intros rs H.
  - cbn in H. injection H as <-. split; [reflexivity | constructor].
  - rewrite list_resources_cons in H.
    apply res_bind_Return in H as (u & Hu & H).
    apply res_bind_Return in H as (rs' & Hrs & H).
    apply Return_inj in H. subst rs.
    destruct (IH rs' Hrs) as [Hlen Hall].
    split; [cbn [length]; now rewrite Hlen|].
    constructor; [|exact Hall]. cbn. repeat split. exact Hu.
Qed.

Lemma list_resources_one_per_note_witness :
  length [ {| Resource.uri := {| scheme := "note"; host := Some "internal";
                                 path := Some "/foo" |};
              Resource.name := "Note: foo";
              Resource.description := "A simple note named foo";
              Resource.mimeType := "text/plain" |} ]
  = length [(PStr "foo", PStr "bar")].
Proof.
  refine (proj1 (list_resources_one_per_note simple_any_url [(PStr "foo", PStr "bar")]
            _ _)).
  vm_compute. reflexivity.
Defined.

(** X23. list-resources is all or nothing: it returns exactly when
    [AnyUrl] accepts the URI text of every note, and otherwise raises the
    error of the first note, in store order, whose URI is rejected, so
    one such note hides all the others. *)
Theorem list_resources_all_or_nothing (any_url : string -> res AnyUrl) (notes : store) :
  ((exists rs, handle_list_resources any_url notes = Return rs)
   <-> Forall (fun kv => exists u, any_url (resource_uri_text kv) = Return u) notes)
  /\ (forall before kv after e,
        notes = before ++ kv :: after ->
        Forall (fun kv' => exists u, any_url (resource_uri_text kv') = Return u) before ->
        any_url (resource_uri_text kv) = Raise e ->
        handle_list_resources any_url notes = Raise e).
Proof.
  split.
  - induction notes as [|kv notes IH].
    + split; [constructor | intros _; now exists []].
    + rewrite list_resources_cons. split.
      * intros [rs H].
        apply res_bind_Return in H as (u & Hu & H).
        apply res_bind_Return in H as (rs' & Hrs & _).
        constructor; [eauto|]. apply IH. eauto.
      * intros H. apply Forall_cons in H as [[u Hu] H].
        apply IH in H as [rs' Hrs]. rewrite Hu, Hrs. cbn [mbind res_bind]. eauto.
  - intros before. revert notes.
    induction before as [|kv' before IH]; intros notes kv after e -> Hb He.
    + cbn [app]. rewrite list_resources_cons, He. reflexivity.
    + apply Forall_cons in Hb as [[u Hu] Hb].
      change ((kv' :: before) ++ kv :: after) with (kv' :: (before ++ kv :: after)).
      rewrite list_resources_cons, Hu. cbn [mbind res_bind].
      now rewrite (IH _ kv after e eq_refl Hb He).
Qed.

Lemma list_resources_all_or_nothing_witness :
  handle_list_resources
    (fun text => if String.eqb text "note://internal/b c"
                 then Raise (ValueError "Input should be a valid URL")
                 else simple_any_url text)
    [(PStr "a", PStr "1"); (PStr "b c", PStr "2"); (PStr "d", PStr "3")]
  = Raise (ValueError "Input should be a valid URL").
Proof.
  refine (proj2 (list_resources_all_or_nothing _ _)
            [(PStr "a", PStr "1")] (PStr "b c", PStr "2") [(PStr "d", PStr "3")]
            (ValueError "Input should be a valid URL") _ _ _).
  - reflexivity.
  - repeat constructor. eexists. vm_compute. reflexivity.
  - reflexivity.
Defined.

Lemma list_resources_uris (any_url : string -> res AnyUrl) (notes : store)
    (rs : list Resource.t) :
  handle_list_resources any_url notes = Return rs ->
  Forall2 (fun r kv => any_url (resource_uri_text kv) = Return (Resource.uri r)) rs notes.
Proof.
  revert rs. induction notes as [|kv notes IH]; intros rs H.
  - cbn in H. apply Return_inj in H. subst rs. constructor.
  - rewrite list_resources_cons in H.
    apply res_bind_Return in H as (u & Hu & H).
    apply res_bind_Return in H as (rs' & Hrs & H).
    apply Return_inj in H. subst rs. constructor; [exact Hu | now apply IH].
Qed.

(** X24. Listing and reading agree: when every note has a string name
    that does not begin with "/" and [AnyUrl] reads
    [note://internal/<name>] as scheme "note" with path [/<name>], reading
    the URI of each listed resource returns the content of the note it
    was listed for. *)
Theorem list_then_read (any_url : string -> res AnyUrl) (notes : store)
    (rs : list Resource.t) :
  store_ok notes ->
  (forall k v, In (k, v) notes ->
     exists n h,
       k = PStr n /\ starts_with_slash n = false
       /\ any_url ("note://internal/" +:+ n)
          = Return {| scheme := "note"; host := h; path := Some ("/" +:+ n) |}) ->
  handle_list_resources any_url notes = Return rs ->
  Forall2 (fun r kv => handle_read_resource notes (Resource.uri r) = Return kv.2)
    rs notes.
Proof.
  intros Hok Hurl Hrs.
  pose proof (list_resources_uris any_url notes rs Hrs) as Hall.
  assert (Hgen : forall sub rs',
    Forall2 (fun r kv => any_url (resource_uri_text kv) = Return (Resource.uri r))
      rs' sub ->
    (forall kv, In kv sub -> In kv notes) ->
    Forall2 (fun r kv => handle_read_resource notes (Resource.uri r) = Return kv.2)
      rs' sub).
  { intros sub rs' HQ.
    induction HQ as [|r [k v] rs' sub Hu _ IH]; intros Hsub; constructor.
    - pose proof (Hsub (k, v) (or_introl eq_refl)) as Hin.
      destruct (Hurl k v Hin) as (n & h & -> & Hs & Hp).
      unfold resource_uri_text in Hu. cbn [fst snd py_str] in *.
      rewrite Hp in Hu. apply Return_inj in Hu.
      rewrite <- Hu, read_resource_note, (lstrip_slash_name n Hs).
      unfold store_subscript.
      now rewrite (store_ok_get notes (PStr n) v Hok Hin).
    - apply IH. intros kv Hkv. apply Hsub. now right. }
  apply Hgen; [exact Hall | auto].
Qed.

Lemma list_then_read_witness :
  Forall2
    (fun r kv =>
       handle_read_resource [(PStr "foo", PStr "bar"); (PStr "a/b", PStr "c")]
         (Resource.uri r) = Return kv.2)
    [ {| Resource.uri := {| scheme := "note"; host := Some "internal";
                            path := Some "/foo" |};
         Resource.name := "Note: foo";
         Resource.description := "A simple note named foo";
         Resource.mimeType := "text/plain" |};
      {| Resource.uri := {| scheme := "note"; host := Some "internal";
                            path := Some "/a/b" |};
         Resource.name := "Note: a/b";
         Resource.description := "A simple note named a/b";
         Resource.mimeType := "text/plain" |} ]
    [(PStr "foo", PStr "bar"); (PStr "a/b", PStr "c")].
Proof.
  refine (list_then_read simple_any_url
            [(PStr "foo", PStr "bar"); (PStr "a/b", PStr "c")] _ _ _ _).
  - split; [repeat constructor|].
    apply NoDup_ListNoDup. repeat constructor; simpl; intuition discriminate.
  - intros k v [[= <- <-] | [[= <- <-] | []]].
    + exists "foo", (Some "internal"). repeat split.
    + exists "a/b", (Some "internal"). repeat split.
  - vm_compute. reflexivity.
Defined.

(** ** More on [quote] *)

Lemma str_length_app (a b : string) :
  str_length (a +:+ b) = (str_length a + str_length b)%nat.
Proof.
  induction a as [|c a IH]; [reflexivity|].
  change (String c a +:+ b) with (String c (a +:+ b)).
  cbn [str_length]. now rewrite IH.
Qed.

Lemma quote_byte_cases (safe : string) (c : ascii) :
  (always_safe c || (is_ascii c && str_mem c safe) = true
   /\ quote_byte safe c = String c EmptyString)
  \/ (always_safe c || (is_ascii c && str_mem c safe) = false
      /\ exists h l, quote_byte safe c = String "%" (String h (String l EmptyString))).
Proof.
  unfold quote_byte.
  destruct (always_safe c || (is_ascii c && str_mem c safe)); [left | right]; eauto.
Qed.

Lemma quote_length_ge (safe s : string) :
  (str_length s <= str_length (quote_from_bytes safe s))%nat.
Proof.
  induction s as [|c s IH]; [reflexivity|].
  cbn [quote_from_bytes str_length]. rewrite str_length_app.
  destruct (quote_byte_cases safe c) as [[_ ->] | (_ & h & l & ->)];
    cbn [str_length]; lia.
Qed.

Lemma quote_length_le (safe s : string) :
  (str_length (quote_from_bytes safe s) <= 3 * str_length s)%nat.
Proof.
  induction s as [|c s IH]; [reflexivity|].
  cbn [quote_from_bytes str_length]. rewrite str_length_app.
  destruct (quote_byte_cases safe c) as [[_ ->] | (_ & h & l & ->)];
    cbn [str_length]; lia.
Qed.

Lemma quote_fixed_iff (safe s : string) :
  quote_from_bytes safe s = s
  <-> str_forall (fun c => always_safe c || (is_ascii c && str_mem c safe)) s = true.
Proof.
  induction s as [|c s IH]; [split; reflexivity|].
  cbn [quote_from_bytes str_forall].
  destruct (quote_byte_cases safe c) as [[Hc ->] | (Hc & h & l & ->)]; rewrite Hc.
  - change (String c "" +:+ quote_from_bytes safe s) with (String c (quote_from_bytes safe s)).
    cbn [andb]. rewrite <- IH. split; [now intros [= ->] | now intros ->].
  - change (String "%" (String h (String l "")) +:+ quote_from_bytes safe s)
      with (String "%" (String h (String l (quote_from_bytes safe s)))).
    cbn [andb]. split; [|discriminate].
    intros [= _ Hs]. exfalso.
    pose proof (quote_length_ge safe s) as Hge.
    rewrite <- Hs in Hge at 1. cbn [str_length] in Hge. lia.
Qed.

(** X25. Counted in bytes of the UTF-8 text, [quote] never shortens a
    text and at most triples it, and it returns the text unchanged
    exactly when every byte is a letter, a digit, one of [_.-~] or an
    ASCII character of the safe set; a text holding a byte above 127 is
    always changed. *)
Theorem quote_length_and_fixed_points (safe s : string) :
  (str_length s <= str_length (quote_from_bytes safe s) <= 3 * str_length s)%nat
  /\ (quote_from_bytes safe s = s
      <-> str_forall (fun c => always_safe c || (is_ascii c && str_mem c safe)) s = true)
  /\ (str_length (quote_from_bytes safe s) = str_length s
      -> quote_from_bytes safe s = s)
  /\ (str_forall is_ascii s = false -> quote_from_bytes safe s <> s).
Proof.
  split; [split; [apply quote_length_ge | apply quote_length_le]|].
  split; [apply quote_fixed_iff|]. split.
  - induction s as [|c s IH]; [reflexivity|].
    cbn [quote_from_bytes str_length]. rewrite str_length_app.
    pose proof (quote_length_ge safe s) as Hge.
    destruct (quote_byte_cases safe c) as [[_ ->] | (_ & h & l & ->)];
      cbn [str_length]; intros Hlen; [|lia].
    change (String c "" +:+ quote_from_bytes safe s)
      with (String c (quote_from_bytes safe s)).
    f_equal. apply IH. lia.
  - intros Hna Hfix. apply quote_fixed_iff in Hfix.
    assert (Hall : str_forall is_ascii s = true); [|congruence].
    apply (str_forall_impl (fun c => always_safe c || (is_ascii c && str_mem c safe)));
      [|exact Hfix].
    intros c Hc. destruct (is_ascii c) eqn:Ea; [reflexivity|].
    cbn [andb] in Hc. rewrite orb_false_r in Hc.
    revert Ea Hc. clear. destruct c as [[] [] [] [] [] [] [] []]; vm_compute; congruence.
Qed.

Lemma quote_length_and_fixed_points_witness :
  quote_from_bytes "/" "2024-01-02/a_b.c~d" = "2024-01-02/a_b.c~d"
  /\ quote_from_bytes (String (ascii_of_nat 195) (String (ascii_of_nat 169) ""))
       (String (ascii_of_nat 195) (String (ascii_of_nat 169) ""))
     <> String (ascii_of_nat 195) (String (ascii_of_nat 169) "").
Proof.
  split.
  - refine (proj1 (proj2 (proj2 (quote_length_and_fixed_points "/" "2024-01-02/a_b.c~d"))) _).
    reflexivity.
  - refine (proj2 (proj2 (proj2 (quote_length_and_fixed_points _ _))) _).
    reflexivity.
Defined.

Example quote_non_ascii_safe :
  quote_from_bytes (String (ascii_of_nat 195) (String (ascii_of_nat 169) ""))
    (String (ascii_of_nat 195) (String (ascii_of_nat 169) "")) = "%C3%A9"
  /\ str_length (quote_from_bytes "/"
        (String (ascii_of_nat 240) (String (ascii_of_nat 159)
           (String (ascii_of_nat 152) (String (ascii_of_nat 128) ""))))) = 12%nat.
Proof. split; reflexivity. Qed.

Lemma unquote_quote_byte_safe (safe : string) (c : ascii) (r : string) :
  str_mem "%" safe = false ->
  unquote (quote_byte safe c +:+ r) = String c (unquote r).
Proof.
  intros H. unfold quote_byte.
  destruct c as [[] [] [] [] [] [] [] []];
    first [ reflexivity
          | match goal with
            | |- context [str_mem ?x safe] =>
                let E := fresh "E" in
                destruct (str_mem x safe) eqn:E; first [reflexivity | congruence]
            end ].
Qed.

(** X26. For any safe set that does not hold [%], percent-decoding
    undoes [quote], so [quote] loses nothing: two texts with the same
    encoding are the same text. *)
Theorem quote_round_trip (safe s : string) :
  str_mem "%" safe = false ->
  unquote (quote_from_bytes safe s) = s
  /\ (forall s', quote_from_bytes safe s = quote_from_bytes safe s' -> s = s').
Proof.
  intros H.
  assert (Hun : forall x, unquote (quote_from_bytes safe x) = x).
  { induction x as [|c x IH]; [reflexivity|].
    cbn [quote_from_bytes]. now rewrite (unquote_quote_byte_safe safe c _ H), IH. }
  split; [apply Hun|].
  intros s' Heq. rewrite <- (Hun s), <- (Hun s'). now rewrite Heq.
Qed.

Lemma quote_round_trip_witness :
  unquote (quote_from_bytes ":/?=&" "a b?c=d%20e") = "a b?c=d%20e".
Proof.
  refine (proj1 (quote_round_trip ":/?=&" "a b?c=d%20e" _)).
  reflexivity.
Defined.

(** ** The demonstration script *)

Lemma quote_byte_url_char (c : ascii) :
  url_char c = true ->
  quote_byte ":/?=&" c = if Ascii.eqb c "%" then "%25" else String c EmptyString.
Proof. destruct c as [[] [] [] [] [] [] [] []]; vm_compute; congruence. Qed.

Lemma reencode_doubles_percent (url : string) :
  str_forall url_char url = true ->
  quote_from_bytes ":/?=&" url = double_percent url.
Proof.
  induction url as [|c url IH]; [reflexivity|].
  cbn [str_forall quote_from_bytes double_percent].
  rewrite andb_true_iff. intros [Hc Hs].
  rewrite (quote_byte_url_char c Hc), (IH Hs).
  now destruct (Ascii.eqb c "%").
Qed.

(** X27. The script's invoker does not pass the URL on as it is: it
    hands [open] the URL encoded once more, keeping only [: / ? = &].  On
    a URL that is already percent-encoded this writes every [%] as [%25];
    the URL reaches [open] unchanged exactly when it has nothing to
    encode, and decoding what was opened gives the URL back. *)
Theorem script_call_url_reencodes (P : platform) (url : string) :
  XCallbackTest.call_url P url = call_url P (quote_from_bytes ":/?=&" url)
  /\ (str_forall url_char url = true ->
      quote_from_bytes ":/?=&" url = double_percent url)
  /\ (quote_from_bytes ":/?=&" url = url
      <-> str_forall (fun c => always_safe c || str_mem c ":/?=&") url = true)
  /\ unquote (quote_from_bytes ":/?=&" url) = url.
Proof.
  split; [reflexivity|]. split; [apply reencode_doubles_percent|].
  split.
  { rewrite quote_fixed_iff. split; apply str_forall_impl; intros c Hc.
    - destruct (is_ascii c); [exact Hc|].
      cbn [andb] in Hc. rewrite orb_false_r in Hc. now rewrite Hc.
    - revert Hc. clear. destruct c as [[] [] [] [] [] [] [] []]; vm_compute; congruence. }
  induction url as [|c url IH]; [reflexivity|].
  cbn [quote_from_bytes].
  now rewrite (unquote_quote_byte_safe ":/?=&" c _ eq_refl), IH.
Qed.

Lemma script_call_url_reencodes_witness :
  quote_from_bytes ":/?=&"
    "agenda://x-callback-url/create-note?title=Foobar&text=Test%20Note&project-title=Illumio"
  = double_percent
      "agenda://x-callback-url/create-note?title=Foobar&text=Test%20Note&project-title=Illumio".
Proof.
  refine (proj1 (proj2 (script_call_url_reencodes (exit_with 0 "" "")
            "agenda://x-callback-url/create-note?title=Foobar&text=Test%20Note&project-title=Illumio"))
            _).
  reflexivity.
Defined.

Example script_agenda_url_opened :
  XCallbackTest.test_agenda_url (exit_with 0 "" "")
  = (Return tt,
     [ XCallbackTest.Print
         "Testing URL: agenda://x-callback-url/create-note?title=Foobar&text=Test%20Note&project-title=Illumio";
       XCallbackTest.Open
         "agenda://x-callback-url/create-note?title=Foobar&text=Test%2520Note&project-title=Illumio";
       XCallbackTest.Print "Response: " ]).
Proof. vm_compute. reflexivity. Qed.

Lemma opens_app (a b : list XCallbackTest.io) : opens (a ++ b) = (opens a + opens b)%nat.
Proof. unfold opens. now rewrite List.filter_app, length_app. Qed.

Lemma test_url_cases (P : platform) (url : string) :
  (exists out, XCallbackTest.test_url P url = (Return tt, out) /\ opens out = 1%nat)
  \/ (exists e out,
        XCallbackTest.call_url P url = Raise e
        /\ XCallbackTest.test_url P url = (Raise e, out) /\ opens out = 1%nat).
Proof.
  unfold XCallbackTest.test_url.
  destruct (XCallbackTest.call_url P url) as [response|e]; [left | right]; eauto.
Qed.

(** Induction over the lines of input, one or two at a time. *)
Lemma stdin_ind (Q : list string -> Prop) :
  Q [] ->
  (forall a, Q [a]) ->
  (forall a b rest, Q rest -> Q (b :: rest) -> Q (a :: b :: rest)) ->
  forall stdin, Q stdin.
Proof.
  intros H0 H1 H2 stdin.
  assert (H : Q stdin /\ forall a, Q (a :: stdin)).
  { induction stdin as [|b rest [IHa IHb]]; [split; auto|].
    split; [apply IHb|]. intros a. apply H2; [exact IHa | apply IHb]. }
  apply H.
Qed.

Lemma loop_cons (P : platform) (choice : string) (rest : list string) :
  XCallbackTest.loop P (choice :: rest)
  = if String.eqb choice "1" then
      match XCallbackTest.test_things_url P with
      | (Return _, out) =>
          let r := XCallbackTest.loop P rest in
          (r.1, XCallbackTest.menu ++ out ++ r.2)
      | (Raise e, out) => (Raise e, XCallbackTest.menu ++ out)
      end
    else if String.eqb choice "2" then
      match XCallbackTest.test_agenda_url P with
      | (Return _, out) =>
          let r := XCallbackTest.loop P rest in
          (r.1, XCallbackTest.menu ++ out ++ r.2)
      | (Raise e, out) => (Raise e, XCallbackTest.menu ++ out)
      end
    else if String.eqb choice "3" then
      match rest with
      | [] =>
          (Raise XCallbackTest.EOFError,
           XCallbackTest.menu ++ [XCallbackTest.Prompt "Enter x-callback URL to test: "])
      | custom_url :: rest' =>
          let shown :=
            match XCallbackTest.call_url P custom_url with
            | Return response => XCallbackTest.Print ("Response: " +:+ response)
            | Raise e => XCallbackTest.Print ("Error: " +:+ exn_str e)
            end in
          let r := XCallbackTest.loop P rest' in
          (r.1,
           XCallbackTest.menu
             ++ [XCallbackTest.Prompt "Enter x-callback URL to test: ";
                 XCallbackTest.Open (quote_from_bytes ":/?=&" custom_url); shown]
             ++ r.2)
      end
    else if String.eqb choice "4" then
      (Return tt, XCallbackTest.menu ++ [XCallbackTest.Print "Exiting..."])
    else
      let r := XCallbackTest.loop P rest in
      (r.1, XCallbackTest.menu
              ++ [XCallbackTest.Print "Invalid choice. Please try again."] ++ r.2).
Proof. reflexivity. Qed.

(** X28. A URL typed in under choice 3 can fail without ending the
    script: whatever is typed, the menu loop ends only by choice 4, by
    running out of input ([EOFError]), or by the error of one of the two
    built-in tests (choices 1 and 2), whose failures are not caught. *)
Theorem script_loop_outcomes (P : platform) (stdin : list string) :
  (XCallbackTest.loop P stdin).1 = Return tt /\ In "4" stdin
  \/ (XCallbackTest.loop P stdin).1 = Raise XCallbackTest.EOFError
  \/ exists e,
       (XCallbackTest.loop P stdin).1 = Raise e
       /\ ((In "1" stdin /\ (XCallbackTest.test_things_url P).1 = Raise e)
           \/ (In "2" stdin /\ (XCallbackTest.test_agenda_url P).1 = Raise e)).
Proof.
  assert (Hmono : forall (a : string) (rest : list string),
    ((XCallbackTest.loop P rest).1 = Return tt /\ In "4" rest
     \/ (XCallbackTest.loop P rest).1 = Raise XCallbackTest.EOFError
     \/ exists e,
          (XCallbackTest.loop P rest).1 = Raise e
          /\ ((In "1" rest /\ (XCallbackTest.test_things_url P).1 = Raise e)
              \/ (In "2" rest /\ (XCallbackTest.test_agenda_url P).1 = Raise e))) ->
    forall extra : list string,
    (forall x, In x rest -> In x (extra ++ rest)) ->
    ((XCallbackTest.loop P rest).1 = Return tt /\ In "4" (extra ++ rest)
     \/ (XCallbackTest.loop P rest).1 = Raise XCallbackTest.EOFError
     \/ exists e,
          (XCallbackTest.loop P rest).1 = Raise e
          /\ ((In "1" (extra ++ rest) /\ (XCallbackTest.test_things_url P).1 = Raise e)
              \/ (In "2" (extra ++ rest)
                  /\ (XCallbackTest.test_agenda_url P).1 = Raise e)))).
  { intros _ rest [[H4 Hin] | [He | (e & He & [[Hin Ht] | [Hin Ht]])]] extra Hsub.
    - left. auto.
    - right. now left.
    - right. right. exists e. split; [exact He|]. left. auto.
    - right. right. exists e. split; [exact He|]. right. auto. }
  assert (Hstep : forall choice rest,
    (XCallbackTest.loop P rest).1 = Return tt /\ In "4" rest
     \/ (XCallbackTest.loop P rest).1 = Raise XCallbackTest.EOFError
     \/ (exists e,
          (XCallbackTest.loop P rest).1 = Raise e
          /\ ((In "1" rest /\ (XCallbackTest.test_things_url P).1 = Raise e)
              \/ (In "2" rest /\ (XCallbackTest.test_agenda_url P).1 = Raise e))) ->
    String.eqb choice "3" = false ->
    (XCallbackTest.loop P (choice :: rest)).1 = Return tt /\ In "4" (choice :: rest)
     \/ (XCallbackTest.loop P (choice :: rest)).1 = Raise XCallbackTest.EOFError
     \/ (exists e,
          (XCallbackTest.loop P (choice :: rest)).1 = Raise e
          /\ ((In "1" (choice :: rest) /\ (XCallbackTest.test_things_url P).1 = Raise e)
              \/ (In "2" (choice :: rest)
                  /\ (XCallbackTest.test_agenda_url P).1 = Raise e)))).
  { intros choice rest IH H3. rewrite loop_cons, H3.
    pose proof (Hmono choice rest IH [choice] (fun x H => or_intror H)) as IH'.
    cbn [app] in IH'.
    destruct (String.eqb_spec choice "1") as [->|_].
    { destruct (XCallbackTest.test_things_url P) as [[[]|e] out] eqn:Et;
        cbn [fst]; [exact IH'|].
      right. right. exists e. split; [reflexivity|]. left. split; [now left | reflexivity]. }
    destruct (String.eqb_spec choice "2") as [->|_].
    { destruct (XCallbackTest.test_agenda_url P) as [[[]|e] out] eqn:Et;
        cbn [fst]; [exact IH'|].
      right. right. exists e. split; [reflexivity|]. right. split; [now left | reflexivity]. }
    destruct (String.eqb_spec choice "4") as [->|_].
    { left. split; [reflexivity | now left]. }
    cbn [fst]. exact IH'. }
  induction stdin as [|a|a b rest IHrest IHb] using stdin_ind.
  - right. now left.
  - destruct (String.eqb_spec a "3") as [->|H3].
    + right. now left.
    + apply Hstep; [right; now left | now apply String.eqb_neq].
  - destruct (String.eqb_spec a "3") as [->|H3].
    + rewrite loop_cons. cbn [String.eqb Ascii.eqb Bool.eqb fst].
      apply (Hmono "3" rest IHrest ["3"; b]).
      intros x H. right. now right.
    + apply Hstep; [exact IHb | now apply String.eqb_neq].
Qed.

(** X29. The script opens at most one URL for every line it is given,
    and it reads nothing after choice 4: what follows a 4 typed at the
    menu has no effect on the run. *)
Theorem script_opens_bounded (P : platform) (stdin : list string) :
  (opens (XCallbackTest.loop P stdin).2 <= length stdin)%nat
  /\ (forall rest, XCallbackTest.loop P ("4" :: rest) = XCallbackTest.loop P ["4"]).
Proof.
  split; [|reflexivity].
  assert (Hmenu : opens XCallbackTest.menu = 0%nat) by reflexivity.
  assert (Hstep : forall choice rest,
    (opens (XCallbackTest.loop P rest).2 <= length rest)%nat ->
    String.eqb choice "3" = false ->
    (opens (XCallbackTest.loop P (choice :: rest)).2 <= length (choice :: rest))%nat).
  { intros choice rest IH H3. rewrite loop_cons, H3. cbn [length].
    destruct (String.eqb choice "1").
    { unfold XCallbackTest.test_things_url.
      destruct (test_url_cases P
                  "things:///add?title=Test%20Todo&notes=Created%20via%20x-callback")
        as [(out & -> & Ho) | (e & out & _ & -> & Ho)];
        cbn [snd]; rewrite !opens_app, Hmenu, Ho; lia. }
    destruct (String.eqb choice "2").
    { unfold XCallbackTest.test_agenda_url.
      destruct (test_url_cases P
                  "agenda://x-callback-url/create-note?title=Foobar&text=Test%20Note&project-title=Illumio")
        as [(out & -> & Ho) | (e & out & _ & -> & Ho)];
        cbn [snd]; rewrite !opens_app, Hmenu, Ho; lia. }
    destruct (String.eqb choice "4").
    { cbn [snd]. rewrite opens_app, Hmenu. cbn. lia. }
    cbn [snd]. rewrite !opens_app, Hmenu.
    change (opens [XCallbackTest.Print "Invalid choice. Please try again."]) with 0%nat.
    lia. }
  induction stdin as [|a|a b rest IHrest IHb] using stdin_ind.
  - cbn. lia.
  - destruct (String.eqb_spec a "3") as [->|H3].
    + cbn. lia.
    + apply Hstep; [cbn; lia | now apply String.eqb_neq].
  - destruct (String.eqb_spec a "3") as [->|H3].
    + rewrite loop_cons. cbn [String.eqb Ascii.eqb Bool.eqb snd length].
      rewrite !opens_app, Hmenu.
      destruct (XCallbackTest.call_url P b);
        unfold opens in *; cbn [List.filter length]; lia.
    + apply Hstep; [exact IHb | now apply String.eqb_neq].
Qed.
